(** * Researcher's Friend: the relational schema and its admin dashboard

    The repository is a Django application: three modules of model
    classes ([administrative.py], [evidence.py], [conclusions.py]) and an
    admin configuration ([admin.py]).  The class bodies are transcribed
    below binding by binding; what a declaration means (which bindings
    become columns, what a constructor does, what a form accepts, what
    the tables refuse) is given by the [django] module, which follows
    the framework release the migrations were written for (1.7). *)

From Stdlib Require Import Ascii String.
From stdpp Require Import gmap strings list fin_maps sorting.

Open Scope string_scope.
Open Scope list_scope.

(** ** Python values held by instances and rows *)

Inductive value :=
| VNone
| VStr (s : string)
| VInt (n : Z)
| VBool (b : bool)
| VDate (ordinal : Z)
| VObj (cls : string) (pk : option Z).

#[global] Instance value_eq_dec : EqDecision value.
Proof. solve_decision. Defined.

(** [django.core.validators.EMPTY_VALUES] restricted to the values above:
    [None] and the empty string. *)
Definition empty_values (v : value) : bool :=
  match v with
  | VNone => true
  | VStr EmptyString => true
  | _ => false
  end.

(** Text is held as the bytes of its UTF-8 encoding.  [len(s)] is the
    number of characters: the bytes that do not continue a character
    (a continuation byte is [10xxxxxx]). *)
Definition continues (a : ascii) : bool :=
  match a with
  | Ascii _ _ _ _ _ _ b6 b7 => b7 && negb b6
  end.

Fixpoint len (s : string) : nat :=
  match s with
  | EmptyString => 0
  | String a s' => (if continues a then 0 else 1) + len s'
  end.

(** ** The declaration language of [django.db.models] *)

(** Keyword arguments of a field constructor, as they are written in the
    class bodies. *)
Inductive kwarg :=
| verbose_name (s : string)
| max_length (n : nat)
| choices (c : list (string * string))
| blank (b : bool)
| null (b : bool)
| default (v : value)
| editable (b : bool)
| primary_key (b : bool)
| parent_link (b : bool)
| related_name (s : string)
| through (s : string).

#[global] Instance kwarg_eq_dec : EqDecision kwarg.
Proof. solve_decision. Defined.

(** Field classes.  The first positional argument of a relational field
    is its target; the first positional argument of any other field is
    its verbose name and is transcribed as the [verbose_name] keyword. *)
Inductive Field :=
| AutoField (kw : list kwarg)
| CharField (kw : list kwarg)
| TextField (kw : list kwarg)
| IntegerField (kw : list kwarg)
| PositiveSmallIntegerField (kw : list kwarg)
| BooleanField (kw : list kwarg)
| DateField (kw : list kwarg)
| FileField (kw : list kwarg)
| ForeignKey (to : string) (kw : list kwarg)
| OneToOneField (to : string) (kw : list kwarg)
| ManyToManyField (to : string) (kw : list kwarg).

#[global] Instance Field_eq_dec : EqDecision Field.
Proof. solve_decision. Defined.

(** What a name is bound to in a class body.  [x = models.CharField(...)]
    binds a field; [x = models.CharField(...),] with its trailing comma
    binds a one-element tuple holding the field; [def] and nested
    [class] statements bind functions and classes. *)
Inductive attr :=
| AField (f : Field)
| ATuple1 (f : Field)
| ADef
| AClass.

#[global] Instance attr_eq_dec : EqDecision attr.
Proof. solve_decision. Defined.

Record ModelClass := {
  cls_name : string;
  cls_base : string;
  cls_body : list (string * attr)
}.

#[global] Instance ModelClass_eq_dec : EqDecision ModelClass.
Proof. solve_decision. Defined.

(** ** [researcher/models/conclusions.py] *)

Module conclusions.

Definition ASSERTION_SUBJECT_TYPES : list (string * string) :=
  [("P", "Persona"); ("E", "Event"); ("C", "Characteristic"); ("G", "Group")].

Definition SORT_ORDER_CHOICES : list (string * string) :=
  [("A", "Ascending"); ("D", "Descending"); ("N", "None")].

Definition Assertion : ModelClass :=
  {| cls_name := "Assertion";
     cls_base := "models.Model";
     cls_body := [
       ("surety_scheme_part", AField (ForeignKey "SuretySchemePart" [verbose_name "assertion surety"; blank true]));
       ("researcher", AField (ForeignKey "Researcher" [verbose_name "researcher who made assertion"]));
       ("source", AField (ForeignKey "Source" [verbose_name "source that prompted assertion"; blank true]));
       ("subject1_type", ATuple1 (CharField [verbose_name "type of first assertion subject"; max_length 1; choices ASSERTION_SUBJECT_TYPES]));
       ("subject1", ATuple1 (IntegerField [verbose_name "id of subject 1"]));
       ("subject2_type", ATuple1 (CharField [verbose_name "type of second assertion subject"; max_length 1; choices ASSERTION_SUBJECT_TYPES]));
       ("subject2", ATuple1 (IntegerField [verbose_name "id of subject 2"]));
       ("value_role", ATuple1 (CharField [verbose_name "value of object in the assertion"; max_length 64; blank true]));
       ("rationale", AField (TextField [verbose_name "basis for the assertion"]));
       ("disproved", AField (BooleanField [default (VBool false)]))
     ] |}.

Definition AssertionAssertion : ModelClass :=
  {| cls_name := "AssertionAssertion";
     cls_base := "models.Model";
     cls_body := [
       ("assertion_low", AField (ForeignKey "Assertion" [verbose_name "input assertion"; related_name "+"]));
       ("assertion_high", AField (ForeignKey "Assertion" [verbose_name "output assertion"; related_name "+"]));
       ("sequence_number", AField (PositiveSmallIntegerField [verbose_name "order of low level of assertion"; default (VInt 0)]))
     ] |}.

Definition Persona : ModelClass :=
  {| cls_name := "Persona";
     cls_base := "models.Model";
     cls_body := [
       ("name", AField (CharField [verbose_name "name of the person"; max_length 256]));
       ("description_comments", AField (TextField [verbose_name "about this person"]));
       ("__str__", ADef)
     ] |}.

Definition Event : ModelClass :=
  {| cls_name := "Event";
     cls_base := "models.Model";
     cls_body := [
       ("event_type", AField (ForeignKey "EventType" [verbose_name "type of the event"]));
       ("place", AField (ForeignKey "Place" [verbose_name "where this event took place"]));
       ("name", AField (CharField [verbose_name "event name"; max_length 256]));
       ("date_start", AField (DateField [verbose_name "event start date"]));
       ("date_end", AField (DateField [verbose_name "event end date"]));
       ("__str__", ADef)
     ] |}.

Definition EventType : ModelClass :=
  {| cls_name := "EventType";
     cls_base := "models.Model";
     cls_body := [
       ("name", AField (CharField [verbose_name "event type name"; max_length 64]));
       ("__str__", ADef)
     ] |}.

Definition EventTypeRole : ModelClass :=
  {| cls_name := "EventTypeRole";
     cls_base := "models.Model";
     cls_body := [
       ("event_type", AField (ForeignKey "EventType" [verbose_name "type of event this role belongs to"]));
       ("name", AField (CharField [verbose_name "role name"; max_length 64]));
       ("__str__", ADef)
     ] |}.

Definition Characteristic : ModelClass :=
  {| cls_name := "Characteristic";
     cls_base := "models.Model";
     cls_body := [
       ("place", AField (ForeignKey "Place" [verbose_name "place where characteristic was noted"]));
       ("date_start", AField (DateField [verbose_name "characteristic start date"]));
       ("date_end", AField (DateField [verbose_name "characteristic end date"]));
       ("sort_order", AField (CharField [verbose_name "how to sort characteristics"; max_length 1; choices SORT_ORDER_CHOICES]))
     ] |}.

Definition CharacteristicPart : ModelClass :=
  {| cls_name := "CharacteristicPart";
     cls_base := "models.Model";
     cls_body := [
       ("characteristic", AField (ForeignKey "Characteristic" [verbose_name "characteristic this is a part of"]));
       ("characteristic_part_type", AField (ForeignKey "CharacteristicPartType" [verbose_name "type of characteristic part"]));
       ("name", AField (CharField [verbose_name "characteristic part name"; max_length 64]));
       ("sequence_number", AField (PositiveSmallIntegerField [verbose_name "order of characteristic part"; default (VInt 0)]));
       ("__str__", ADef)
     ] |}.

Definition CharacteristicPartType : ModelClass :=
  {| cls_name := "CharacteristicPartType";
     cls_base := "models.Model";
     cls_body := [
       ("name", AField (CharField [verbose_name "name of the type of the characteristic part"; max_length 64]));
       ("__str__", ADef)
     ] |}.

Definition Group : ModelClass :=
  {| cls_name := "Group";
     cls_base := "models.Model";
     cls_body := [
       ("group_type", AField (ForeignKey "GroupType" [verbose_name "group type"]));
       ("place", AField (ForeignKey "Place" [verbose_name "place associated with this group"; blank true]));
       ("name", AField (CharField [verbose_name "group name"; max_length 128]));
       ("date_start", AField (DateField [verbose_name "group start date"]));
       ("date_end", AField (DateField [verbose_name "group end date"]));
       ("criteria", AField (TextField [verbose_name "criteria for admission to group"]));
       ("__str__", ADef)
     ] |}.

Definition GroupType : ModelClass :=
  {| cls_name := "GroupType";
     cls_base := "models.Model";
     cls_body := [
       ("name", AField (CharField [verbose_name "group type name"; max_length 128]));
       ("sort_order", AField (CharField [verbose_name "group type sort order"; max_length 1; choices SORT_ORDER_CHOICES; default (VStr "A")]));
       ("__str__", ADef)
     ] |}.

Definition GroupTypeRole : ModelClass :=
  {| cls_name := "GroupTypeRole";
     cls_base := "models.Model";
     cls_body := [
       ("group_type", AField (ForeignKey "GroupType" [verbose_name "type of group this role pertains to"]));
       ("name", AField (CharField [verbose_name "role name"; max_length 64]));
       ("sequence_number", AField (PositiveSmallIntegerField [verbose_name "order in which this should appear in list of roles"; default (VInt 0)]));
       ("__str__", ADef)
     ] |}.

Definition Place : ModelClass :=
  {| cls_name := "Place";
     cls_base := "models.Model";
     cls_body := [
       ("existence_date_start", AField (DateField [verbose_name "date this place was founded"; blank true]));
       ("existence_date_end", AField (DateField [verbose_name "date this place ceased to be"; blank true]));
       ("sort_order", AField (CharField [verbose_name "sort direction"; max_length 1; choices SORT_ORDER_CHOICES; default (VStr "A")]));
       ("__str__", ADef)
     ] |}.

Definition PlacePart : ModelClass :=
  {| cls_name := "PlacePart";
     cls_base := "models.Model";
     cls_body := [
       ("place_part_type", AField (ForeignKey "PlacePartType" [verbose_name "place type"]));
       ("place", AField (ForeignKey "Place" [verbose_name "place entity this part belongs to"]));
       ("name", AField (CharField [verbose_name "place name"; max_length 128]));
       ("sequence_number", AField (PositiveSmallIntegerField [verbose_name "sort order"; default (VInt 0)]));
       ("__str__", ADef)
     ] |}.

Definition PlacePartType : ModelClass :=
  {| cls_name := "PlacePartType";
     cls_base := "models.Model";
     cls_body := [
       ("name", AField (CharField [verbose_name "place part type name"; max_length 64]));
       ("__str__", ADef)
     ] |}.

End conclusions.

(** ** [researcher/models/administrative.py] *)

Module administrative.

Definition Researcher : ModelClass :=
  {| cls_name := "Researcher";
     cls_base := "models.Model";
     cls_body := [
       ("name", AField (CharField [verbose_name "researcher's full name"; max_length 128]));
       ("address", AField (ForeignKey "Place" [blank true; verbose_name "researcher's address place"]));
       ("comments", AField (TextField [verbose_name "comments about the researcher"; blank true]));
       ("user", AField (OneToOneField "settings.AUTH_USER_MODEL" []));
       ("__str__", ADef)
     ] |}.

Definition Project : ModelClass :=
  {| cls_name := "Project";
     cls_base := "models.Model";
     cls_body := [
       ("name", AField (CharField [verbose_name "project name"; max_length 128]));
       ("description", AField (TextField [verbose_name "project description"; blank true]));
       ("client_data", AField (TextField [verbose_name "project client information"; blank true]));
       ("surety_scheme", AField (ForeignKey "SuretyScheme" [blank true; null true; verbose_name "surety scheme used by the project"]));
       ("researchers", AField (ManyToManyField "Researcher" [through "ResearcherProject"; verbose_name "researchers working on the project"; blank true]));
       ("__str__", ADef)
     ] |}.

Definition ResearcherProject : ModelClass :=
  {| cls_name := "ResearcherProject";
     cls_base := "models.Model";
     cls_body := [
       ("researcher", AField (ForeignKey "Researcher" []));
       ("project", AField (ForeignKey "Project" []));
       ("role", AField (CharField [verbose_name "researcher's role on project"; max_length 64; blank true]))
     ] |}.

Definition SuretyScheme : ModelClass :=
  {| cls_name := "SuretyScheme";
     cls_base := "models.Model";
     cls_body := [
       ("name", AField (CharField [verbose_name "surety scheme name"; max_length 64]));
       ("description", AField (TextField [verbose_name "surety scheme description"; blank true]));
       ("__str__", ADef)
     ] |}.

Definition SuretySchemePart : ModelClass :=
  {| cls_name := "SuretySchemePart";
     cls_base := "models.Model";
     cls_body := [
       ("surety_scheme", AField (ForeignKey "SuretyScheme" [verbose_name "surety scheme this part belongs to"]));
       ("name", AField (CharField [verbose_name "surety scheme part name"; max_length 1]));
       ("description", AField (TextField [verbose_name "surety scheme part description"; blank true]));
       ("sequence_number", AField (PositiveSmallIntegerField [verbose_name "surety part sequence number"; default (VInt 0)]));
       ("__str__", ADef)
     ] |}.

Definition Activity : ModelClass :=
  {| cls_name := "Activity";
     cls_base := "models.Model";
     cls_body := [
       ("researcher", AField (ForeignKey "Researcher" [verbose_name "researcher"]));
       ("scheduled_date", AField (DateField [verbose_name "date scheduled"]));
       ("completed_date", AField (DateField [verbose_name "date completed"]));
       ("typecode", AField (CharField [max_length 1; choices [("A", "Administrative Task"); ("S", "Search")]; editable false]));
       ("status", AField (CharField [verbose_name "status"; max_length 64]));
       ("description", AField (TextField [verbose_name "description"]));
       ("priority", AField (PositiveSmallIntegerField [verbose_name "priority"]));
       ("comments", AField (TextField [verbose_name "comments"; blank true]));
       ("__str__", ADef);
       ("Meta", AClass)
     ] |}.

Definition AdministrativeTask : ModelClass :=
  {| cls_name := "AdministrativeTask";
     cls_base := "Activity";
     cls_body := [
       ("activity", AField (OneToOneField "Activity" [primary_key true; verbose_name "activity this task inherits from"; parent_link true; editable false]));
       ("__init__", ADef)
     ] |}.

Definition Search : ModelClass :=
  {| cls_name := "Search";
     cls_base := "Activity";
     cls_body := [
       ("activity", AField (OneToOneField "Activity" [primary_key true; verbose_name "activity this search inherits from"; parent_link true; editable false]));
       ("source", AField (ForeignKey "RepositorySource" [verbose_name "source searched"; related_name "source_searches"]));
       ("repository", AField (ForeignKey "RepositorySource" [verbose_name "repository searched"; related_name "repository_searches"]));
       ("searched_for", AField (TextField [verbose_name "text searched for"]));
       ("__init__", ADef);
       ("__str__", ADef);
       ("Meta", AClass)
     ] |}.

Definition ResearchObjective : ModelClass :=
  {| cls_name := "ResearchObjective";
     cls_base := "models.Model";
     cls_body := [
       ("project", AField (ForeignKey "Project" [verbose_name "project this objective belongs to"]));
       ("name", AField (CharField [verbose_name "research objective name"; max_length 128]));
       ("description", AField (TextField [verbose_name "research objective descriptin"; blank true]));
       ("sequence_number", AField (PositiveSmallIntegerField [verbose_name "research objective sequence number"; default (VInt 0)]));
       ("priority", AField (PositiveSmallIntegerField [verbose_name "research objective priority"]));
       ("status", AField (CharField [verbose_name "research objective status"; max_length 64]));
       ("activities", AField (ManyToManyField "Activity" [verbose_name "activities undertaken to further this objective"; blank true]));
       ("__str__", ADef)
     ] |}.

Definition SourceGroup : ModelClass :=
  {| cls_name := "SourceGroup";
     cls_base := "models.Model";
     cls_body := [
       ("name", AField (CharField [verbose_name "category of sources"; max_length 128]));
       ("__str__", ADef)
     ] |}.

End administrative.

(** ** [researcher/models/evidence.py] *)

Module evidence.

Definition Source : ModelClass :=
  {| cls_name := "Source";
     cls_base := "models.Model";
     cls_body := [
       ("higher_source", AField (ForeignKey "self" [verbose_name "higher-level source that contains this source"; blank true]));
       ("subject_place", AField (ForeignKey "Place" [verbose_name "place described by the source"; related_name "subject_sources"]));
       ("jurisdiction_place", AField (ForeignKey "Place" [verbose_name "place where source was created or stored"; related_name "jurisdiction_sources"]));
       ("researcher", AField (ForeignKey "Researcher" [verbose_name "person who gathered this source record"]));
       ("subject_date_start", AField (DateField [verbose_name "beginning of source date range"]));
       ("subject_date_end", AField (DateField [verbose_name "ending of source date range"]));
       ("comment", AField (TextField [verbose_name "comments about the source"; blank true]));
       ("source_group", AField (ManyToManyField "SourceGroup" [verbose_name "groups or categories this source belongs to"; blank true]));
       ("repositories", AField (ManyToManyField "Repository" [through "RepositorySource"; verbose_name "repositories in which this source can be found"; blank true]))
     ] |}.

Definition Repository : ModelClass :=
  {| cls_name := "Repository";
     cls_base := "models.Model";
     cls_body := [
       ("place", AField (ForeignKey "Place" [verbose_name "location of repository"]));
       ("name", AField (CharField [verbose_name "repository name"; max_length 128]));
       ("address", AField (TextField [verbose_name "repository address"; blank true]));
       ("phone", AField (CharField [verbose_name "repository phone number"; max_length 64; blank true]));
       ("hours", AField (TextField [verbose_name "repository hours"; blank true]));
       ("comments", AField (TextField [verbose_name "comments about the repository"; blank true]));
       ("__str__", ADef);
       ("Meta", AClass)
     ] |}.

Definition RepositorySource : ModelClass :=
  {| cls_name := "RepositorySource";
     cls_base := "models.Model";
     cls_body := [
       ("repository", AField (ForeignKey "Repository" [verbose_name "repository that holds source"; blank true]));
       ("source", AField (ForeignKey "Source" [verbose_name "source in repository"; blank true]));
       ("activity", AField (ForeignKey "Search" [verbose_name "specific search done in this combination"]));
       ("call_number", AField (CharField [verbose_name "call number for this particular sounce in this repository"; max_length 64; blank true]));
       ("description", AField (TextField [verbose_name "notes about this source in this repository"; blank true]))
     ] |}.

Definition RepresentationType : ModelClass :=
  {| cls_name := "RepresentationType";
     cls_base := "models.Model";
     cls_body := [
       ("name", AField (CharField [verbose_name "type of representation"; max_length 64]));
       ("__str__", ADef)
     ] |}.

Definition Representation : ModelClass :=
  {| cls_name := "Representation";
     cls_base := "models.Model";
     cls_body := [
       ("source", AField (ForeignKey "Source" [verbose_name "source that this represents"]));
       ("representation_type", AField (ForeignKey "RepresentationType" [verbose_name "type of document this representation is"]));
       ("physical_file_code", AField (CharField [verbose_name "location of the physical representation"; max_length 256; blank true]));
       ("medium", AField (CharField [verbose_name "representation medium"; max_length 64]));
       ("content", ATuple1 (FileField [verbose_name "contents of the representation"]));
       ("comments", AField (TextField [verbose_name "comments describing the representation"; blank true]))
     ] |}.

Definition CitationPartType : ModelClass :=
  {| cls_name := "CitationPartType";
     cls_base := "models.Model";
     cls_body := [
       ("name", AField (CharField [verbose_name "citation party name"; max_length 64]));
       ("__str__", ADef)
     ] |}.

Definition CitationPart : ModelClass :=
  {| cls_name := "CitationPart";
     cls_base := "models.Model";
     cls_body := [
       ("source", AField (ForeignKey "Source" [verbose_name "source that this citation part refers to"]));
       ("citation_part_type", AField (ForeignKey "CitationPartType" [verbose_name "type that corresponds to this citation part"]));
       ("value", AField (CharField [verbose_name "citation part value"; max_length 256]));
       ("__str__", ADef)
     ] |}.

End evidence.

(** ** [researcher/models/__init__.py]: the models of the application *)

Import conclusions administrative evidence.

(** The application registry, in the order the three modules list their
    classes. *)
Definition app_models : list ModelClass :=
  [ Researcher; Project; ResearcherProject; SuretyScheme; SuretySchemePart;
    Activity; AdministrativeTask; Search; ResearchObjective; SourceGroup;
    Source; Repository; RepositorySource; RepresentationType;
    Representation; CitationPartType; CitationPart;
    Assertion; AssertionAssertion; Persona; Event; EventType;
    EventTypeRole; Characteristic; CharacteristicPart;
    CharacteristicPartType; Group; GroupType; GroupTypeRole; Place;
    PlacePart; PlacePartType ].

(** ** Exceptions and results *)

Inductive exn :=
| IndexError
| TypeError
| ValueError
| DoesNotExist
| Http404
| ValidationError (field code : string)
| IntegrityError (column constraint : string).

Inductive result (A : Type) :=
| Ok (a : A)
| Raise (e : exn).

Arguments Ok {A} a.
Arguments Raise {A} e.

#[global] Instance exn_eq_dec : EqDecision exn.
Proof. solve_decision. Defined.

#[global] Instance result_eq_dec {A} `{EqDecision A} : EqDecision (result A).
Proof. solve_decision. Defined.

#[global] Instance result_ret : MRet result := λ A, Ok.
#[global] Instance result_bind : MBind result :=
  λ A B f m, match m with Ok a => f a | Raise e => Raise e end.
#[global] Instance result_fmap : FMap result :=
  λ A B f m, match m with Ok a => Ok (f a) | Raise e => Raise e end.

Definition raises {A} (m : result A) : Prop := ∃ e, m = Raise e.
Definition returns {A} (m : result A) : Prop := ∃ a, m = Ok a.

(** An instance's [__dict__], a row of a table, and the keyword
    arguments of a call are all finite maps from names to values. *)
Abbreviation dict := (gmap string value).

(** * The framework: [django.db.models] *)

Module django.

(** *** Field options ([Field.__init__] and its defaults) *)

Definition options (f : Field) : list kwarg :=
  match f with
  | AutoField kw | CharField kw | TextField kw | IntegerField kw
  | PositiveSmallIntegerField kw | BooleanField kw | DateField kw
  | FileField kw => kw
  | ForeignKey _ kw | OneToOneField _ kw | ManyToManyField _ kw => kw
  end.

Definition option_of {A} (sel : kwarg → option A) (f : Field) : option A :=
  head (omap sel (options f)).

(** [BooleanField.__init__] forces [blank=True]; everywhere else
    [blank] is [False] unless given. *)
Definition field_blank (f : Field) : bool :=
  match f with
  | BooleanField _ => true
  | _ => from_option id false
           (option_of (λ k, match k with blank b => Some b | _ => None end) f)
  end.

Definition field_null (f : Field) : bool :=
  from_option id false
    (option_of (λ k, match k with null b => Some b | _ => None end) f).

Definition field_editable (f : Field) : bool :=
  from_option id true
    (option_of (λ k, match k with editable b => Some b | _ => None end) f).

Definition field_primary_key (f : Field) : bool :=
  from_option id false
    (option_of (λ k, match k with primary_key b => Some b | _ => None end) f).

Definition field_parent_link (f : Field) : bool :=
  from_option id false
    (option_of (λ k, match k with parent_link b => Some b | _ => None end) f).

Definition field_choices (f : Field) : list (string * string) :=
  from_option id []
    (option_of (λ k, match k with choices c => Some c | _ => None end) f).

Definition field_max_length (f : Field) : option nat :=
  option_of (λ k, match k with max_length n => Some n | _ => None end) f.

Definition field_default (f : Field) : option value :=
  option_of (λ k, match k with default v => Some v | _ => None end) f.

Definition field_through (f : Field) : option string :=
  option_of (λ k, match k with through s => Some s | _ => None end) f.

(** A [OneToOneField] is a [ForeignKey] with [unique=True]. *)
Definition field_unique (f : Field) : bool :=
  match f with
  | OneToOneField _ _ => true
  | _ => field_primary_key f
  end.

(** [isinstance(field.rel, ManyToOneRel)]: the field holds the key of one
    row of another table. *)
Definition is_relation (f : Field) : bool :=
  match f with
  | ForeignKey _ _ | OneToOneField _ _ => true
  | _ => false
  end.

Definition is_many_to_many (f : Field) : bool :=
  match f with
  | ManyToManyField _ _ => true
  | _ => false
  end.

Definition is_auto (f : Field) : bool :=
  match f with
  | AutoField _ => true
  | _ => false
  end.

(** [Field.get_attname]: a relational field [x] keeps the key in [x_id]. *)
Definition attname (name : string) (f : Field) : string :=
  if is_relation f then name +:+ "_id" else name.

(** The target of a relational field declared in class [c]; the string
    ['self'] stands for [c] itself. *)
Definition rel_to (c : ModelClass) (f : Field) : option string :=
  match f with
  | ForeignKey to _ | OneToOneField to _ | ManyToManyField to _ =>
      Some (if String.eqb to "self" then cls_name c else to)
  | _ => None
  end.

Definition empty_strings_allowed (f : Field) : bool :=
  match f with
  | CharField _ | TextField _ | FileField _ => true
  | _ => false
  end.

(** [Field.get_default]. *)
Definition get_default (f : Field) : value :=
  match field_default f with
  | Some v => v
  | None =>
      if negb (empty_strings_allowed f) || field_null f
      then VNone else VStr EmptyString
  end.

(** *** Class preparation ([ModelBase.__new__], [Options]) *)

(** [add_to_class]: a binding contributes to the class when its value
    has a [contribute_to_class] method, which fields have and tuples,
    functions and plain classes have not. *)
Definition contributed (c : ModelClass) : list (string * Field) :=
  omap (λ b, match b.2 with AField f => Some (b.1, f) | _ => None end)
       (cls_body c).

Definition local_many_to_many (c : ModelClass) : list (string * Field) :=
  filter (λ nf, is_many_to_many nf.2 = true) (contributed c).

Definition declared_fields (c : ModelClass) : list (string * Field) :=
  filter (λ nf, is_many_to_many nf.2 = false) (contributed c).

Definition get_model (name : string) : option ModelClass :=
  head (filter (λ c, cls_name c = name) app_models).

(** The concrete parent of a class: its base when that is a model of the
    application, nothing for [models.Model]. *)
Definition parent (c : ModelClass) : option ModelClass :=
  get_model (cls_base c).

(** [Options._prepare]: a class that declares no primary key and has no
    parent gets [id = AutoField(primary_key=True)] in front of its
    fields.  (A subclass without a declared parent link would get an
    automatic [_ptr] link; every subclass of this application declares
    its link itself, see [subclasses_declare_link].) *)
Definition local_fields (c : ModelClass) : list (string * Field) :=
  let fs := declared_fields c in
  if bool_decide (Exists (λ nf, field_primary_key nf.2 = true) fs) then fs
  else match parent c with
       | Some _ => fs
       | None => ("id", AutoField [verbose_name "ID"; primary_key true]) :: fs
       end.

(** [_meta.fields]: the parent's fields, then the local ones.  The
    hierarchy of the application is two levels deep, see
    [parents_are_roots]. *)
Definition fields (c : ModelClass) : list (string * Field) :=
  match parent c with
  | Some p => local_fields p ++ local_fields c
  | None => local_fields c
  end.

Definition get_field (c : ModelClass) (name : string) : option Field :=
  snd <$> head (filter (λ nf, nf.1 = name) (fields c)).

(** The attribute and column that hold the primary key. *)
Definition pk_attname (c : ModelClass) : string :=
  match head (filter (λ nf, field_primary_key nf.2 = true) (local_fields c)) with
  | Some (n, f) => attname n f
  | None => "id"
  end.

(** The local parent link, when there is one. *)
Definition parent_link_of (c : ModelClass) : option (string * Field) :=
  head (filter (λ nf, field_parent_link nf.2 = true) (local_fields c)).

(** [isinstance(obj, target)] for an instance of the class named [cls]. *)
Definition isinstance (cls target : string) : bool :=
  bool_decide (cls = target) ||
  match get_model cls with
  | Some c => bool_decide (cls_base c = target)
  | None => false
  end.

(** *** [Model.__init__] *)

Definition setattr (self : dict) (name : string) (v : value) : dict :=
  <[name := v]> self.

(** [ReverseSingleRelatedObjectDescriptor.__set__]: assigning to the
    name of a relational field checks the value, copies its key into
    the [_id] attribute and keeps the object in the cache attribute. *)
Definition related_set (c : ModelClass) (name : string) (f : Field)
    (self : dict) (v : value) : result dict :=
  match v with
  | VNone =>
      if field_null f
      then Ok (setattr (setattr self (attname name f) VNone)
                       ("_" +:+ name +:+ "_cache") VNone)
      else Raise ValueError
  | VObj cls pk =>
      if isinstance cls (from_option id EmptyString (rel_to c f))
      then Ok (setattr (setattr self (attname name f)
                                (from_option VInt VNone pk))
                       ("_" +:+ name +:+ "_cache") v)
      else Raise ValueError
  | _ => Raise ValueError
  end.

(** The first loop of [Model.__init__]: positional arguments are
    assigned to the fields in order, and a keyword for the same field is
    dropped. *)
Fixpoint init_positional (fs : list (string * Field)) (args : list value)
    (self kwargs : dict) : dict * dict * list (string * Field) :=
  match args, fs with
  | val :: args', (name, f) :: fs' =>
      init_positional fs' args' (setattr self (attname name f) val)
        (delete (attname name f) (delete name kwargs))
  | _, _ => (self, kwargs, fs)
  end.

(** The second loop: every remaining field is assigned, from the keyword
    arguments when they name it and from [get_default] otherwise. *)
Fixpoint init_remaining (c : ModelClass) (fs : list (string * Field))
    (self kwargs : dict) : result (dict * dict) :=
  match fs with
  | [] => Ok (self, kwargs)
  | (name, f) :: fs' =>
      if is_relation f then
        match kwargs !! name with
        | Some rel_obj =>
            self' ← related_set c name f self rel_obj;
            init_remaining c fs' self' (delete name kwargs)
        | None =>
            let val := from_option id (get_default f)
                         (kwargs !! attname name f) in
            init_remaining c fs' (setattr self (attname name f) val)
              (delete (attname name f) kwargs)
        end
      else
        let val := from_option id (get_default f) (kwargs !! attname name f) in
        init_remaining c fs' (setattr self (attname name f) val)
          (delete (attname name f) kwargs)
  end.

(** [Model.__init__(self, *args, **kwargs)].  Leftover keywords are
    accepted when they name a property of the class, of which [pk] is
    the only one; any other leftover raises [TypeError]. *)
Definition Model___init__ (c : ModelClass) (self : dict)
    (args : list value) (kwargs : dict) : result dict :=
  if bool_decide (length (fields c) < length args)%nat then Raise IndexError
  else
    let '(self1, kwargs1, rest) := init_positional (fields c) args self kwargs in
    '(self2, kwargs2) ← init_remaining c rest self1 kwargs1;
    let self3 := match kwargs2 !! "pk" with
                 | Some v => setattr self2 (pk_attname c) v
                 | None => self2
                 end in
    if bool_decide (delete "pk" kwargs2 = ∅) then Ok self3
    else Raise TypeError.

End django.

(** ** The two constructors of [administrative.py] *)

(** [AdministrativeTask.__init__]: the type code is assigned, then the
    inherited constructor runs on the same instance. *)
Definition AdministrativeTask___init__ (self : dict) (args : list value)
    (kwargs : dict) : result dict :=
  let self := django.setattr self "typecode" (VStr "A") in
  django.Model___init__ AdministrativeTask self args kwargs.

(** [Search.__init__]. *)
Definition Search___init__ (self : dict) (args : list value)
    (kwargs : dict) : result dict :=
  let self := django.setattr self "typecode" (VStr "S") in
  django.Model___init__ Search self args kwargs.

(** A call [Cls(...)]: a fresh instance is initialised by the class's
    own [__init__] when it defines one and by [Model.__init__]
    otherwise. *)
Definition construct (c : ModelClass) (args : list value) (kwargs : dict)
    : result dict :=
  if bool_decide (cls_name c = "AdministrativeTask")
  then AdministrativeTask___init__ ∅ args kwargs
  else if bool_decide (cls_name c = "Search")
  then Search___init__ ∅ args kwargs
  else django.Model___init__ c ∅ args kwargs.

(** * The object-relational layer: tables, queries, saving, deleting *)

Module orm.

Import django.

(** A database maps a table (named after its class) to its rows in
    storage order.  The table of the user model that
    [settings.AUTH_USER_MODEL] names is a table like the others; it is
    not one of the application's. *)
Abbreviation Database := (gmap string (list dict)).

Definition table (db : Database) (name : string) : list dict :=
  from_option id [] (db !! name).

Definition pk_column (name : string) : string :=
  match get_model name with
  | Some c => pk_attname c
  | None => "id"
  end.

Definition as_key (v : option value) : option Z :=
  match v with
  | Some (VInt k) => Some k
  | _ => None
  end.

Definition row_pk (name : string) (r : dict) : option Z :=
  as_key (r !! pk_column name).

Definition pks (db : Database) (name : string) : list Z :=
  omap (row_pk name) (table db name).

Definition exists_pk (db : Database) (name : string) (k : Z) : bool :=
  bool_decide (k ∈ pks db name).

(** The columns of a class's own table are its local fields; the row
    written for an instance takes each column from the attribute of the
    same name. *)
Definition row_of (fs : list (string * Field)) (inst : dict) : dict :=
  list_to_map
    (map (λ nf, (attname nf.1 nf.2,
                 from_option id VNone (inst !! attname nf.1 nf.2))) fs).

(** *** What the storage engine enforces *)

(** The engine is SQLite, which a project of this release is created
    with and which the framework opens without its foreign-key checks:
    the [REFERENCES] clause of a relational column is declared and not
    enforced, on writing a row and on deleting one.  What is enforced
    is [NOT NULL] on every column whose field has not [null=True], and
    [UNIQUE]. *)
Definition column_ok (r : dict) (nf : string * Field) : result unit :=
  let col := attname nf.1 nf.2 in
  match r !! col with
  | None | Some VNone =>
      if field_null nf.2 then Ok () else Raise (IntegrityError col "NOT NULL")
  | Some _ => Ok ()
  end.

Fixpoint columns_ok (r : dict) (fs : list (string * Field)) : result unit :=
  match fs with
  | [] => Ok ()
  | nf :: fs' => _ ← column_ok r nf; columns_ok r fs'
  end.

(** [UNIQUE] on the primary key and on one-to-one columns, against the
    other rows of the table. *)
Fixpoint unique_ok (others : list dict) (r : dict)
    (fs : list (string * Field)) : result unit :=
  match fs with
  | [] => Ok ()
  | nf :: fs' =>
      let col := attname nf.1 nf.2 in
      if field_unique nf.2 &&
         bool_decide (Exists (λ o, o !! col = r !! col ∧ r !! col ≠ Some VNone)
                             others)
      then Raise (IntegrityError col "UNIQUE")
      else unique_ok others r fs'
  end.

Definition next_id (db : Database) (name : string) : Z :=
  (1 + foldr Z.max 0 (pks db name))%Z.

(** [INSERT]: an automatic key is the successor of the largest key of
    the table. *)
Definition db_insert (db : Database) (c : ModelClass) (inst : dict)
    : result (Database * Z) :=
  let name := cls_name c in
  let r0 := row_of (local_fields c) inst in
  k ← match as_key (r0 !! pk_attname c) with
      | Some k => Ok k
      | None =>
          if bool_decide (Exists (λ nf, is_auto nf.2 = true) (local_fields c))
          then Ok (next_id db name)
          else Raise (IntegrityError (pk_attname c) "NOT NULL")
      end;
  let r := <[pk_attname c := VInt k]> r0 in
  let db' := <[name := table db name ++ [r]]> db in
  _ ← unique_ok (table db name) r (local_fields c);
  _ ← columns_ok r (local_fields c);
  Ok (db', k).

(** [UPDATE ... WHERE pk = k]. *)
Definition db_update (db : Database) (c : ModelClass) (k : Z) (inst : dict)
    : result (Database * Z) :=
  let name := cls_name c in
  let r := <[pk_attname c := VInt k]> (row_of (local_fields c) inst) in
  let others := filter (λ o, row_pk name o ≠ Some k) (table db name) in
  let db' := <[name := (λ o, if bool_decide (row_pk name o = Some k)
                              then r else o) <$> table db name]> db in
  _ ← unique_ok others r (local_fields c);
  _ ← columns_ok r (local_fields c);
  Ok (db', k).

(** *** [Model.save] *)

(** [save_table]: an instance whose key is already in the table is
    updated, any other is inserted. *)
Definition save_table (db : Database) (c : ModelClass) (inst : dict)
    : result (Database * Z) :=
  match as_key (inst !! pk_attname c) with
  | Some k =>
      if exists_pk db (cls_name c) k then db_update db c k inst
      else db_insert db c inst
  | None => db_insert db c inst
  end.

(** [save_base]: the parent's row is written first ([save_parents]) and
    its key is copied into the parent link, then the class's own row. *)
Definition save (db : Database) (c : ModelClass) (inst : dict)
    : result (Database * dict) :=
  match parent c, parent_link_of c with
  | Some p, Some (ln, lf) =>
      let inst0 :=
        match inst !! pk_attname p, inst !! attname ln lf with
        | (None | Some VNone), Some (VInt k) =>
            setattr inst (pk_attname p) (VInt k)
        | _, _ => inst
        end in
      '(db1, k) ← save_table db p inst0;
      let inst1 := setattr (setattr inst0 (pk_attname p) (VInt k))
                           (attname ln lf) (VInt k) in
      '(db2, _) ← save_table db1 c inst1;
      Ok (db2, inst1)
  | _, _ =>
      '(db1, k) ← save_table db c inst;
      Ok (db1, setattr inst (pk_attname c) (VInt k))
  end.

(** *** Queries *)

(** [Cls.objects.get(pk=k)]: the row of the class's table joined with
    the row of its parent's table; the instance is built by calling the
    class with the column values in field order. *)
Definition find_row (db : Database) (name : string) (k : Z) : option dict :=
  head (filter (λ r, row_pk name r = Some k) (table db name)).

Definition joined_row (db : Database) (c : ModelClass) (k : Z)
    : option dict :=
  r ← find_row db (cls_name c) k;
  match parent c, parent_link_of c with
  | Some p, Some (ln, lf) =>
      j ← as_key (r !! attname ln lf);
      pr ← find_row db (cls_name p) j;
      Some (r ∪ pr)
  | _, _ => Some r
  end.

Definition get (db : Database) (c : ModelClass) (k : Z) : result dict :=
  match joined_row db c k with
  | Some r =>
      construct c
        (map (λ nf, from_option id VNone (r !! attname nf.1 nf.2)) (fields c))
        ∅
  | None => Raise DoesNotExist
  end.

(** The reverse manager of a foreign key, [obj.<child>_set]: the rows of
    [child] whose column for the field [fname] holds the key of [obj]. *)
Definition related_manager (db : Database) (child : ModelClass)
    (fname : string) (k : value) : list dict :=
  filter (λ r, r !! (fname +:+ "_id") = Some k) (table db (cls_name child)).

(** The order of two column values under [ORDER BY]: [NULL] first, then
    by value within one type. *)
Definition value_le (a b : value) : bool :=
  match a, b with
  | VNone, _ => true
  | _, VNone => false
  | VInt x, VInt y => bool_decide (x ≤ y)%Z
  | VDate x, VDate y => bool_decide (x ≤ y)%Z
  | VBool x, VBool y => implb x y
  | VStr x, VStr y => String.leb x y
  | _, _ => true
  end.

Definition column (col : string) (r : dict) : value :=
  from_option id VNone (r !! col).

Definition row_le (col : string) (r1 r2 : dict) : Prop :=
  value_le (column col r1) (column col r2) = true.

Definition row_ge (col : string) (r1 r2 : dict) : Prop :=
  row_le col r2 r1.

#[global] Instance row_le_dec col r1 r2 : Decision (row_le col r1 r2).
Proof. unfold row_le. apply _. Defined.

#[global] Instance row_ge_dec col r1 r2 : Decision (row_ge col r1 r2).
Proof. unfold row_ge. apply _. Defined.

(** [QuerySet.order_by(spec)]: ascending on the named column, descending
    when the name is prefixed with a minus sign. *)
Definition order_by (spec : string) (rows : list dict) : list dict :=
  match spec with
  | String a col =>
      if Ascii.eqb a "-" then merge_sort (row_ge col) rows
      else merge_sort (row_le spec) rows
  | EmptyString => rows
  end.

(** A many-to-many field with a [through] model, read from the side that
    declares it ([forward]) or from the target's side: the target rows
    joined with the rows of the join table that hold the key [k] of the
    starting side. *)
Definition through_rows (db : Database) (thr : ModelClass)
    (from_col to_col : string) (target : string) (k : Z) : list dict :=
  t ← filter (λ t, t !! from_col = Some (VInt k)) (table db (cls_name thr));
  filter (λ r, Some (VInt <$> row_pk target r) = Some (t !! to_col))
         (table db target).

(** The column of [thr] that points at the class named [name]: the first
    foreign key of [thr] whose target it is. *)
Definition fk_column_to (thr : ModelClass) (name : string) : option string :=
  (λ nf, attname nf.1 nf.2) <$>
  head (filter (λ nf, is_relation nf.2 = true ∧ rel_to thr nf.2 = Some name)
               (local_fields thr)).

Definition many_related (db : Database) (c : ModelClass) (fname : string)
    (forward : bool) (k : Z) : list dict :=
  match head (filter (λ nf, nf.1 = fname) (local_many_to_many c)) with
  | Some (_, f) =>
      match rel_to c f, field_through f ≫= get_model with
      | Some tgt, Some thr =>
          match fk_column_to thr (cls_name c), fk_column_to thr tgt with
          | Some src_col, Some tgt_col =>
              if forward
              then through_rows db thr src_col tgt_col tgt k
              else through_rows db thr tgt_col src_col (cls_name c) k
          | _, _ => []
          end
      | _, _ => []
      end
  | None => []
  end.

(** *** Deleting ([Collector]) *)

Definition objref : Type := string * Z.

(** The rows that hold the key [k] of the table [tgt] in a relational
    column; with [links] unset, the columns of parent links are passed
    over. *)
Definition referrers_through (links : bool) (db : Database) (tgt : string)
    (k : Z) : list objref :=
  c ← app_models;
  nf ← filter (λ nf, is_relation nf.2 = true ∧ rel_to c nf.2 = Some tgt ∧
                     (links = true ∨ field_parent_link nf.2 = false))
              (local_fields c);
  r ← filter (λ r, r !! attname nf.1 nf.2 = Some (VInt k))
             (table db (cls_name c));
  from_option (λ j, [(cls_name c, j)]) [] (row_pk (cls_name c) r).

Definition referrers : Database → string → Z → list objref :=
  referrers_through true.

(** The parent row of a row of a subclass. *)
Definition parent_ref (db : Database) (o : objref) : list objref :=
  match get_model o.1 with
  | Some c =>
      match parent c, parent_link_of c, find_row db o.1 o.2 with
      | Some p, Some (ln, lf), Some r =>
          from_option (λ j, [(cls_name p, j)]) [] (as_key (r !! attname ln lf))
      | _, _, _ => []
      end
  | None => []
  end.

(** [get_all_related_objects] of the class of a row, applied to the
    row: the rows that refer to it, through a parent link as well, and
    the rows that refer to the row's key through a relation that the
    class inherits from its base, which the parent links of other
    classes are not. *)
Definition related_objects (db : Database) (o : objref) : list objref :=
  referrers db o.1 o.2 ++
  match get_model o.1 ≫= parent with
  | Some p => referrers_through false db (cls_name p) o.2
  | None => []
  end.

(** [Collector.collect] with the default [on_delete=CASCADE]: the
    related objects of a collected row are collected, and theirs, until
    nothing new is found.  (The order in which the collector meets the
    rows is not kept.) *)
Fixpoint collect (fuel : nat) (db : Database) (seen : list objref)
    : list objref :=
  match fuel with
  | O => seen
  | S fuel' =>
      let found := seen ≫= related_objects db in
      let new := remove_dups (filter (λ o, o ∉ seen) found) in
      match new with
      | [] => seen
      | _ => collect fuel' db (seen ++ new)
      end
  end.

(** With a row of a subclass its parent row is collected, but not what
    is related to the parent row ([collect_related=False]). *)
Definition with_parents (db : Database) (objs : list objref) : list objref :=
  objs ++ (objs ≫= parent_ref db).

(** Every row of the application: what a collection can ever find. *)
Definition all_refs (db : Database) : list objref :=
  c ← app_models;
  r ← table db (cls_name c);
  from_option (λ j, [(cls_name c, j)]) [] (row_pk (cls_name c) r).

Definition is_dead (dead : list objref) (name : string) (r : dict) : bool :=
  match row_pk name r with
  | Some k => bool_decide ((name, k) ∈ dead)
  | None => false
  end.

Definition remove_rows (db : Database) (dead : list objref) : Database :=
  map_imap (λ name rows, Some (filter (λ r, is_dead dead name r = false) rows))
           db.

(** [Model.delete]: the collected rows are removed, [DELETE ... WHERE pk
    IN ...] table by table, which the engine has no reason to refuse. *)
Definition collected (db : Database) (c : ModelClass) (k : Z) : list objref :=
  with_parents db (collect (S (length (all_refs db))) db [(cls_name c, k)]).

Definition delete (db : Database) (c : ModelClass) (k : Z) : result Database :=
  Ok (remove_rows db (collected db c k)).

End orm.

(** ** [Place.__str__] *)

(** [self.placepart_set]: the parts whose [place] is this place. *)
Definition placepart_set (db : orm.Database) (self : dict) : list dict :=
  orm.related_manager db PlacePart "place" (orm.column "id" self).

(** [[p.name for p in parts]]; joining anything but strings raises
    [TypeError]. *)
Fixpoint names_of (parts : list dict) : result (list string) :=
  match parts with
  | [] => Ok []
  | p :: parts' =>
      match p !! "name" with
      | Some (VStr s) => l ← names_of parts'; Ok (s :: l)
      | _ => Raise TypeError
      end
  end.

Definition Place___str__ (db : orm.Database) (self : dict) : result string :=
  let orderby := "sequence_number" in
  let orderby :=
    if bool_decide (self !! "sort_order" = Some (VStr "D"))
    then "-" +:+ orderby else orderby in
  let ordered_place_parts := orm.order_by orderby (placepart_set db self) in
  names ← names_of ordered_place_parts;
  Ok (String.concat ", " names).

(** ** [source.higher_source_id] *)

(** The key a stored source holds as its higher source. *)
Definition Source_higher_source (db : orm.Database) (source : Z) : option Z :=
  r ← orm.find_row db "Source" source;
  orm.as_key (r !! "higher_source_id").

(** Following [higher_source] [n] times. *)
Fixpoint ascend (db : orm.Database) (n : nat) (source : Z) : option Z :=
  match n with
  | O => Some source
  | S n' => Source_higher_source db source ≫= ascend db n'
  end.

(** ** The two many-to-many accessors between projects and researchers *)

(** [project.researchers.all()], declared by [Project.researchers]. *)
Definition Project_researchers (db : orm.Database) (project : Z) : list dict :=
  orm.many_related db Project "researchers" true project.

(** [researcher.project_set.all()], the same relation read from the
    other side. *)
Definition Researcher_project_set (db : orm.Database) (researcher : Z)
    : list dict :=
  orm.many_related db Project "researchers" false researcher.

(** * The admin site: model forms and the add, change and delete views *)

Module contrib_admin.

Import django orm.

(** [fields_for_model]: the form has one field for every editable field
    of the model that is not the automatic key.  (A many-to-many field
    without a [through] model adds a multiple choice whose selection is
    kept in a join table of its own; those tables are left out.  A row
    of an inline is submitted as a form of the inline's model whose
    foreign key names the parent.) *)
Definition formfields (c : ModelClass) : list (string * Field) :=
  filter (λ nf, field_editable nf.2 = true ∧ is_auto nf.2 = false) (fields c).

Definition choice_keys (f : Field) : list string := (field_choices f).*1.

Definition is_text (f : Field) : bool :=
  match f with
  | CharField _ | TextField _ | FileField _ => true
  | _ => false
  end.

(** [MaxLengthValidator]: [len(value) > max_length]. *)
Definition too_long (f : Field) (s : string) : bool :=
  match field_max_length f with
  | Some n => bool_decide (n < len s)%nat
  | None => false
  end.

(** The value a form field returns for an empty submission that it
    accepts. *)
Definition empty_value (f : Field) : value :=
  match f with
  | CharField _ | TextField _ | FileField _ => VStr EmptyString
  | BooleanField _ => VBool false
  | _ => VNone
  end.

(** What the form field of a model field makes of a submitted value:
    the cleaned value, or a validation error.  A field is required
    unless the model field has [blank=True]; a relational field is a
    choice among the rows of its target. *)
Definition formfield_clean (db : Database) (c : ModelClass)
    (nf : string * Field) (v : value) : result value :=
  let (name, f) := nf in
  if empty_values v then
    if field_blank f then Ok (empty_value f)
    else Raise (ValidationError name "required")
  else if is_relation f then
    match v with
    | VInt k =>
        let tgt := from_option id EmptyString (rel_to c f) in
        if exists_pk db tgt k then Ok (VObj tgt (Some k))
        else Raise (ValidationError name "invalid_choice")
    | _ => Raise (ValidationError name "invalid_choice")
    end
  else if is_text f then
    match v with
    | VStr s =>
        if bool_decide (field_choices f ≠ [] ∧ s ∉ choice_keys f)
        then Raise (ValidationError name "invalid_choice")
        else if too_long f s then Raise (ValidationError name "max_length")
        else Ok v
    | _ => Raise (ValidationError name "invalid")
    end
  else
    match f, v with
    | IntegerField _, VInt _ => Ok v
    | PositiveSmallIntegerField _, VInt n =>
        if bool_decide (n < 0)%Z then Raise (ValidationError name "min_value")
        else Ok v
    | BooleanField _, VBool _ => Ok v
    | DateField _, VDate _ => Ok v
    | _, _ => Raise (ValidationError name "invalid")
    end.

(** [form.full_clean], [form.is_valid]: every field is cleaned from the
    submitted data; a field that is absent from the data is empty.  The
    form is valid when every field is, and its first error stands for
    its errors otherwise. *)
Fixpoint clean_form (db : Database) (c : ModelClass) (data : dict)
    (fs : list (string * Field)) : result (list (string * Field * value)) :=
  match fs with
  | [] => Ok []
  | nf :: fs' =>
      v ← formfield_clean db c nf (column nf.1 data);
      rest ← clean_form db c data fs';
      Ok ((nf, v) :: rest)
  end.

(** [form.cleaned_data] of a form, valid or not: the values of the
    fields that were accepted. *)
Fixpoint cleaned_data (db : Database) (c : ModelClass) (data : dict)
    (fs : list (string * Field)) : list (string * Field * value) :=
  match fs with
  | [] => []
  | nf :: fs' =>
      match formfield_clean db c nf (column nf.1 data) with
      | Ok v => (nf, v) :: cleaned_data db c data fs'
      | Raise _ => cleaned_data db c data fs'
      end
  end.

(** [construct_instance]: each cleaned value is stored on the instance
    by [Field.save_form_data], which assigns to the field's name. *)
Fixpoint construct_instance (c : ModelClass) (inst : dict)
    (cleaned : list (string * Field * value)) : result dict :=
  match cleaned with
  | [] => Ok inst
  | (name, f, v) :: cleaned' =>
      inst' ← (if is_relation f then related_set c name f inst v
               else Ok (setattr inst name v));
      construct_instance c inst' cleaned'
  end.

(** [Field.validate]. *)
Definition Field_validate (db : Database) (c : ModelClass)
    (nf : string * Field) (v : value) : result unit :=
  let (name, f) := nf in
  if negb (field_editable f) then Ok ()
  else if bool_decide (field_choices f ≠ []) && negb (empty_values v) then
    match v with
    | VStr s =>
        if bool_decide (s ∈ choice_keys f) then Ok ()
        else Raise (ValidationError name "invalid_choice")
    | _ => Raise (ValidationError name "invalid_choice")
    end
  else if bool_decide (v = VNone) && negb (field_null f)
  then Raise (ValidationError name "null")
  else if negb (field_blank f) && empty_values v
  then Raise (ValidationError name "blank")
  else if is_relation f then
    match v with
    | VNone => Ok ()
    | VInt k =>
        if exists_pk db (from_option id EmptyString (rel_to c f)) k then Ok ()
        else Raise (ValidationError name "invalid")
    | _ => Raise (ValidationError name "invalid")
    end
  else Ok ().

(** [Model.clean_fields], called with the fields that are not on the
    form excluded: a blank field holding an empty value is skipped, any
    other is validated. *)
Fixpoint clean_fields (db : Database) (c : ModelClass) (inst : dict)
    (fs : list (string * Field)) : result unit :=
  match fs with
  | [] => Ok ()
  | nf :: fs' =>
      let raw := column (attname nf.1 nf.2) inst in
      _ ← (if field_blank nf.2 && empty_values raw then Ok ()
           else Field_validate db c nf raw);
      clean_fields db c inst fs'
  end.

(** The part of the add and the change view that they share: the form
    is cleaned, the instance updated from it and validated
    ([_post_clean]), and then saved.  The instance is updated from the
    accepted fields also when others were refused, so that an
    assignment that raises does so whatever the form's errors; the
    form with its errors is what the view answers otherwise. *)
Definition submit (db : Database) (c : ModelClass) (inst : dict)
    (data : dict) : result Database :=
  match clean_form db c data (formfields c) with
  | Ok cleaned =>
      inst' ← construct_instance c inst cleaned;
      _ ← clean_fields db c inst' (formfields c);
      '(db', _) ← save db c inst';
      Ok db'
  | Raise e =>
      _ ← construct_instance c inst (cleaned_data db c data (formfields c));
      Raise e
  end.

(** [add_view]: the form starts from a fresh instance of the class. *)
Definition add_view (db : Database) (c : ModelClass) (data : dict)
    : result Database :=
  inst ← construct c [] ∅;
  submit db c inst data.

(** [ModelAdmin.get_object]: the stored instance, and [None] when there
    is no row under the key. *)
Definition get_object (db : Database) (c : ModelClass) (k : Z)
    : result (option dict) :=
  match get db c k with
  | Ok inst => Ok (Some inst)
  | Raise DoesNotExist => Ok None
  | Raise e => Raise e
  end.

(** [change_view]: the form starts from the stored instance; without
    one the view answers [Http404]. *)
Definition change_view (db : Database) (c : ModelClass) (k : Z) (data : dict)
    : result Database :=
  obj ← get_object db c k;
  match obj with
  | Some inst => submit db c inst data
  | None => Raise Http404
  end.

(** [delete_view]. *)
Definition delete_view (db : Database) (c : ModelClass) (k : Z)
    : result Database :=
  obj ← get_object db c k;
  match obj with
  | Some _ => delete db c k
  | None => Raise Http404
  end.

(** The stored states: from a database in which the application's
    tables are empty, whatever the three views produce. *)
Inductive reachable : Database → Prop :=
| reach_empty db :
    (∀ c, c ∈ app_models → table db (cls_name c) = []) → reachable db
| reach_add db c data db' :
    reachable db → c ∈ app_models →
    add_view db c data = Ok db' → reachable db'
| reach_change db c k data db' :
    reachable db → c ∈ app_models →
    change_view db c k data = Ok db' → reachable db'
| reach_delete db c k db' :
    reachable db → c ∈ app_models →
    delete_view db c k = Ok db' → reachable db'.

End contrib_admin.

(** * [researcher/admin.py] *)

Module admin.

Record TabularInline := {
  inline_class : string;
  model : ModelClass;
  extra : nat;
  fk_name : option string
}.

Record ModelAdmin := {
  admin_class : string;
  inlines : list TabularInline;
  filter_horizontal : list string
}.

(** Administrative *)

Definition ResearcherProjectInline : TabularInline :=
  {| inline_class := "ResearcherProjectInline";
     model := ResearcherProject; extra := 0; fk_name := None |}.

Definition ResearcherAdmin : ModelAdmin :=
  {| admin_class := "ResearcherAdmin";
     inlines := [ResearcherProjectInline]; filter_horizontal := [] |}.

Definition ProjectAdmin : ModelAdmin :=
  {| admin_class := "ProjectAdmin";
     inlines := [ResearcherProjectInline]; filter_horizontal := [] |}.

Definition SuretySchemePartInline : TabularInline :=
  {| inline_class := "SuretySchemePartInline";
     model := SuretySchemePart; extra := 1; fk_name := None |}.

Definition SuretySchemeAdmin : ModelAdmin :=
  {| admin_class := "SuretySchemeAdmin";
     inlines := [SuretySchemePartInline]; filter_horizontal := [] |}.

Definition ResearchObjectiveAdmin : ModelAdmin :=
  {| admin_class := "ResearchObjectiveAdmin";
     inlines := []; filter_horizontal := ["activities"] |}.

(** Evidence *)

Definition RepositorySourceInline : TabularInline :=
  {| inline_class := "RepositorySourceInline";
     model := RepositorySource; extra := 0; fk_name := None |}.

Definition RepositoryAdmin : ModelAdmin :=
  {| admin_class := "RepositoryAdmin";
     inlines := [RepositorySourceInline]; filter_horizontal := [] |}.

Definition CitationPartInline : TabularInline :=
  {| inline_class := "CitationPartInline";
     model := CitationPart; extra := 0; fk_name := None |}.

Definition SourceAdmin : ModelAdmin :=
  {| admin_class := "SourceAdmin";
     inlines := [RepositorySourceInline; CitationPartInline];
     filter_horizontal := [] |}.

(** Conclusions *)

Definition AssertionAssertionInline : TabularInline :=
  {| inline_class := "AssertionAssertionInline";
     model := AssertionAssertion; extra := 0;
     fk_name := Some "assertion_high" |}.

Definition AssertionAdmin : ModelAdmin :=
  {| admin_class := "AssertionAdmin";
     inlines := [AssertionAssertionInline]; filter_horizontal := [] |}.

Definition CharacteristicPartInline : TabularInline :=
  {| inline_class := "CharacteristicPartInline";
     model := CharacteristicPart; extra := 0; fk_name := None |}.

Definition CharacteristicAdmin : ModelAdmin :=
  {| admin_class := "CharacteristicAdmin";
     inlines := [CharacteristicPartInline]; filter_horizontal := [] |}.

Definition EventTypeRoleInline : TabularInline :=
  {| inline_class := "EventTypeRoleInline";
     model := EventTypeRole; extra := 0; fk_name := None |}.

Definition EventTypeAdmin : ModelAdmin :=
  {| admin_class := "EventTypeAdmin";
     inlines := [EventTypeRoleInline]; filter_horizontal := [] |}.

Definition GroupTypeRoleInline : TabularInline :=
  {| inline_class := "GroupTypeRoleInline";
     model := GroupTypeRole; extra := 0; fk_name := None |}.

Definition GroupTypeAdmin : ModelAdmin :=
  {| admin_class := "GroupTypeAdmin";
     inlines := [GroupTypeRoleInline]; filter_horizontal := [] |}.

Definition PlacePartInline : TabularInline :=
  {| inline_class := "PlacePartInline";
     model := PlacePart; extra := 0; fk_name := None |}.

Definition PlaceAdmin : ModelAdmin :=
  {| admin_class := "PlaceAdmin";
     inlines := [PlacePartInline]; filter_horizontal := [] |}.

(** [ADMIN_SITE.register(model, admin_class)], in the order of the
    calls; a model registered alone gets the plain [ModelAdmin]. *)
Definition default_admin : ModelAdmin :=
  {| admin_class := "ModelAdmin"; inlines := []; filter_horizontal := [] |}.

Definition ADMIN_SITE : list (ModelClass * ModelAdmin) :=
  [ (Researcher, ResearcherAdmin);
    (Project, ProjectAdmin);
    (SuretyScheme, SuretySchemeAdmin);
    (AdministrativeTask, default_admin);
    (Search, default_admin);
    (ResearchObjective, ResearchObjectiveAdmin);
    (SourceGroup, default_admin);
    (Source, SourceAdmin);
    (Repository, RepositoryAdmin);
    (Representation, default_admin);
    (RepresentationType, default_admin);
    (CitationPartType, default_admin);
    (Assertion, AssertionAdmin);
    (Characteristic, CharacteristicAdmin);
    (CharacteristicPartType, default_admin);
    (Event, default_admin);
    (EventType, EventTypeAdmin);
    (Group, default_admin);
    (GroupType, GroupTypeAdmin);
    (Persona, default_admin);
    (Place, PlaceAdmin);
    (PlacePartType, default_admin) ].

(** The admin class a model's forms are built from. *)
Definition admin_of (name : string) : option ModelAdmin :=
  snd <$> head (filter (λ ma, cls_name ma.1 = name) ADMIN_SITE).

(** [_get_foreign_key]: the rows of an inline belong to the parent
    through the inline model's foreign key to the parent's class, which
    has to be the only one unless [fk_name] picks one. *)
Definition inline_foreign_key (parent : ModelClass) (i : TabularInline)
    : option string :=
  let fks := filter (λ nf, django.is_relation nf.2 = true ∧
                           django.rel_to (model i) nf.2 = Some (cls_name parent))
                    (django.local_fields (model i)) in
  match fk_name i with
  | Some n => fst <$> head (filter (λ nf, nf.1 = n) fks)
  | None => match fks with [nf] => Some nf.1 | _ => None end
  end.

(** The models whose rows are edited inline on the form of [name]. *)
Definition inline_models (name : string) : list string :=
  from_option (λ a, (λ i, cls_name (model i)) <$> inlines a) [] (admin_of name).

End admin.

(** * Properties of stored states *)

Module stored.

Import django orm.

(** The columns of a class's own table. *)
Definition columns (c : ModelClass) : list string :=
  (λ nf, attname nf.1 nf.2) <$> local_fields c.

(** Every row of a table has exactly the columns of its class and an
    integer key. *)
Definition rows_have_columns (db : Database) : Prop :=
  ∀ c r, c ∈ app_models → r ∈ table db (cls_name c) →
    dom r = list_to_set (columns c) ∧ is_Some (row_pk (cls_name c) r).

(** What a relational column may hold: the key of a row of the target
    table, or [NULL] when the field is nullable. *)
Definition refers (db : Database) (tgt : string) (nullable : bool)
    (v : option value) : Prop :=
  (nullable = true ∧ v = Some VNone) ∨
  (∃ k, v = Some (VInt k) ∧ k ∈ pks db tgt).

Definition referential_integrity (db : Database) : Prop :=
  ∀ c n f r, c ∈ app_models → (n, f) ∈ local_fields c →
    is_relation f = true → r ∈ table db (cls_name c) →
    refers db (from_option id EmptyString (rel_to c f)) (field_null f)
           (r !! attname n f).

(** A column whose field is editable, required and restricted to
    choices holds the key of one of the choices. *)
Definition choices_respected (db : Database) : Prop :=
  ∀ c n f r, c ∈ app_models → (n, f) ∈ local_fields c →
    field_choices f ≠ [] → field_editable f = true → field_blank f = false →
    r ∈ table db (cls_name c) →
    ∃ s, r !! attname n f = Some (VStr s) ∧ s ∈ (field_choices f).*1.

(** The attributes [Model.save] assigns itself: the key, and for a
    subclass the parent's key and the parent link. *)
Definition key_attrs (c : ModelClass) : list string :=
  pk_attname c ::
  match parent c, parent_link_of c with
  | Some p, Some (ln, lf) => [pk_attname p; attname ln lf]
  | _, _ => []
  end.

End stored.

(** * Researchers on projects *)

(** The form of the join entity, as the inline rows of a researcher's
    or a project's form submit it. *)
Definition ResearcherProject_form (researcher project : Z) (role : string)
    : dict :=
  list_to_map [("researcher", VInt researcher); ("project", VInt project);
               ("role", VStr role)].

(** Adding links one after the other. *)
Fixpoint add_links (db : orm.Database) (links : list (Z * Z * string))
    : result orm.Database :=
  match links with
  | [] => Ok db
  | (r, p, role) :: links' =>
      db' ← contrib_admin.add_view db ResearcherProject
              (ResearcherProject_form r p role);
      add_links db' links'
  end.

(** * Sample data *)

Module examples.

Import django orm contrib_admin.

Definition row (l : list (string * value)) : dict := list_to_map l.

Definition from_result (r : result Database) : Database :=
  match r with
  | Ok db => db
  | Raise _ => ∅
  end.

(** A site with one user account and nothing entered yet. *)
Definition db0 : Database :=
  {[ "settings.AUTH_USER_MODEL" := [row [("id", VInt 1)]] ]}.

(** The forms submitted, one after the other: a place with the parts
    "County" (2) and "State" (1), a researcher who lives there, a
    project, and the researcher's part in the project. *)
Definition place_form (sort_order : string) : dict :=
  row [("existence_date_start", VDate 1); ("existence_date_end", VDate 2);
       ("sort_order", VStr sort_order)].

Definition db1 : Database := from_result (add_view db0 Place (place_form "A")).

Definition db2 : Database :=
  from_result (add_view db1 PlacePartType (row [("name", VStr "County")])).

Definition db3 : Database :=
  from_result (add_view db2 PlacePartType (row [("name", VStr "State")])).

Definition db4 : Database :=
  from_result (add_view db3 PlacePart
    (row [("place", VInt 1); ("place_part_type", VInt 1);
          ("name", VStr "County"); ("sequence_number", VInt 2)])).

Definition db5 : Database :=
  from_result (add_view db4 PlacePart
    (row [("place", VInt 1); ("place_part_type", VInt 2);
          ("name", VStr "State"); ("sequence_number", VInt 1)])).

Definition db6 : Database :=
  from_result (add_view db5 Researcher
    (row [("name", VStr "Ada"); ("address", VInt 1); ("user", VInt 1)])).

Definition db7 : Database :=
  from_result (add_view db6 Project (row [("name", VStr "Lovelace family")])).

Definition db8 : Database :=
  from_result (add_links db7 [(1, 1, "lead")]%Z).

(** The researcher's part in a project, as an instance handed to [save]
    that names a researcher who is not there; the row it leaves, and
    the state. *)
Definition dangling_link : dict :=
  row [("researcher_id", VInt 7); ("project_id", VInt 1);
       ("role", VStr "lead")].

Definition dangling_row : dict :=
  row [("id", VInt 2); ("researcher_id", VInt 7); ("project_id", VInt 1);
       ("role", VStr "lead")].

Definition db_dangling : Database :=
  from_result (fst <$> save db8 ResearcherProject dangling_link).

(** A second account, a second researcher and a second project; then
    four links entered one after the other, two of them between the
    same researcher and project. *)
Definition db_team : Database :=
  from_result (
    db ← add_view
           (<["settings.AUTH_USER_MODEL" :=
                [row [("id", VInt 1)]; row [("id", VInt 2)]]]> db7)
           Researcher
           (row [("name", VStr "Charles"); ("address", VInt 1);
                 ("user", VInt 2)]);
    add_view db Project (row [("name", VStr "Difference engine")])).

Definition team_links : list (Z * Z * string) :=
  [(1, 1, "lead"); (2, 1, "reader"); (2, 2, "lead"); (1, 1, "archivist")]%Z.

Definition db_linked : Database := from_result (add_links db_team team_links).

(** The rows these forms leave behind for the place and its parts. *)
Definition place_row (sort_order : string) : dict :=
  row [("id", VInt 1); ("existence_date_start", VDate 1);
       ("existence_date_end", VDate 2); ("sort_order", VStr sort_order)].

Definition county_row : dict :=
  row [("id", VInt 1); ("place_part_type_id", VInt 1); ("place_id", VInt 1);
       ("name", VStr "County"); ("sequence_number", VInt 2)].

Definition state_row : dict :=
  row [("id", VInt 2); ("place_part_type_id", VInt 2); ("place_id", VInt 1);
       ("name", VStr "State"); ("sequence_number", VInt 1)].

(** The same place with its sort order changed on the change form. *)
Definition db8_with (sort_order : string) : Database :=
  from_result (change_view db8 Place 1 (place_form sort_order)).

(** A task entered on the add form of [AdministrativeTask]. *)
Definition task_form : dict :=
  row [("researcher", VInt 1); ("scheduled_date", VDate 3);
       ("completed_date", VDate 4); ("status", VStr "open");
       ("description", VStr "order film"); ("priority", VInt 1)].

Definition db9 : Database :=
  from_result (add_view db8 AdministrativeTask task_form).

(** A source form with every field filled in but [higher_source]. *)
Definition source_form : dict :=
  row [("subject_place", VInt 1); ("jurisdiction_place", VInt 1);
       ("researcher", VInt 1); ("subject_date_start", VDate 1);
       ("subject_date_end", VDate 2)].

(** A source that names itself as its higher source, as an instance
    handed to [save] with its key chosen. *)
Definition own_parent : dict :=
  row [("id", VInt 1); ("higher_source_id", VInt 1);
       ("subject_place_id", VInt 1); ("jurisdiction_place_id", VInt 1);
       ("researcher_id", VInt 1); ("subject_date_start", VDate 1);
       ("subject_date_end", VDate 2); ("comment", VStr EmptyString)].

Definition db_source : Database :=
  from_result (fst <$> save db8 Source own_parent).

(** A second source under the first, entered on the add form; then the
    first source put under the second on the change form. *)
Definition db_sources : Database :=
  from_result (
    db ← add_view db_source Source (<["higher_source" := VInt 1]> source_form);
    change_view db Source 1 (<["higher_source" := VInt 2]> source_form)).

(** A representation of that source, as an instance that also carries a
    [content] attribute. *)
Definition db_rtype : Database :=
  from_result (add_view db_source RepresentationType (row [("name", VStr "Text")])).

Definition excerpt : dict :=
  row [("source_id", VInt 1); ("representation_type_id", VInt 1);
       ("physical_file_code", VStr "box 7"); ("medium", VStr "paper");
       ("content", VStr "In the name of God, amen");
       ("comments", VStr EmptyString)].

(** An assertion about that source, as an instance that also carries
    subject attributes. *)
Definition db_surety : Database :=
  from_result (
    db ← add_view db_rtype SuretyScheme (row [("name", VStr "1 to 3")]);
    add_view db SuretySchemePart
      (row [("surety_scheme", VInt 1); ("name", VStr "1");
            ("sequence_number", VInt 0)])).

Definition conclusion : dict :=
  row [("surety_scheme_part_id", VInt 1); ("researcher_id", VInt 1);
       ("source_id", VInt 1); ("subject1_type", VStr "P");
       ("subject1", VInt 1); ("subject2_type", VStr "E");
       ("subject2", VInt 2); ("rationale", VStr "named in the will");
       ("disproved", VBool false)].

End examples.


(** * More properties of stored states *)

Module invariants.

Import django orm contrib_admin.

(** What [Field.save_form_data] leaves in the attribute of a field for
    a cleaned value: the value itself, and for a relational field the
    key of the chosen object. *)
Definition form_value (f : Field) (v : value) : value :=
  if is_relation f then
    match v with
    | VObj _ pk => from_option VInt VNone pk
    | _ => VNone
    end
  else v.

(** A column value of the kind its field stores: a key for an automatic
    or relational field, a string within [max_length] for a text field,
    an integer, a non-negative integer, a boolean, a date; [NULL] only
    where the field is nullable. *)
Definition well_typed (f : Field) (v : value) : bool :=
  match v with
  | VNone => field_null f
  | VInt n =>
      match f with
      | AutoField _ | IntegerField _ | ForeignKey _ _ | OneToOneField _ _ =>
          true
      | PositiveSmallIntegerField _ => bool_decide (0 ≤ n)%Z
      | _ => false
      end
  | VStr s => is_text f && negb (too_long f s)
  | VBool _ => match f with BooleanField _ => true | _ => false end
  | VDate _ => match f with DateField _ => true | _ => false end
  | VObj _ _ => false
  end.

(** Every column of every row holds a value of the kind of its field. *)
Definition typed_rows (db : Database) : Prop :=
  ∀ c n f r, c ∈ app_models → (n, f) ∈ local_fields c →
    r ∈ table db (cls_name c) →
    well_typed f (column (attname n f) r) = true.

(** No two rows of a table hold the same value in a unique column (the
    primary key, or a one-to-one field), and none holds [NULL] there. *)
Definition unique_columns (db : Database) : Prop :=
  ∀ c n f, c ∈ app_models → (n, f) ∈ local_fields c →
    field_unique f = true →
    NoDup (column (attname n f) <$> table db (cls_name c)) ∧
    Forall (λ r, column (attname n f) r ≠ VNone) (table db (cls_name c)).

(** A column whose field is on the forms and is not declared
    [blank=True] is filled in: it holds neither [NULL] nor the empty
    string. *)
Definition required_filled (db : Database) : Prop :=
  ∀ c n f r, c ∈ app_models → (n, f) ∈ local_fields c →
    field_editable f = true → is_auto f = false → field_blank f = false →
    r ∈ table db (cls_name c) →
    empty_values (column (attname n f) r) = false.



(** No row of a base has rows of two subclasses on it. *)
Definition one_child (db : Database) : Prop :=
  ∀ c1 c2 p r1 r2, c1 ∈ app_models → c2 ∈ app_models →
    parent c1 = Some p → parent c2 = Some p →
    r1 ∈ table db (cls_name c1) → r2 ∈ table db (cls_name c2) →
    row_pk (cls_name c1) r1 = row_pk (cls_name c2) r2 → c1 = c2.

End invariants.

(** * [str(obj)] *)

(** What a call of [str] on an instance comes to: a string, an
    exception of the kinds above, or [AttributeError]. *)
Inductive str_result :=
| Str (s : string)
| StrRaise (e : exn)
| AttributeError (name : string).

(** The attribute that the [__str__] method of each class returns;
    [Place.__str__] is the one method that computes its result. *)
Definition STR_RETURNS : list (string * string) :=
  [ ("Researcher", "name"); ("Project", "name"); ("SuretyScheme", "name");
    ("SuretySchemePart", "name"); ("Activity", "description");
    ("Search", "searched_for"); ("ResearchObjective", "name");
    ("SourceGroup", "name");
    ("Repository", "name"); ("RepresentationType", "name");
    ("CitationPartType", "name"); ("CitationPart", "value");
    ("Persona", "name"); ("Event", "name"); ("EventType", "name");
    ("EventTypeRole", "name"); ("CharacteristicPart", "name");
    ("CharacteristicPartType", "name"); ("Group", "name");
    ("GroupType", "name"); ("GroupTypeRole", "name");
    ("PlacePart", "name"); ("PlacePartType", "name") ].

(** The class whose body provides a method for the instances of [c]:
    [c] itself, else its base. *)
Definition defining_class (c : ModelClass) (method : string)
    : option ModelClass :=
  if bool_decide ((method, ADef) ∈ cls_body c) then Some c
  else match django.parent c with
       | Some p =>
           if bool_decide ((method, ADef) ∈ cls_body p) then Some p else None
       | None => None
       end.

(** [Model.__str__], for the classes that define none. *)
Definition Model___str__ (c : ModelClass) : string :=
  cls_name c +:+ " object".

(** [str(self)] for an instance [self] of [c]: the class's [__str__]
    is called, and what it returns has to be a string.  (Every class
    that defines [__str__] is [Place] or is listed in [STR_RETURNS],
    see [str_methods_listed].) *)
Definition str (db : orm.Database) (c : ModelClass) (self : dict)
    : str_result :=
  match defining_class c "__str__" with
  | None => Str (Model___str__ c)
  | Some d =>
      if bool_decide (cls_name d = "Place") then
        match Place___str__ db self with
        | Ok s => Str s
        | Raise e => StrRaise e
        end
      else
        match snd <$> head (filter (λ ca, ca.1 = cls_name d) STR_RETURNS) with
        | Some a =>
            match self !! a with
            | Some (VStr s) => Str s
            | Some _ => StrRaise TypeError
            | None => AttributeError a
            end
        | None => Str (Model___str__ c)
        end
  end.

(** * Proofs *)

Import django orm contrib_admin stored invariants.

(** * Results *)

Lemma bind_Ok {A B} (m : result A) (f : A → result B) (b : B) :
  m ≫= f = Ok b → ∃ a, m = Ok a ∧ f a = Ok b.
Proof. destruct m as [a|e]; simpl; [eauto | discriminate]. Qed.

Lemma raises_bind_l {A B} (m : result A) (f : A → result B) :
  raises m → raises (m ≫= f).
Proof. intros [e ->]. by exists e. Qed.

Lemma raises_bind_r {A B} (m : result A) (f : A → result B) :
  (∀ a, m = Ok a → raises (f a)) → raises (m ≫= f).
Proof. destruct m as [a|e]; simpl; [eauto | by exists e]. Qed.

Lemma raises_not_Ok {A} (m : result A) (a : A) : raises m → m ≠ Ok a.
Proof. intros [e ->]. discriminate. Qed.

Lemma Raise_raises {A} (e : exn) : raises (@Raise A e).
Proof. by exists e. Qed.

Lemma result_cases {A} (m : result A) : returns m ∨ raises m.
Proof. destruct m; [left | right]; eexists; eauto. Qed.

Ltac inv_bind H :=
  repeat match type of H with
  | _ ≫= _ = Ok _ =>
      let a := fresh "a" in let Ha := fresh "H" a in
      apply bind_Ok in H as (a & Ha & H)
  | Ok _ = Ok _ => injection H as H
  | Raise _ = Ok _ => discriminate H
  end.

(** * Tables *)

Import django orm contrib_admin.

Lemma table_insert (db : Database) name rows :
  table (<[name := rows]> db) name = rows.
Proof. unfold table. by rewrite lookup_insert_eq. Qed.

Lemma table_insert_ne (db : Database) name name' rows :
  name ≠ name' → table (<[name := rows]> db) name' = table db name'.
Proof. intros. unfold table. by rewrite lookup_insert_ne. Qed.

Lemma elem_of_pks (db : Database) name k :
  k ∈ pks db name ↔ ∃ r, r ∈ table db name ∧ row_pk name r = Some k.
Proof. unfold pks. by rewrite list_elem_of_omap. Qed.

Lemma exists_pk_true (db : Database) name k :
  exists_pk db name k = true ↔ k ∈ pks db name.
Proof. unfold exists_pk. by rewrite bool_decide_eq_true. Qed.

(** * The schema, checked once *)

Lemma get_model_app c : c ∈ app_models → get_model (cls_name c) = Some c.
Proof.
  revert c. apply Forall_forall.
  apply (bool_decide_unpack _). by vm_compute.
Qed.

Lemma get_model_Some name c : get_model name = Some c → c ∈ app_models ∧ cls_name c = name.
Proof.
  unfold get_model. intros H. apply head_Some_elem_of in H.
  by apply list_elem_of_filter in H as [? ?].
Qed.

Lemma pk_column_app c : c ∈ app_models → pk_column (cls_name c) = pk_attname c.
Proof. intros H. unfold pk_column. by rewrite get_model_app. Qed.

(** Every subclass declares its parent link, which is its primary key
    and points at its base. *)
Lemma subclasses_declare_link c p :
  c ∈ app_models → parent c = Some p →
  ∃ ln lf, parent_link_of c = Some (ln, lf) ∧ field_primary_key lf = true ∧
           rel_to c lf = Some (cls_name p).
Proof.
  intros Hc Hp.
  assert (Forall (λ c,
            (p ← parent c; nf ← parent_link_of c;
             Some (field_primary_key nf.2,
                   bool_decide (rel_to c nf.2 = Some (cls_name p))))
            = (parent c ≫= λ _, Some (true, true))) app_models) as H.
  { apply (bool_decide_unpack _). vm_compute. exact I. }
  rewrite Forall_forall in H. specialize (H c Hc). rewrite Hp in H. simpl in H.
  destruct (parent_link_of c) as [[ln lf]|]; [|discriminate].
  simpl in H. injection H as H1 H2. apply bool_decide_eq_true in H2.
  by exists ln, lf.
Qed.

(** No parent has a parent: the hierarchy is two levels deep. *)
Lemma parents_are_roots c p :
  c ∈ app_models → parent c = Some p → parent p = None.
Proof.
  intros Hc Hp.
  assert (Forall (λ c, parent c ≫= parent = None) app_models) as H.
  { apply (bool_decide_unpack _). vm_compute. exact I. }
  rewrite Forall_forall in H. specialize (H c Hc). by rewrite Hp in H.
Qed.

(** * Rows *)

Lemma bool_decide_ext_if {A} (P Q : Prop) `{Decision P, Decision Q} (x y : A) :
  (P ↔ Q) → (if bool_decide P then x else y) = (if bool_decide Q then x else y).
Proof. intros HPQ. by rewrite (bool_decide_ext P Q HPQ). Qed.

Lemma row_of_lookup fs inst a :
  row_of fs inst !! a =
  if bool_decide (a ∈ (λ nf, attname nf.1 nf.2) <$> fs)
  then Some (column a inst) else None.
Proof.
  unfold row_of. induction fs as [|[n f] fs IH]; simpl.
  - by rewrite lookup_empty.
  - rewrite lookup_insert. destruct (decide (attname n f = a)) as [<-|Hne].
    + rewrite bool_decide_eq_true_2; [done | left].
    + rewrite IH. apply bool_decide_ext_if. rewrite elem_of_cons.
      split; [by right|]. by intros [?|?].
Qed.

Lemma row_of_dom fs inst :
  dom (row_of fs inst) = list_to_set ((λ nf, attname nf.1 nf.2) <$> fs).
Proof.
  apply set_eq. intros a.
  rewrite elem_of_dom, row_of_lookup, elem_of_list_to_set.
  case_bool_decide; split; intros Hx; try done.
Qed.

(** The schema: every class keeps its key in a column of its own. *)
Lemma pk_is_column c : c ∈ app_models → pk_attname c ∈ columns c.
Proof.
  revert c. apply Forall_forall.
  apply (bool_decide_unpack _). by vm_compute.
Qed.

Lemma stored_row_dom c k inst :
  c ∈ app_models →
  dom (<[pk_attname c := VInt k]> (row_of (local_fields c) inst))
  = list_to_set (columns c).
Proof.
  intros Hc. rewrite dom_insert_L, row_of_dom.
  pose proof (pk_is_column c Hc) as Hpk. unfold columns in *.
  apply set_eq. intros a. rewrite elem_of_union, elem_of_singleton.
  rewrite elem_of_list_to_set. split; [|by right]. by intros [->|?].
Qed.

Lemma stored_row_pk c k inst :
  c ∈ app_models →
  row_pk (cls_name c) (<[pk_attname c := VInt k]> (row_of (local_fields c) inst))
  = Some k.
Proof.
  intros Hc. unfold row_pk. rewrite pk_column_app by done.
  by rewrite lookup_insert_eq.
Qed.

Lemma columns_ok_Forall r fs :
  columns_ok r fs = Ok () → Forall (λ nf, column_ok r nf = Ok ()) fs.
Proof.
  induction fs as [|nf fs IH]; simpl; [constructor|].
  intros H. inv_bind H. destruct a. constructor; auto.
Qed.

(** * Writing one row *)

Lemma db_insert_spec db c inst db' k :
  db_insert db c inst = Ok (db', k) →
  let r := <[pk_attname c := VInt k]> (row_of (local_fields c) inst) in
  db' = <[cls_name c := table db (cls_name c) ++ [r]]> db ∧
  columns_ok r (local_fields c) = Ok ().
Proof.
  unfold db_insert. intros H. inv_bind H. simplify_eq. by destruct a1.
Qed.

Lemma db_update_spec db c j inst db' k :
  db_update db c j inst = Ok (db', k) →
  let r := <[pk_attname c := VInt k]> (row_of (local_fields c) inst) in
  k = j ∧
  db' = <[cls_name c := (λ o, if bool_decide (row_pk (cls_name c) o = Some k)
                              then r else o) <$> table db (cls_name c)]> db ∧
  columns_ok r (local_fields c) = Ok ().
Proof.
  unfold db_update. intros H. inv_bind H. simplify_eq. by destruct a0.
Qed.

Lemma save_table_spec db c inst db' k :
  c ∈ app_models → save_table db c inst = Ok (db', k) →
  let r := <[pk_attname c := VInt k]> (row_of (local_fields c) inst) in
  (∀ T, T ≠ cls_name c → table db' T = table db T) ∧
  (∀ x, x ∈ table db' (cls_name c) → x ∈ table db (cls_name c) ∨ x = r) ∧
  (∀ T j, j ∈ pks db T → j ∈ pks db' T) ∧
  columns_ok r (local_fields c) = Ok ().
Proof.
  intros Hc H r.
  assert (Hpk : row_pk (cls_name c) r = Some k) by by apply stored_row_pk.
  assert (db_insert db c inst = Ok (db', k) ∨
          ∃ j, db_update db c j inst = Ok (db', k)) as [Hi|[j Hu]].
  { unfold save_table in H. repeat case_match; eauto. }
  - apply db_insert_spec in Hi as [-> Hok]. fold r in Hok |- *.
    repeat split; [| | |done].
    + intros T HT. by rewrite table_insert_ne.
    + intros x. rewrite table_insert, elem_of_app, list_elem_of_singleton. tauto.
    + intros T j. rewrite !elem_of_pks. intros (x & Hx & Hj).
      exists x. split; [|done].
      destruct (decide (cls_name c = T)) as [<-|HT].
      * rewrite table_insert, elem_of_app. by left.
      * by rewrite table_insert_ne.
  - apply db_update_spec in Hu as (-> & -> & Hok). fold r in Hok |- *.
    repeat split; [| | |done].
    + intros T HT. by rewrite table_insert_ne.
    + intros x. rewrite table_insert, list_elem_of_fmap.
      intros (o & -> & Ho). case_bool_decide; auto.
    + intros T k. rewrite !elem_of_pks. intros (x & Hx & Hk).
      destruct (decide (cls_name c = T)) as [<-|HT].
      * rewrite table_insert.
        destruct (decide (k = j)) as [->|Hne].
        -- exists r. split; [|done]. apply list_elem_of_fmap.
           exists x. by rewrite bool_decide_eq_true_2.
        -- exists x. split; [|done]. apply list_elem_of_fmap.
           exists x. rewrite bool_decide_eq_false_2; [done|congruence].
      * exists x. by rewrite table_insert_ne.
Qed.

(** * What a write preserves *)

Lemma app_model_by_name c c' :
  c ∈ app_models → c' ∈ app_models → cls_name c = cls_name c' → c = c'.
Proof.
  intros Hc Hc' Heq. apply get_model_app in Hc, Hc'.
  rewrite Heq in Hc. congruence.
Qed.

Lemma parent_app c p : parent c = Some p → p ∈ app_models.
Proof. intros H. by apply get_model_Some in H as [? _]. Qed.

Lemma refers_mono db db' tgt nullable v :
  (∀ T j, j ∈ pks db T → j ∈ pks db' T) →
  refers db tgt nullable v → refers db' tgt nullable v.
Proof. intros Hm [?|(k & ? & ?)]; [by left | right; eauto]. Qed.

Lemma save_table_columns db c inst db' k :
  c ∈ app_models → save_table db c inst = Ok (db', k) →
  rows_have_columns db → rows_have_columns db'.
Proof.
  intros Hc H Hinv c0 x Hc0 Hx.
  apply save_table_spec in H as (Hframe & Hrows & _ & _); [|done].
  destruct (decide (cls_name c0 = cls_name c)) as [Heq|Hne].
  - assert (c0 = c) as -> by by apply app_model_by_name.
    apply Hrows in Hx as [Hx| ->]; [by apply Hinv|].
    split; [by apply stored_row_dom|]. by rewrite stored_row_pk.
  - rewrite Hframe in Hx by done. by apply Hinv.
Qed.

(** * [Model.save]: at most two rows, the parent's first *)

Lemma save_cases db c inst db' inst' :
  c ∈ app_models → save db c inst = Ok (db', inst') →
  (∃ k, save_table db c inst = Ok (db', k)) ∨
  (∃ p i0 i1 db1 k k',
      parent c = Some p ∧ save_table db p i0 = Ok (db1, k) ∧
      save_table db1 c i1 = Ok (db', k')).
Proof.
  intros Hc. unfold save.
  destruct (parent c) as [p|] eqn:Hp; [destruct (parent_link_of c) as [[ln lf]|]|];
    intros H; inv_bind H.
  - destruct a as [db1 k]. inv_bind H. destruct a as [db2 k']. inv_bind H.
    simplify_eq. right. eauto 10.
  - destruct a as [db1 k]. inv_bind H. simplify_eq. left. eauto.
  - destruct a as [db1 k]. inv_bind H. simplify_eq. left. eauto.
Qed.

Lemma save_columns db c inst db' inst' :
  c ∈ app_models → save db c inst = Ok (db', inst') →
  rows_have_columns db → rows_have_columns db'.
Proof.
  intros Hc H Hinv.
  apply (save_cases _ _ _ _ _ Hc) in H
    as [[k H]|(p & i0 & i1 & db1 & k & k' & Hp & H1 & H2)].
  - by eapply save_table_columns.
  - eapply save_table_columns; [done..|].
    eapply save_table_columns; [|done..]. by eapply parent_app.
Qed.

(** * Deleting *)

Lemma table_remove_rows db dead T :
  table (remove_rows db dead) T
  = filter (λ r, is_dead dead T r = false) (table db T).
Proof.
  unfold table, remove_rows. rewrite map_lookup_imap.
  by destruct (db !! T).
Qed.

Lemma elem_of_referrers_through links db tgt k c n f r j :
  c ∈ app_models → (n, f) ∈ local_fields c → is_relation f = true →
  rel_to c f = Some tgt → links = true ∨ field_parent_link f = false →
  r ∈ table db (cls_name c) →
  r !! attname n f = Some (VInt k) → row_pk (cls_name c) r = Some j →
  (cls_name c, j) ∈ referrers_through links db tgt k.
Proof.
  intros Hc Hf Hrel Hto Hl Hr Hk Hj. unfold referrers_through.
  apply list_elem_of_bind. exists c. split; [|done].
  apply list_elem_of_bind. exists (n, f). split.
  2:{ apply list_elem_of_filter. done. }
  apply list_elem_of_bind. exists r. split.
  2:{ apply list_elem_of_filter. done. }
  simpl. rewrite Hj. simpl. by left.
Qed.

Lemma elem_of_referrers db tgt k c n f r j :
  c ∈ app_models → (n, f) ∈ local_fields c → is_relation f = true →
  rel_to c f = Some tgt → r ∈ table db (cls_name c) →
  r !! attname n f = Some (VInt k) → row_pk (cls_name c) r = Some j →
  (cls_name c, j) ∈ referrers db tgt k.
Proof.
  intros. eapply elem_of_referrers_through; eauto.
Qed.

Lemma remove_rows_columns db dead :
  rows_have_columns db → rows_have_columns (remove_rows db dead).
Proof.
  intros Hinv c r Hc.
  rewrite table_remove_rows, list_elem_of_filter. intros [_ Hr]. by apply Hinv.
Qed.

Lemma rel_to_relation c f : is_relation f = true → is_Some (rel_to c f).
Proof. destruct f; simpl; try discriminate; eauto. Qed.

(** * The three views *)

Lemma submit_Ok db c inst data db' :
  submit db c inst data = Ok db' →
  ∃ cleaned inst' inst'',
    clean_form db c data (formfields c) = Ok cleaned ∧
    construct_instance c inst cleaned = Ok inst' ∧
    clean_fields db c inst' (formfields c) = Ok () ∧
    save db c inst' = Ok (db', inst'').
Proof.
  unfold submit. destruct (clean_form _ _ _ _) as [cleaned|e]; simpl.
  - intros H. inv_bind H. destruct a0, a1. inv_bind H.
    simplify_eq. eauto 10.
  - intros H. by inv_bind H.
Qed.

Lemma add_view_Ok db c data db' :
  add_view db c data = Ok db' →
  ∃ inst, construct c [] ∅ = Ok inst ∧ submit db c inst data = Ok db'.
Proof. unfold add_view. intros H. inv_bind H. eauto. Qed.

Lemma change_view_Ok db c k data db' :
  change_view db c k data = Ok db' →
  ∃ inst, get db c k = Ok inst ∧ submit db c inst data = Ok db'.
Proof.
  unfold change_view, get_object. intros H. inv_bind H.
  destruct (get db c k) as [inst|[]]; simplify_eq/=; eauto.
Qed.

Lemma delete_view_Ok db c k db' :
  delete_view db c k = Ok db' →
  (∃ inst, get db c k = Ok inst) ∧ db' = remove_rows db (collected db c k).
Proof.
  unfold delete_view, get_object, delete. intros H. inv_bind H.
  destruct (get db c k) as [inst|[]]; simplify_eq/=; eauto.
Qed.

Lemma empty_columns db :
  (∀ c, c ∈ app_models → table db (cls_name c) = []) → rows_have_columns db.
Proof. intros H c r Hc. rewrite H by done. by intros ?%elem_of_nil. Qed.

Lemma empty_referential db :
  (∀ c, c ∈ app_models → table db (cls_name c) = []) → referential_integrity db.
Proof. intros H c n f r Hc _ _. rewrite H by done. by intros ?%elem_of_nil. Qed.

Lemma reachable_columns db : reachable db → rows_have_columns db.
Proof.
  induction 1 as [db H|db c data db' _ IH Hc H|db c k data db' _ IH Hc H
                 |db c k db' _ IH Hc H].
  - by apply empty_columns.
  - apply add_view_Ok in H as (inst & _ & H).
    apply submit_Ok in H as (? & ? & ? & _ & _ & _ & H).
    by eapply save_columns.
  - apply change_view_Ok in H as (inst & _ & H).
    apply submit_Ok in H as (? & ? & ? & _ & _ & _ & H).
    by eapply save_columns.
  - apply delete_view_Ok in H as [_ ->]. by apply remove_rows_columns.
Qed.

(** * Rejections *)

Lemma clean_form_raises db c data fs nf :
  nf ∈ fs → raises (formfield_clean db c nf (column nf.1 data)) →
  raises (clean_form db c data fs).
Proof.
  induction fs as [|nf' fs IH]; [by intros ?%elem_of_nil|].
  intros [->|Hin]%elem_of_cons Hr; simpl.
  - by apply raises_bind_l.
  - apply raises_bind_r. intros v _. apply raises_bind_l. auto.
Qed.

Lemma submit_raises_clean db c inst data nf :
  nf ∈ formfields c → raises (formfield_clean db c nf (column nf.1 data)) →
  raises (submit db c inst data).
Proof.
  intros Hin Hr. unfold submit.
  destruct (clean_form_raises _ _ _ _ _ Hin Hr) as [e ->].
  apply raises_bind_r. intros _ _. apply Raise_raises.
Qed.

Lemma change_view_raises db c k data :
  (∀ inst, raises (submit db c inst data)) → raises (change_view db c k data).
Proof.
  intros H. unfold change_view. apply raises_bind_r. intros [inst|] _;
    [apply H|apply Raise_raises].
Qed.

Lemma view_raises db c data :
  (∀ inst, raises (submit db c inst data)) →
  raises (add_view db c data) ∧ ∀ k, raises (change_view db c k data).
Proof.
  intros H. split; [|intros k].
  - apply raises_bind_r; auto.
  - by apply change_view_raises.
Qed.

(** A submitted key that is not the key of a row of the target is
    refused by the form field of any relational field. *)
Lemma formfield_clean_dangling db c n f v :
  is_relation f = true → empty_values v = false →
  (∀ k, v = VInt k → exists_pk db (from_option id EmptyString (rel_to c f)) k = false) →
  raises (formfield_clean db c (n, f) v).
Proof.
  intros Hrel Hne Hdang. unfold formfield_clean. rewrite Hne, Hrel.
  destruct v; try apply Raise_raises.
  rewrite Hdang by done. apply Raise_raises.
Qed.

(** * Where the values of a written row come from *)

Lemma column_setattr_ne inst a b v :
  a ≠ b → column a (setattr inst b v) = column a inst.
Proof. intros. unfold column, setattr. by rewrite lookup_insert_ne. Qed.

Lemma stored_row_lookup c k inst a :
  a ∈ columns c → a ≠ pk_attname c →
  (<[pk_attname c := VInt k]> (row_of (local_fields c) inst)) !! a
  = Some (column a inst).
Proof.
  intros Ha Hne. rewrite lookup_insert_ne by done.
  rewrite row_of_lookup. by rewrite bool_decide_eq_true_2.
Qed.

Lemma save_table_rows db c inst db' k c0 r :
  c ∈ app_models → c0 ∈ app_models → save_table db c inst = Ok (db', k) →
  r ∈ table db' (cls_name c0) →
  r ∈ table db (cls_name c0) ∨
  (c0 = c ∧ r = <[pk_attname c := VInt k]> (row_of (local_fields c) inst)).
Proof.
  intros Hc Hc0 H Hr.
  apply save_table_spec in H as (Hframe & Hrows & _ & _); [|done].
  destruct (decide (cls_name c0 = cls_name c)) as [Heq|Hne].
  - assert (c0 = c) as -> by by apply app_model_by_name.
    apply Hrows in Hr as [Hr| ->]; auto.
  - rewrite Hframe in Hr by done. auto.
Qed.

Lemma save_steps db c inst db' inst' :
  save db c inst = Ok (db', inst') →
  (∃ k, save_table db c inst = Ok (db', k)) ∨
  (∃ p ln lf i0 db1 k k',
      parent c = Some p ∧ parent_link_of c = Some (ln, lf) ∧
      (∀ x, x ≠ pk_attname p → column x i0 = column x inst) ∧
      save_table db p i0 = Ok (db1, k) ∧
      save_table db1 c (setattr (setattr i0 (pk_attname p) (VInt k))
                                (attname ln lf) (VInt k)) = Ok (db', k')).
Proof.
  unfold save.
  destruct (parent c) as [p|] eqn:Hp;
    [destruct (parent_link_of c) as [[ln lf]|] eqn:Hl|].
  - set (inst0 := match inst !! pk_attname p with
                  | Some VNone | None =>
                      match inst !! attname ln lf with
                      | Some (VInt k0) => setattr inst (pk_attname p) (VInt k0)
                      | _ => inst
                      end
                  | _ => inst
                  end).
    assert (H0 : ∀ x, x ≠ pk_attname p → column x inst0 = column x inst).
    { intros x Hx. subst inst0. repeat case_match; try done;
        by apply column_setattr_ne. }
    clearbody inst0.
    destruct (save_table db p inst0) as [[db1 k]|] eqn:H1; [simpl|discriminate].
    destruct (save_table db1 c _) as [[db2 k']|] eqn:H2; [simpl|discriminate].
    intros [= <- <-]. right. by exists p, ln, lf, inst0, db1, k, k'.
  - destruct (save_table db c inst) as [[db1 k]|] eqn:H1; [simpl|discriminate].
    intros [= <- <-]. left. eauto.
  - destruct (save_table db c inst) as [[db1 k]|] eqn:H1; [simpl|discriminate].
    intros [= <- <-]. left. eauto.
Qed.

Lemma save_rows db c inst db' inst' c0 r :
  c ∈ app_models → c0 ∈ app_models → save db c inst = Ok (db', inst') →
  r ∈ table db' (cls_name c0) →
  r ∈ table db (cls_name c0) ∨
  ((c0 = c ∨ parent c = Some c0) ∧
   ∀ a, a ∈ columns c0 → a ∉ key_attrs c → r !! a = Some (column a inst)).
Proof.
  intros Hc Hc0 H Hr.
  apply save_steps in H
    as [[k H]|(p & ln & lf & i0 & db1 & k & k' & Hp & Hl & H0 & H1 & H2)].
  - destruct (save_table_rows _ _ _ _ _ _ _ Hc Hc0 H Hr) as [?|[-> ->]];
      [by left|].
    right. split; [by left|]. intros col Hcol Hk.
    apply stored_row_lookup; [done|]. unfold key_attrs in Hk.
    by apply not_elem_of_cons in Hk as [? _].
  - assert (Hkeys : key_attrs c = [pk_attname c; pk_attname p; attname ln lf]).
    { unfold key_attrs. by rewrite Hp, Hl. }
    destruct (save_table_rows _ _ _ _ _ _ _ Hc Hc0 H2 Hr) as [Hr1|[-> ->]].
    + destruct (save_table_rows _ _ _ _ _ _ _ (parent_app _ _ Hp) Hc0 H1 Hr1)
        as [?|[-> ->]]; [by left|].
      right. split; [by right|]. intros col Hcol Hk. rewrite Hkeys in Hk.
      rewrite !not_elem_of_cons in Hk. destruct Hk as (Hk1 & Hk2 & Hk3 & _).
      rewrite stored_row_lookup by done. f_equal. by apply H0.
    + right. split; [by left|]. intros col Hcol Hk. rewrite Hkeys in Hk.
      rewrite !not_elem_of_cons in Hk. destruct Hk as (Hk1 & Hk2 & Hk3 & _).
      rewrite stored_row_lookup by done. f_equal.
      rewrite !column_setattr_ne by done. by apply H0.
Qed.

(** * Validation *)

Lemma clean_fields_Forall db c inst fs :
  clean_fields db c inst fs = Ok () →
  Forall (λ nf, (field_blank nf.2 && empty_values (column (attname nf.1 nf.2) inst)) = true ∨
                Field_validate db c nf (column (attname nf.1 nf.2) inst) = Ok ()) fs.
Proof.
  induction fs as [|nf fs IH]; simpl; [constructor|].
  intros H. inv_bind H. constructor; [|auto].
  destruct (field_blank nf.2 && empty_values _); [by left|right].
  by destruct a.
Qed.

Lemma Field_validate_choice db c n f v :
  field_editable f = true → field_choices f ≠ [] → field_blank f = false →
  Field_validate db c (n, f) v = Ok () →
  ∃ s, v = VStr s ∧ s ∈ choice_keys f.
Proof.
  intros He Hc Hb. unfold Field_validate. rewrite He, Hb. simpl.
  rewrite bool_decide_eq_true_2 by done. simpl.
  destruct (empty_values v) eqn:Hv; simpl.
  - destruct (bool_decide (v = VNone) && negb (field_null f)); discriminate.
  - destruct v; try discriminate. case_bool_decide; [eauto|discriminate].
Qed.

(** The schema: a field with choices is an ordinary column, never one
    of the attributes that saving assigns. *)
Lemma choice_fields_plain c c0 n f :
  c ∈ app_models → c0 ∈ app_models → c0 = c ∨ parent c = Some c0 →
  (n, f) ∈ local_fields c0 → field_choices f ≠ [] →
  is_auto f = false ∧ (attname n f ∉ key_attrs c) ∧ ((n, f) ∈ fields c).
Proof.
  intros Hc Hc0 Hrel Hf Hch. revert c0 Hc0 Hrel n f Hf Hch. revert c Hc.
  cut (Forall (λ c, Forall (λ c0, c0 = c ∨ parent c = Some c0 →
         Forall (λ nf, field_choices nf.2 ≠ [] →
                       is_auto nf.2 = false ∧ (attname nf.1 nf.2 ∉ key_attrs c) ∧
                       (nf ∈ fields c)) (local_fields c0)) app_models) app_models).
  { intros H c Hc c0 Hc0 Hrel n f Hf Hch.
    rewrite Forall_forall in H. specialize (H c Hc).
    rewrite Forall_forall in H. specialize (H c0 Hc0 Hrel).
    rewrite Forall_forall in H. by apply (H (n, f)). }
  apply (bool_decide_unpack _). by vm_compute.
Qed.

Lemma submit_choices db c inst data db' :
  c ∈ app_models → submit db c inst data = Ok db' →
  choices_respected db → choices_respected db'.
Proof.
  intros Hc H Hinv c0 n f r Hc0 Hf Hch He Hb Hr.
  apply submit_Ok in H as (cleaned & inst' & inst'' & _ & _ & Hval & Hsave).
  destruct (save_rows _ _ _ _ _ _ _ Hc Hc0 Hsave Hr) as [Hr0|[Hrel Hval']];
    [by eapply Hinv|].
  destruct (choice_fields_plain c c0 n f) as (Hauto & Hkey & Hfs); [done..|].
  rewrite Hval'; [|by apply list_elem_of_fmap; exists (n, f)|done].
  apply clean_fields_Forall in Hval. rewrite Forall_forall in Hval.
  assert (Hform : (n, f) ∈ formfields c).
  { apply list_elem_of_filter. done. }
  destruct (Hval _ Hform) as [Hskip|Hok]; simpl in *.
  - by rewrite Hb in Hskip.
  - apply Field_validate_choice in Hok as (s & -> & Hs); eauto.
Qed.

Lemma remove_rows_choices db dead :
  choices_respected db → choices_respected (remove_rows db dead).
Proof.
  intros Hinv c n f r Hc Hf Hch He Hb.
  rewrite table_remove_rows, list_elem_of_filter. intros [_ Hr]. by eapply Hinv.
Qed.

Lemma reachable_choices db : reachable db → choices_respected db.
Proof.
  induction 1 as [db H|db c data db' Hr IH Hc H|db c k data db' Hr IH Hc H
                 |db c k db' Hr IH Hc H].
  - intros c n f r Hc _ _ _ _. rewrite H by done. by intros ?%elem_of_nil.
  - apply add_view_Ok in H as (inst & _ & H). by eapply submit_choices.
  - apply change_view_Ok in H as (inst & _ & H). by eapply submit_choices.
  - apply delete_view_Ok in H as [_ ->]. by apply remove_rows_choices.
Qed.

(** * Forms that cannot be saved *)

Lemma clean_form_elem db c data fs cleaned nf :
  clean_form db c data fs = Ok cleaned → nf ∈ fs →
  ∃ v, formfield_clean db c nf (column nf.1 data) = Ok v ∧ (nf, v) ∈ cleaned.
Proof.
  revert cleaned. induction fs as [|nf' fs IH]; intros cleaned H Hin;
    [by apply elem_of_nil in Hin|].
  simpl in H. inv_bind H. subst cleaned.
  apply elem_of_cons in Hin as [->|Hin].
  - exists a. split; [done|left].
  - destruct (IH _ Ha0 Hin) as (v & Hv & Hel). exists v. split; [done|by right].
Qed.

Lemma construct_instance_raises c inst cleaned n f v :
  (n, f, v) ∈ cleaned → is_relation f = true →
  (∀ i, raises (related_set c n f i v)) →
  raises (construct_instance c inst cleaned).
Proof.
  intros Hin Hrel Hr. revert inst.
  induction cleaned as [|[[n' f'] v'] cleaned IH]; intros inst;
    [by apply elem_of_nil in Hin|].
  simpl. apply elem_of_cons in Hin as [[= <- <- <-]|Hin].
  - rewrite Hrel. by apply raises_bind_l.
  - apply raises_bind_r. auto.
Qed.

(** A blank relational field that is not nullable: the form accepts the
    empty value and the instance refuses it. *)
Lemma submit_raises_blank_not_null db c inst data n f :
  (n, f) ∈ formfields c → is_relation f = true →
  field_null f = false → empty_values (column n data) = true →
  raises (submit db c inst data).
Proof.
  intros Hin Hrel Hnull Hempty. unfold submit.
  destruct (clean_form _ _ _ _) as [cleaned|e] eqn:Hcl;
    [|apply raises_bind_r; intros _ _; apply Raise_raises].
  destruct (clean_form_elem _ _ _ _ _ _ Hcl Hin) as (v & Hv & Hel).
  apply raises_bind_l. eapply construct_instance_raises; [done..|].
  intros i. simpl in Hv. unfold formfield_clean in Hv. rewrite Hempty in Hv.
  destruct (field_blank f); [|discriminate]. injection Hv as <-.
  assert (empty_value f = VNone) as -> by by destruct f.
  unfold related_set. rewrite Hnull. apply Raise_raises.
Qed.

Lemma submit_raises_required db c inst data n f :
  (n, f) ∈ formfields c → field_blank f = false →
  empty_values (column n data) = true →
  raises (submit db c inst data).
Proof.
  intros Hin Hblank Hempty.
  apply (submit_raises_clean _ _ _ _ (n, f)); [done|]. simpl.
  unfold formfield_clean. rewrite Hempty, Hblank. apply Raise_raises.
Qed.

Lemma columns_ok_raises r fs nf :
  nf ∈ fs → raises (column_ok r nf) → raises (columns_ok r fs).
Proof.
  induction fs as [|nf' fs IH]; [by intros ?%elem_of_nil|].
  intros [->|Hin]%elem_of_cons Hr; simpl.
  - by apply raises_bind_l.
  - apply raises_bind_r. auto.
Qed.

(** The storage engine's side of the same: a row whose column for a
    non-nullable field is [NULL] is not written. *)
Lemma save_table_raises_null db c inst n f :
  (n, f) ∈ local_fields c → field_null f = false →
  attname n f ≠ pk_attname c → column (attname n f) inst = VNone →
  raises (save_table db c inst).
Proof.
  intros Hin Hnull Hne Hcol.
  assert (∀ k, raises (columns_ok
            (<[pk_attname c := VInt k]> (row_of (local_fields c) inst))
            (local_fields c))) as Hcols.
  { intros k. eapply columns_ok_raises; [done|].
    unfold column_ok. simpl. rewrite stored_row_lookup; [|by apply list_elem_of_fmap; exists (n, f)|done].
    rewrite Hcol, Hnull. apply Raise_raises. }
  unfold save_table.
  assert (raises (db_insert db c inst)) as Hins.
  { unfold db_insert. apply raises_bind_r. intros k _.
    apply raises_bind_r. intros _ _. apply raises_bind_l. apply Hcols. }
  assert (∀ k, raises (db_update db c k inst)) as Hupd.
  { intros k. unfold db_update.
    apply raises_bind_r. intros _ _. apply raises_bind_l. apply Hcols. }
  repeat case_match; auto.
Qed.

Ltac by_computation := apply (bool_decide_unpack _); vm_compute; exact I.

(** * The sample site is a stored state *)

Lemma db0_is_empty c : c ∈ app_models → table examples.db0 (cls_name c) = [].
Proof.
  revert c. apply Forall_forall.
  by_computation.
Qed.

Lemma db8_reachable : reachable examples.db8.
Proof.
  apply (reach_add examples.db7 ResearcherProject
           (ResearcherProject_form 1 1 "lead"));
    [|by_computation..].
  apply (reach_add examples.db6 Project
           (examples.row [("name", VStr "Lovelace family")]));
    [|by_computation..].
  apply (reach_add examples.db5 Researcher
           (examples.row [("name", VStr "Ada"); ("address", VInt 1);
                          ("user", VInt 1)]));
    [|by_computation..].
  apply (reach_add examples.db4 PlacePart
           (examples.row [("place", VInt 1); ("place_part_type", VInt 2);
                          ("name", VStr "State"); ("sequence_number", VInt 1)]));
    [|by_computation..].
  apply (reach_add examples.db3 PlacePart
           (examples.row [("place", VInt 1); ("place_part_type", VInt 1);
                          ("name", VStr "County"); ("sequence_number", VInt 2)]));
    [|by_computation..].
  apply (reach_add examples.db2 PlacePartType
           (examples.row [("name", VStr "State")]));
    [|by_computation..].
  apply (reach_add examples.db1 PlacePartType
           (examples.row [("name", VStr "County")]));
    [|by_computation..].
  apply (reach_add examples.db0 Place (examples.place_form "A"));
    [|by_computation..].
  apply reach_empty, db0_is_empty.
Qed.

(** * Referential integrity *)


(** * Sort orders *)

(** C7: in every state stored through the admin forms, the sort order
    of every place, characteristic and group type is "A", "D" or
    "N". *)
Theorem sort_orders_are_choices (db : Database) :
  reachable db →
  ∀ c r, c = Place ∨ c = Characteristic ∨ c = GroupType →
    r ∈ table db (cls_name c) →
    r !! "sort_order" = Some (VStr "A") ∨
    r !! "sort_order" = Some (VStr "D") ∨
    r !! "sort_order" = Some (VStr "N").
Proof.
  intros Hreach c r Hc Hr.
  assert (∃ f, c ∈ app_models ∧ ("sort_order", f) ∈ local_fields c ∧
               field_choices f = SORT_ORDER_CHOICES ∧
               field_editable f = true ∧ field_blank f = false ∧
               is_relation f = false) as (f & Hin & Hf & Hch & He & Hb & Hrel).
  { destruct Hc as [->|[->| ->]]; eexists;
      (split; [by_computation|]);
      (split; [apply list_elem_of_In; simpl; eauto 10|]); done. }
  assert (field_choices f ≠ []) as Hne by by rewrite Hch.
  destruct (reachable_choices db Hreach c "sort_order" f r Hin Hf Hne He Hb Hr)
    as (s & Hs & Hkey).
  unfold attname in Hs. rewrite Hrel in Hs. rewrite Hs. rewrite Hch in Hkey.
  simpl in Hkey. rewrite !elem_of_cons in Hkey.
  destruct Hkey as [->|[->|[->|Hnil]]]; auto. by apply elem_of_nil in Hnil.
Qed.

Lemma sort_orders_are_choices_witness :
  table examples.db8 "Place" ≠ [] ∧
  Forall (λ r, r !! "sort_order" = Some (VStr "A") ∨
               r !! "sort_order" = Some (VStr "D") ∨
               r !! "sort_order" = Some (VStr "N"))
         (table examples.db8 "Place").
Proof.
  split; [by_computation|].
  apply Forall_forall. intros r Hr.
  apply (sort_orders_are_choices examples.db8 db8_reachable Place r);
    [by left | exact Hr].
Defined.

(** * Searches *)

Lemma formfield_named c n f :
  snd <$> head (filter (λ nf, nf.1 = n) (formfields c)) = Some f →
  (n, f) ∈ formfields c.
Proof.
  destruct (head _) as [[n' f']|] eqn:Hh; [|discriminate].
  intros [= <-]. apply head_Some_elem_of in Hh.
  apply list_elem_of_filter in Hh as [Hn Hin]. simpl in Hn. by subst.
Qed.

Lemma local_field_named c n f :
  snd <$> head (filter (λ nf, nf.1 = n) (local_fields c)) = Some f →
  (n, f) ∈ local_fields c.
Proof.
  destruct (head _) as [[n' f']|] eqn:Hh; [|discriminate].
  intros [= <-]. apply head_Some_elem_of in Hh.
  apply list_elem_of_filter in Hh as [Hn Hin]. simpl in Hn. by subst.
Qed.

(** C9: neither [Search.source] nor [Search.repository] is declared
    optional, and a search form that leaves either of them empty is
    refused, on the add view and on the change view. *)
Theorem Search_needs_source_and_repository (db : Database) (data : dict) :
  empty_values (column "source" data) = true ∨
  empty_values (column "repository" data) = true →
  (field_blank <$> get_field Search "source" = Some false ∧
   field_null <$> get_field Search "source" = Some false ∧
   field_blank <$> get_field Search "repository" = Some false ∧
   field_null <$> get_field Search "repository" = Some false) ∧
  raises (add_view db Search data) ∧
  ∀ k, raises (change_view db Search k data).
Proof.
  intros Hempty. split; [by_computation|].
  apply view_raises. intros inst.
  destruct Hempty as [Hempty|Hempty].
  - eapply (submit_raises_required _ _ _ _ "source");
      [eapply formfield_named; reflexivity|reflexivity|done].
  - eapply (submit_raises_required _ _ _ _ "repository");
      [eapply formfield_named; reflexivity|reflexivity|done].
Qed.

Lemma Search_needs_source_and_repository_witness :
  raises (add_view examples.db8 Search
            (examples.row [("researcher", VInt 1); ("repository", VInt 1);
                           ("searched_for", VStr "Lovelace")])).
Proof.
  refine (proj1 (proj2 (Search_needs_source_and_repository examples.db8 _ _))).
  left. reflexivity.
Defined.

(** * Sources *)

(** C4 (what the code does): a source form that leaves [higher_source]
    empty is never saved, by the add view or by the change view; and
    the table refuses any source row without a higher source. *)
Theorem Source_needs_higher_source (db : Database) (data : dict) :
  empty_values (column "higher_source" data) = true →
  raises (add_view db Source data) ∧
  (∀ k, raises (change_view db Source k data)) ∧
  (∀ inst, column "higher_source_id" inst = VNone →
           raises (save db Source inst)).
Proof.
  intros Hempty. split; [|split].
  - apply view_raises. intros inst.
    eapply (submit_raises_blank_not_null _ _ _ _ "higher_source");
      [eapply formfield_named; reflexivity|reflexivity|reflexivity|done].
  - apply view_raises. intros inst.
    eapply (submit_raises_blank_not_null _ _ _ _ "higher_source");
      [eapply formfield_named; reflexivity|reflexivity|reflexivity|done].
  - intros inst Hcol. unfold save.
    change (parent Source) with (@None ModelClass). simpl.
    apply raises_bind_l.
    eapply (save_table_raises_null _ _ _ "higher_source");
      [eapply local_field_named; reflexivity|reflexivity|done|done].
Qed.

Lemma Source_needs_higher_source_witness :
  add_view examples.db8 Source examples.source_form = Raise ValueError ∧
  raises (add_view examples.db8 Source examples.source_form).
Proof.
  split; [by_computation|].
  refine (proj1 (Source_needs_higher_source examples.db8 _ _)). reflexivity.
Defined.

(** * Which bindings become columns *)

(** What [save] writes into the table of a class without a parent is a
    row with exactly the columns of the class. *)
Lemma save_writes_columns db c inst db' inst' r :
  c ∈ app_models → parent c = None →
  save db c inst = Ok (db', inst') → r ∈ table db' (cls_name c) →
  r ∈ table db (cls_name c) ∨ dom r = list_to_set (columns c).
Proof.
  intros Hc Hp H Hr.
  apply save_steps in H as [[k H]|(p & ? & ? & ? & ? & ? & ? & Hp' & _)];
    [|congruence].
  destruct (save_table_rows _ _ _ _ _ _ _ Hc Hc H Hr) as [?|[_ ->]];
    [by left|right].
  by apply stored_row_dom.
Qed.

(** C10: [content] is bound to a tuple, so it is neither a field of
    [Representation] nor on its form, and a representation is stored as
    its key, [source], [representation_type], [physical_file_code],
    [medium] and [comments], without any content. *)
Theorem Representation_stores_no_content :
  ("content", ATuple1 (FileField [verbose_name "contents of the representation"]))
    ∈ cls_body Representation ∧
  (fields Representation).*1 =
    ["id"; "source"; "representation_type"; "physical_file_code"; "medium";
     "comments"] ∧
  (formfields Representation).*1 =
    ["source"; "representation_type"; "physical_file_code"; "medium";
     "comments"] ∧
  ∀ db inst db' inst' r,
    save db Representation inst = Ok (db', inst') →
    r ∈ table db' "Representation" →
    r ∈ table db "Representation" ∨
    (dom r = list_to_set ["id"; "source_id"; "representation_type_id";
                          "physical_file_code"; "medium"; "comments"] ∧
     r !! "content" = None).
Proof.
  split; [by_computation|]. split; [reflexivity|]. split; [reflexivity|].
  intros db inst db' inst' r H Hr.
  destruct (save_writes_columns db Representation inst db' inst' r)
    as [?|Hdom]; [by_computation|reflexivity|done..|by left|right].
  split; [exact Hdom|].
  apply not_elem_of_dom. rewrite Hdom. by_computation.
Qed.

Lemma Representation_stores_no_content_witness :
  examples.excerpt !! "content" = Some (VStr "In the name of God, amen") ∧
  ∃ db', fst <$> save examples.db_rtype Representation examples.excerpt = Ok db' ∧
         Forall (λ r, r !! "content" = None) (table db' "Representation") ∧
         table db' "Representation" ≠ [].
Proof.
  split; [reflexivity|].
  destruct (save examples.db_rtype Representation examples.excerpt)
    as [[db' inst']|e] eqn:Hsave; [|exfalso; revert Hsave; by_computation].
  exists db'. split; [reflexivity|]. split.
  - apply Forall_forall. intros r Hr.
    destruct Representation_stores_no_content as (_ & _ & _ & H).
    destruct (H _ _ _ _ r Hsave Hr) as [Hold|[_ Hnone]]; [|exact Hnone].
    exfalso. revert Hold. by_computation.
  - intros Hnil.
    assert (length (table (examples.from_result (fst <$> save examples.db_rtype
              Representation examples.excerpt)) "Representation") = 1%nat)
      as Hlen by by_computation.
    rewrite Hsave in Hlen. simpl in Hlen. by rewrite Hnil in Hlen.
Defined.

(** C3 (what the code does): the four subject names and [value_role]
    are bound to tuples, so [Assertion] has no subject field: the
    constructor refuses the subject keywords, and an assertion is
    stored as its key, [surety_scheme_part], [researcher], [source],
    [rationale] and [disproved]. *)
Theorem Assertion_has_no_subject_fields :
  Forall (λ n, ∃ f, (n, ATuple1 f) ∈ cls_body Assertion)
         ["subject1_type"; "subject1"; "subject2_type"; "subject2";
          "value_role"] ∧
  (fields Assertion).*1 =
    ["id"; "surety_scheme_part"; "researcher"; "source"; "rationale";
     "disproved"] ∧
  construct Assertion [] examples.conclusion = Raise TypeError ∧
  ∀ db inst db' inst' r,
    save db Assertion inst = Ok (db', inst') →
    r ∈ table db' "Assertion" →
    r ∈ table db "Assertion" ∨
    (dom r = list_to_set ["id"; "surety_scheme_part_id"; "researcher_id";
                          "source_id"; "rationale"; "disproved"] ∧
     r !! "subject1_type" = None ∧ r !! "subject1" = None ∧
     r !! "subject2_type" = None ∧ r !! "subject2" = None).
Proof.
  split.
  { repeat constructor; eexists; apply list_elem_of_In; simpl; eauto 12. }
  split; [reflexivity|]. split; [by_computation|].
  intros db inst db' inst' r H Hr.
  destruct (save_writes_columns db Assertion inst db' inst' r)
    as [?|Hdom]; [by_computation|reflexivity|done..|by left|right].
  split; [exact Hdom|].
  repeat split; apply not_elem_of_dom; rewrite Hdom; by_computation.
Qed.

(** The instance [examples.conclusion] carries its subjects as
    attributes; the row written for it does not. *)
Lemma Assertion_row_example :
  table (examples.from_result
           (fst <$> save examples.db_surety Assertion examples.conclusion))
        "Assertion"
  = [examples.row
       [("id", VInt 1); ("surety_scheme_part_id", VInt 1);
        ("researcher_id", VInt 1); ("source_id", VInt 1);
        ("rationale", VStr "named in the will"); ("disproved", VBool false)]].
Proof. by_computation. Qed.

(** * The admin configuration *)

(** C8: [ResearcherProjectInline] is an inline of [ResearcherAdmin] and
    of [ProjectAdmin], the admin classes registered for [Researcher]
    and [Project]; [SuretySchemePartInline] is an inline of
    [SuretySchemeAdmin], registered for [SuretyScheme]; and the rows of
    each inline belong to the parent's form through their foreign key
    to the parent. *)
Theorem inlines_are_configured :
  admin.admin_of "Researcher" = Some admin.ResearcherAdmin ∧
  admin.admin_of "Project" = Some admin.ProjectAdmin ∧
  admin.admin_of "SuretyScheme" = Some admin.SuretySchemeAdmin ∧
  admin.ResearcherProjectInline ∈ admin.inlines admin.ResearcherAdmin ∧
  admin.ResearcherProjectInline ∈ admin.inlines admin.ProjectAdmin ∧
  admin.SuretySchemePartInline ∈ admin.inlines admin.SuretySchemeAdmin ∧
  admin.model admin.ResearcherProjectInline = ResearcherProject ∧
  admin.model admin.SuretySchemePartInline = SuretySchemePart ∧
  admin.inline_foreign_key Researcher admin.ResearcherProjectInline
    = Some "researcher" ∧
  admin.inline_foreign_key Project admin.ResearcherProjectInline
    = Some "project" ∧
  admin.inline_foreign_key SuretyScheme admin.SuretySchemePartInline
    = Some "surety_scheme".
Proof.
  repeat split; try reflexivity; apply list_elem_of_In; simpl; auto.
Qed.

(** * What [Model.__init__] leaves of an attribute set before it *)

Lemma related_set_frame c n f self v self' a :
  related_set c n f self v = Ok self' →
  a ≠ attname n f → a ≠ "_" +:+ n +:+ "_cache" → self' !! a = self !! a.
Proof.
  unfold related_set, setattr. intros H Ha Hc.
  repeat case_match; simplify_eq; by rewrite !lookup_insert_ne.
Qed.

Lemma init_remaining_frame c fs self kw o kw' a :
  Forall (λ nf, a ≠ attname nf.1 nf.2 ∧ a ≠ "_" +:+ nf.1 +:+ "_cache") fs →
  init_remaining c fs self kw = Ok (o, kw') → o !! a = self !! a.
Proof.
  intros Hfs. revert self kw.
  induction Hfs as [|[n f] fs [Ha Hc] _ IH]; intros self kw; simpl.
  - by intros [= <- <-].
  - destruct (is_relation f); [destruct (kw !! n) as [rel_obj|]|].
    + intros H. inv_bind H. rewrite (IH _ _ H).
      by eapply related_set_frame.
    + intros H. rewrite (IH _ _ H). unfold setattr.
      by rewrite lookup_insert_ne.
    + intros H. rewrite (IH _ _ H). unfold setattr.
      by rewrite lookup_insert_ne.
Qed.

Lemma init_remaining_kwargs c fs self kw o kw' a :
  Forall (λ nf, a ≠ nf.1 ∧ a ≠ attname nf.1 nf.2) fs →
  init_remaining c fs self kw = Ok (o, kw') → kw' !! a = kw !! a.
Proof.
  intros Hfs. revert self kw.
  induction Hfs as [|[n f] fs [Hn Ha] _ IH]; intros self kw; simpl.
  - by intros [= <- <-].
  - destruct (is_relation f); [destruct (kw !! n) as [rel_obj|]|].
    + intros H. inv_bind H. rewrite (IH _ _ H). by rewrite lookup_delete_ne.
    + intros H. rewrite (IH _ _ H). by rewrite lookup_delete_ne.
    + intros H. rewrite (IH _ _ H). by rewrite lookup_delete_ne.
Qed.

Lemma init_remaining_app c pre post self kw :
  init_remaining c (pre ++ post) self kw =
  init_remaining c pre self kw ≫= (λ sk, init_remaining c post sk.1 sk.2).
Proof.
  revert self kw. induction pre as [|[n f] pre IH]; intros self kw; simpl;
    [done|].
  destruct (is_relation f); [destruct (kw !! n)|]; try apply IH.
  destruct (related_set c n f self v); simpl; [apply IH|done].
Qed.

(** A plain field that is still to be assigned when the second loop
    starts gets its keyword argument, or its default: whatever the
    instance held under its name before is lost. *)
Lemma init_remaining_assigns c pre n f post self kw o kw' :
  is_relation f = false →
  Forall (λ nf, n ≠ nf.1 ∧ n ≠ attname nf.1 nf.2) pre →
  Forall (λ nf, n ≠ attname nf.1 nf.2 ∧ n ≠ "_" +:+ nf.1 +:+ "_cache") post →
  init_remaining c (pre ++ (n, f) :: post) self kw = Ok (o, kw') →
  o !! n = Some (from_option id (get_default f) (kw !! n)).
Proof.
  intros Hrel Hpre Hpost. rewrite init_remaining_app. intros H.
  apply bind_Ok in H as ([s1 k1] & H1 & H2). simpl in H2.
  rewrite Hrel in H2. unfold attname in H2. rewrite Hrel in H2.
  rewrite (init_remaining_frame _ _ _ _ _ _ n Hpost H2).
  unfold setattr. rewrite lookup_insert_eq.
  by rewrite (init_remaining_kwargs _ _ _ _ _ _ n Hpre H1).
Qed.

Lemma init_positional_frame fs args self kw self' kw' rest a :
  Forall (λ nf, a ≠ attname nf.1 nf.2) fs →
  init_positional fs args self kw = (self', kw', rest) →
  self' !! a = self !! a ∧
  Forall (λ nf, a ≠ attname nf.1 nf.2) rest ∧ ∃ pre, fs = pre ++ rest.
Proof.
  intros Hfs. revert args self kw.
  induction Hfs as [|[n f] fs Ha Hfs IH]; intros args self kw; simpl.
  - destruct args; intros [= <- <- <-]; (split; [done|]);
      (split; [constructor|by exists []]).
  - destruct args as [|v args].
    + intros [= <- <- <-]. split; [done|]. split; [by constructor|by exists []].
    + intros H. apply IH in H as (Hs & Hrest & pre & ->).
      split; [|split; [done|by exists ((n, f) :: pre)]].
      rewrite Hs. unfold setattr. by rewrite lookup_insert_ne.
Qed.

(** The value [Model.__init__] gives [typecode]: the fifth positional
    argument, else the keyword argument, else the empty string. *)
Lemma Model_init_typecode c self args kwargs o :
  c = AdministrativeTask ∨ c = Search →
  Model___init__ c self args kwargs = Ok o →
  o !! "typecode" =
  Some (match args !! 4%nat with
        | Some v => v
        | None => from_option id (VStr EmptyString) (kwargs !! "typecode")
        end).
Proof.
  intros Hc. unfold Model___init__. case_bool_decide as Hlen; [discriminate|].
  destruct (init_positional (fields c) args self kwargs) as [[s1 k1] rest] eqn:Hpos.
  intros H. apply bind_Ok in H as ([s2 k2] & Hrem & H).
  assert (o !! "typecode" = s2 !! "typecode") as ->.
  { case_bool_decide; [|discriminate]. injection H as <-.
    destruct (k2 !! "pk"); [|done]. unfold setattr.
    rewrite lookup_insert_ne; [done|]. by destruct Hc as [->| ->]. }
  clear H o Hlen.
  assert (∃ tail, fields c =
    [("id", AutoField [verbose_name "ID"; primary_key true]);
     ("researcher", ForeignKey "Researcher" [verbose_name "researcher"]);
     ("scheduled_date", DateField [verbose_name "date scheduled"]);
     ("completed_date", DateField [verbose_name "date completed"]);
     ("typecode", CharField [max_length 1;
        choices [("A", "Administrative Task"); ("S", "Search")];
        editable false])] ++ tail ∧
    Forall (λ nf, "typecode" ≠ attname nf.1 nf.2 ∧
                  "typecode" ≠ "_" +:+ nf.1 +:+ "_cache") tail)
    as (tail & Hfields & Htail).
  { destruct Hc as [->| ->]; eexists; (split; [reflexivity|by_computation]). }
  rewrite Hfields in Hpos. clear Hfields.
  destruct args as [|a0 [|a1 [|a2 [|a3 [|a4 args]]]]]; simpl in Hpos.
  - injection Hpos as <- <- <-.
    eapply (init_remaining_assigns _ [_; _; _; _]) in Hrem;
      [done|done|by_computation|done].
  - injection Hpos as <- <- <-.
    eapply (init_remaining_assigns _ [_; _; _]) in Hrem;
      [|done|by_computation|done].
    rewrite Hrem. by rewrite !lookup_delete_ne.
  - injection Hpos as <- <- <-.
    eapply (init_remaining_assigns _ [_; _]) in Hrem;
      [|done|by_computation|done].
    rewrite Hrem. by rewrite !lookup_delete_ne.
  - injection Hpos as <- <- <-.
    eapply (init_remaining_assigns _ [_]) in Hrem;
      [|done|by_computation|done].
    rewrite Hrem. by rewrite !lookup_delete_ne.
  - injection Hpos as <- <- <-.
    eapply (init_remaining_assigns _ []) in Hrem;
      [|done|by_computation|done].
    rewrite Hrem. by rewrite !lookup_delete_ne.
  - assert (Forall (λ nf, "typecode" ≠ attname nf.1 nf.2) tail) as Htail'.
    { eapply Forall_impl; [exact Htail|]. by intros nf [? _]. }
    destruct (init_positional_frame _ _ _ _ _ _ _ "typecode" Htail' Hpos)
      as (Hs1 & _ & pre & Hsplit).
    rewrite Hsplit in Htail. apply Forall_app in Htail as [_ Hrest].
    rewrite (init_remaining_frame _ _ _ _ _ _ _ Hrest Hrem), Hs1.
    unfold setattr. by rewrite lookup_insert_eq.
Qed.

(** Both constructors set [typecode] and then hand the instance to
    [Model.__init__], which assigns [typecode] again: the instance ends
    with what the caller passed for it, or with the empty string. *)
Lemma constructors_lose_typecode c args kwargs o :
  c = AdministrativeTask ∨ c = Search →
  construct c args kwargs = Ok o →
  o !! "typecode" =
  Some (match args !! 4%nat with
        | Some v => v
        | None => from_option id (VStr EmptyString) (kwargs !! "typecode")
        end).
Proof.
  intros Hc H.
  destruct Hc as [->| ->];
    [apply (Model_init_typecode AdministrativeTask
              (setattr ∅ "typecode" (VStr "A")) args kwargs o); [by left|]
    |apply (Model_init_typecode Search
              (setattr ∅ "typecode" (VStr "S")) args kwargs o); [by right|]];
    exact H.
Qed.

(** C2 (what the code does): an [AdministrativeTask] and a [Search]
    built without arguments carry the empty string as type code, one
    built with a type code carries that one, and the row the add view
    stores for a task has an empty type code. *)
Theorem constructors_do_not_fix_typecode :
  (construct AdministrativeTask [] ∅ ≫= λ o, Ok (o !! "typecode"))
    = Ok (Some (VStr EmptyString)) ∧
  (construct Search [] ∅ ≫= λ o, Ok (o !! "typecode"))
    = Ok (Some (VStr EmptyString)) ∧
  (construct AdministrativeTask [] {[ "typecode" := VStr "S" ]}
     ≫= λ o, Ok (o !! "typecode")) = Ok (Some (VStr "S")) ∧
  (construct Search [] {[ "typecode" := VStr "A" ]}
     ≫= λ o, Ok (o !! "typecode")) = Ok (Some (VStr "A")) ∧
  (λ r : dict, r !! "typecode") <$> table examples.db9 "Activity"
    = [Some (VStr EmptyString)] ∧
  length (table examples.db9 "AdministrativeTask") = 1%nat.
Proof. repeat split; by_computation. Qed.

(** * The display string of a place *)

Lemma merge_sort_pair {A} (R : relation A) `{∀ x y, Decision (R x y)} x y :
  merge_sort R [x; y] = if decide (R x y) then [x; y] else [y; x].
Proof. unfold merge_sort. simpl. by destruct (decide (R x y)). Qed.

(** A place with two parts: they are listed by ascending sequence
    number unless the sort order is "D", whatever else it is. *)
Lemma Place_str_two_parts db self p1 p2 n1 n2 (s1 s2 : Z) :
  placepart_set db self = [p1; p2] →
  p1 !! "name" = Some (VStr n1) → p2 !! "name" = Some (VStr n2) →
  p1 !! "sequence_number" = Some (VInt s1) →
  p2 !! "sequence_number" = Some (VInt s2) →
  Place___str__ db self =
  Ok (if bool_decide (self !! "sort_order" = Some (VStr "D"))
      then (if bool_decide (s2 ≤ s1)%Z then n1 +:+ ", " +:+ n2
            else n2 +:+ ", " +:+ n1)
      else (if bool_decide (s1 ≤ s2)%Z then n1 +:+ ", " +:+ n2
            else n2 +:+ ", " +:+ n1)).
Proof.
  intros Hset Hn1 Hn2 Hs1 Hs2. unfold Place___str__. rewrite Hset.
  case_bool_decide as Hd; simpl; rewrite merge_sort_pair;
    change (EmptyString +:+ "sequence_number") with "sequence_number";
    destruct (decide _) as [Hle|Hle];
    unfold row_ge, row_le, column in Hle; rewrite Hs1, Hs2 in Hle;
    simpl in Hle; try apply not_true_is_false in Hle; rewrite Hle;
    simpl; by rewrite Hn1, Hn2.
Qed.

(** "County" (2) stored before "State" (1): "State, County" unless the
    sort order is "D"; in particular for "N". *)
Lemma Place_str_county_state db self p1 p2 :
  placepart_set db self = [p1; p2] →
  p1 !! "name" = Some (VStr "County") → p2 !! "name" = Some (VStr "State") →
  p1 !! "sequence_number" = Some (VInt 2) →
  p2 !! "sequence_number" = Some (VInt 1) →
  Place___str__ db self =
  Ok (if bool_decide (self !! "sort_order" = Some (VStr "D"))
      then "County, State" else "State, County").
Proof.
  intros Hset Hn1 Hn2 Hs1 Hs2.
  rewrite (Place_str_two_parts db self p1 p2 _ _ _ _ Hset Hn1 Hn2 Hs1 Hs2).
  by case_bool_decide.
Qed.

(** C1 (what the code does): for the place of the sample site, whose
    parts are stored as "County" (2), "State" (1), the display string
    is "State, County" with sort order "A", "County, State" with "D",
    and "State, County" again with "N", which is not the storage
    order. *)
Theorem Place_str_sorts_unless_descending :
  (get examples.db8 Place 1 ≫= Place___str__ examples.db8)
    = Ok "State, County" ∧
  (get (examples.db8_with "D") Place 1 ≫= Place___str__ (examples.db8_with "D"))
    = Ok "County, State" ∧
  (get (examples.db8_with "N") Place 1 ≫= Place___str__ (examples.db8_with "N"))
    = Ok "State, County" ∧
  (get (examples.db8_with "N") Place 1 ≫= λ p, Ok (p !! "sort_order"))
    = Ok (Some (VStr "N")) ∧
  (get (examples.db8_with "N") Place 1
     ≫= λ p, names_of (placepart_set (examples.db8_with "N") p))
    = Ok ["County"; "State"].
Proof. repeat split; by_computation. Qed.

(** * Researchers on projects *)

Lemma construct_instance_frame c inst cleaned inst' a :
  Forall (λ x, a ≠ x.1.1 ∧ a ≠ attname x.1.1 x.1.2 ∧
               a ≠ "_" +:+ x.1.1 +:+ "_cache") cleaned →
  construct_instance c inst cleaned = Ok inst' → inst' !! a = inst !! a.
Proof.
  intros Hcl. revert inst.
  induction Hcl as [|[[n f] v] cleaned (Hn & Ha & Hc) _ IH]; intros inst; simpl.
  - by intros [= <-].
  - intros H. inv_bind H. rewrite (IH _ H).
    destruct (is_relation f).
    + by eapply related_set_frame.
    + injection Ha0 as <-. unfold setattr. by rewrite lookup_insert_ne.
Qed.

Lemma formfield_clean_key db c n f k v :
  is_relation f = true →
  formfield_clean db c (n, f) (VInt k) = Ok v →
  k ∈ pks db (from_option id EmptyString (rel_to c f)) ∧
  v = VObj (from_option id EmptyString (rel_to c f)) (Some k).
Proof.
  intros Hrel. unfold formfield_clean. simpl. rewrite Hrel.
  destruct (exists_pk _ _ _) eqn:He; [|discriminate].
  intros [= <-]. split; [by apply exists_pk_true|done].
Qed.

Lemma clean_form_cons db c data nf fs cl :
  clean_form db c data (nf :: fs) = Ok cl →
  ∃ v rest, formfield_clean db c nf (column nf.1 data) = Ok v ∧
            clean_form db c data fs = Ok rest ∧ cl = (nf, v) :: rest.
Proof. simpl. intros H. inv_bind H. eauto. Qed.

(** What one submission of the join form does: the researcher and the
    project are rows of their tables, and one row that names both is
    appended to the join table; nothing else changes. *)
Lemma add_link_spec db a b role db' :
  add_view db ResearcherProject (ResearcherProject_form a b role) = Ok db' →
  a ∈ pks db "Researcher" ∧ b ∈ pks db "Project" ∧
  ∃ r, db' = <["ResearcherProject" := table db "ResearcherProject" ++ [r]]> db ∧
       r !! "researcher_id" = Some (VInt a) ∧
       r !! "project_id" = Some (VInt b).
Proof.
  intros H. apply add_view_Ok in H as (inst0 & Hc & H).
  assert (inst0 !! "id" = Some VNone) as Hid0.
  { assert ((construct ResearcherProject [] ∅ ≫= λ i, Ok (i !! "id"))
            = Ok (Some VNone)) as Hx by by_computation.
    rewrite Hc in Hx. by injection Hx. }
  apply submit_Ok in H as (cleaned & inst' & inst'' & Hcl & Hci & _ & Hsave).
  change (formfields ResearcherProject) with
    [("researcher", ForeignKey "Researcher" []);
     ("project", ForeignKey "Project" []);
     ("role", CharField [verbose_name "researcher's role on project";
                         max_length 64; blank true])] in Hcl.
  apply clean_form_cons in Hcl as (v1 & cl1 & Hv1 & Hcl & ->).
  apply clean_form_cons in Hcl as (v2 & cl2 & Hv2 & Hcl & ->).
  apply clean_form_cons in Hcl as (v3 & cl3 & Hv3 & Hcl & ->).
  injection Hcl as <-.
  change (column _ (ResearcherProject_form a b role)) with (VInt a) in Hv1.
  change (column _ (ResearcherProject_form a b role)) with (VInt b) in Hv2.
  apply formfield_clean_key in Hv1 as [Hra ->]; [|done].
  apply formfield_clean_key in Hv2 as [Hpb ->]; [|done].
  simpl in Hra, Hpb. split; [done|]. split; [done|].
  assert (inst' !! "id" = Some VNone) as Hid.
  { rewrite <-Hid0. eapply construct_instance_frame; [|exact Hci].
    by_computation. }
  simpl in Hci. injection Hci as Hci.
  change (attname "researcher" _) with "researcher_id" in Hci.
  change (attname "project" _) with "project_id" in Hci.
  change ("_" +:+ "researcher" +:+ "_cache") with "_researcher_cache" in Hci.
  change ("_" +:+ "project" +:+ "_cache") with "_project_cache" in Hci.
  apply save_steps in Hsave as [[k Hsave]|(p & ? & ? & ? & ? & ? & ? & Hp & _)];
    [|discriminate].
  unfold save_table in Hsave.
  change (pk_attname ResearcherProject) with "id" in Hsave.
  rewrite Hid in Hsave. simpl in Hsave.
  apply db_insert_spec in Hsave as [-> _].
  eexists. split; [reflexivity|].
  change (pk_attname ResearcherProject) with "id".
  rewrite !lookup_insert_ne by done. rewrite !row_of_lookup.
  rewrite !bool_decide_eq_true_2 by by_computation.
  unfold column. subst inst'. unfold setattr.
  split.
  - by rewrite lookup_insert_ne, lookup_insert_ne, lookup_insert_ne,
      lookup_insert_ne, lookup_insert_eq.
  - by rewrite lookup_insert_ne, lookup_insert_ne, lookup_insert_eq.
Qed.

Lemma add_links_spec db links db' :
  add_links db links = Ok db' →
  Forall (λ l, l.1.1 ∈ pks db "Researcher" ∧ l.1.2 ∈ pks db "Project") links ∧
  table db' "Researcher" = table db "Researcher" ∧
  table db' "Project" = table db "Project" ∧
  ∃ rows, table db' "ResearcherProject" = table db "ResearcherProject" ++ rows ∧
          Forall2 (λ (r : dict) l, r !! "researcher_id" = Some (VInt l.1.1) ∧
                                   r !! "project_id" = Some (VInt l.1.2))
                  rows links.
Proof.
  revert db. induction links as [|[[a b] role] links IH]; intros db; simpl.
  - intros [= <-]. repeat split; [constructor|]. exists [].
    split; [by rewrite app_nil_r|constructor].
  - intros H. apply bind_Ok in H as (db1 & H1 & H).
    apply add_link_spec in H1 as (Ha & Hb & r & -> & Hra & Hrb).
    apply IH in H as (Hall & HR & HP & rows & Hrows & Hmatch).
    rewrite table_insert_ne in HR, HP by done. rewrite table_insert in Hrows.
    unfold pks in Hall. rewrite !table_insert_ne in Hall by done.
    repeat split; [by constructor|done..|].
    exists (r :: rows). split; [by rewrite Hrows, <-app_assoc|].
    by constructor.
Qed.

Lemma elem_of_through_rows db thr from_col to_col target k r :
  r ∈ through_rows db thr from_col to_col target k ↔
  ∃ t, t ∈ table db (cls_name thr) ∧ t !! from_col = Some (VInt k) ∧
       r ∈ table db target ∧ Some (VInt <$> row_pk target r) = Some (t !! to_col).
Proof.
  unfold through_rows. rewrite list_elem_of_bind. split.
  - intros (t & Hr & Ht). apply list_elem_of_filter in Hr as [? ?].
    apply list_elem_of_filter in Ht as [? ?]. eauto 10.
  - intros (t & Ht & Hk & Hr & Hpk). exists t.
    split; apply list_elem_of_filter; done.
Qed.

Lemma Project_researchers_eq db p :
  Project_researchers db p
  = through_rows db ResearcherProject "project_id" "researcher_id" "Researcher" p.
Proof. reflexivity. Qed.

Lemma Researcher_project_set_eq db a :
  Researcher_project_set db a
  = through_rows db ResearcherProject "researcher_id" "project_id" "Project" a.
Proof. reflexivity. Qed.

(** * Deleting always goes through *)

Lemma referrers_through_all_refs links db tgt k o :
  o ∈ referrers_through links db tgt k → o ∈ all_refs db.
Proof.
  unfold referrers_through, all_refs. rewrite !list_elem_of_bind.
  intros (c & Ho & Hc). exists c. split; [|done].
  apply list_elem_of_bind in Ho as (nf & Ho & _).
  apply list_elem_of_bind in Ho as (r & Ho & Hr).
  apply list_elem_of_filter in Hr as [_ Hr].
  apply list_elem_of_bind. by exists r.
Qed.

Lemma related_objects_all_refs db o x :
  x ∈ related_objects db o → x ∈ all_refs db.
Proof.
  unfold related_objects, referrers. intros [Hx|Hx]%elem_of_app.
  - by eapply referrers_through_all_refs.
  - destruct (get_model o.1 ≫= parent); [|by apply elem_of_nil in Hx].
    by eapply referrers_through_all_refs.
Qed.

Lemma find_row_Some db name k r :
  find_row db name k = Some r → r ∈ table db name ∧ row_pk name r = Some k.
Proof.
  unfold find_row. intros H%head_Some_elem_of.
  by apply list_elem_of_filter in H as [? ?].
Qed.

(** A collection is closed when it holds the related objects of each of
    its rows; [collect] ends on a closed collection before its fuel
    runs out. *)
Lemma collect_closed fuel db o0 seen :
  NoDup seen → seen ⊆ o0 :: all_refs db →
  (length (o0 :: all_refs db) < length seen + fuel)%nat →
  ∀ o x, o ∈ collect fuel db seen →
         x ∈ related_objects db o → x ∈ collect fuel db seen.
Proof.
  revert seen. induction fuel as [|fuel IH]; intros seen Hnd Hsub Hlen.
  - exfalso. apply NoDup_submseteq in Hsub; [|done].
    apply submseteq_length in Hsub. lia.
  - simpl.
    set (found := seen ≫= related_objects db).
    destruct (remove_dups (filter (λ o, o ∉ seen) found)) as [|n new] eqn:Hnew.
    + intros o x Ho Hx.
      destruct (decide (x ∈ seen)) as [|Hnot]; [done|exfalso].
      assert (x ∈ remove_dups (filter (λ o, o ∉ seen) found)) as Hin.
      { apply elem_of_remove_dups, list_elem_of_filter. split; [done|].
        apply list_elem_of_bind. by exists o. }
      rewrite Hnew in Hin. by apply elem_of_nil in Hin.
    + assert (∀ y, y ∈ n :: new → (y ∉ seen) ∧ (y ∈ found)) as Hprop.
      { intros y. rewrite <-Hnew, elem_of_remove_dups, list_elem_of_filter. done. }
      apply IH.
      * apply NoDup_app. split; [done|]. split.
        -- intros y Hy Hy'. by apply Hprop in Hy' as [? _].
        -- rewrite <-Hnew. apply NoDup_remove_dups.
      * intros y [Hy|Hy]%elem_of_app; [by apply Hsub|].
        apply Hprop in Hy as [_ Hy]. right.
        apply list_elem_of_bind in Hy as (o & Hy & _).
        by eapply related_objects_all_refs.
      * rewrite length_app. simpl in *. lia.
Qed.

Lemma collected_closed db c k o x :
  o ∈ collect (S (length (all_refs db))) db [(cls_name c, k)] →
  x ∈ related_objects db o →
  x ∈ collect (S (length (all_refs db))) db [(cls_name c, k)].
Proof.
  apply (collect_closed _ db (cls_name c, k)).
  - apply NoDup_singleton.
  - intros y ->%list_elem_of_singleton. left.
  - simpl. lia.
Qed.

Lemma delete_Ok db c k db' :
  delete db c k = Ok db' → db' = remove_rows db (collected db c k).
Proof. unfold delete. by intros [= <-]. Qed.

Lemma delete_returns db c k : returns (delete db c k).
Proof. unfold delete. by eexists. Qed.


Lemma collect_keeps fuel db seen o : o ∈ seen → o ∈ collect fuel db seen.
Proof.
  revert seen. induction fuel as [|fuel IH]; intros seen Ho; simpl; [done|].
  destruct (remove_dups _); [done|]. apply IH, elem_of_app. by left.
Qed.

Lemma collected_self db c k : (cls_name c, k) ∈ collected db c k.
Proof.
  unfold collected, with_parents. apply elem_of_app. left.
  apply collect_keeps. left.
Qed.

(** And the object is gone afterwards. *)
Lemma delete_removes db c k db' :
  c ∈ app_models → delete db c k = Ok db' → k ∉ pks db' (cls_name c).
Proof.
  intros Hc ->%delete_Ok. rewrite elem_of_pks.
  intros (r & Hr & Hk). rewrite table_remove_rows in Hr.
  apply list_elem_of_filter in Hr as [Hlive _].
  unfold is_dead in Hlive. rewrite Hk in Hlive.
  apply bool_decide_eq_false in Hlive. apply Hlive.
  apply collected_self.
Qed.

(** * No source can be entered on an empty site *)

Lemma Source_add_raises db data inst :
  table db "Source" = [] → raises (submit db Source inst data).
Proof.
  intros Hempty.
  destruct (empty_values (column "higher_source" data)) eqn:Hv.
  - eapply (submit_raises_blank_not_null _ _ _ _ "higher_source");
      [eapply formfield_named; reflexivity|reflexivity|reflexivity|done].
  - eapply (submit_raises_clean _ _ _ _ ("higher_source", _));
      [eapply formfield_named; reflexivity|].
    apply formfield_clean_dangling; [reflexivity|exact Hv|].
    intros k _. apply not_true_is_false. rewrite exists_pk_true.
    change (from_option id EmptyString (rel_to Source _)) with "Source".
    unfold pks. rewrite Hempty. by intros ?%elem_of_nil.
Qed.

Lemma no_parent_is_Source c : c ∈ app_models → parent c ≠ Some Source.
Proof.
  revert c. apply Forall_forall. by_computation.
Qed.

Lemma submit_keeps_Source_empty db c inst data db' :
  c ∈ app_models → table db "Source" = [] →
  submit db c inst data = Ok db' → table db' "Source" = [].
Proof.
  intros Hc Hempty H.
  destruct (decide (c = Source)) as [->|Hne].
  - by apply raises_not_Ok with (a := db') in H; [|apply Source_add_raises].
  - apply submit_Ok in H as (? & inst' & ? & _ & _ & _ & Hsave).
    apply elem_of_nil_inv. intros r Hr.
    assert (Source ∈ app_models) as HS by by_computation.
    destruct (save_rows _ _ _ _ _ Source r Hc HS Hsave Hr) as [Hold|[[?|Hp] _]].
    + change (cls_name Source) with "Source" in Hold.
      rewrite Hempty in Hold. by apply elem_of_nil in Hold.
    + done.
    + by apply no_parent_is_Source in Hp.
Qed.

(** In every state stored through the admin views, the table of sources
    is empty: the first source would need a higher source. *)
Lemma no_source_is_reachable db : reachable db → table db "Source" = [].
Proof.
  induction 1 as [db H|db c data db' _ IH Hc H|db c k data db' _ IH Hc H
                 |db c k db' _ IH Hc H].
  - apply (H Source). by_computation.
  - apply add_view_Ok in H as (inst & _ & H).
    by eapply submit_keeps_Source_empty.
  - apply change_view_Ok in H as (inst & _ & H).
    by eapply submit_keeps_Source_empty.
  - apply delete_view_Ok in H as [_ ->].
    by rewrite table_remove_rows, IH.
Qed.

(** * Cycles of sources *)

(** A source that is its own higher source is stored by [save]; from
    there the add and change views store two sources that are each
    other's higher source. *)
Lemma cycles_are_stored :
  returns (save examples.db8 Source examples.own_parent) ∧
  Source_higher_source examples.db_source 1 = Some 1%Z ∧
  pks examples.db_sources "Source" = [1; 2]%Z ∧
  Source_higher_source examples.db_sources 1 = Some 2%Z ∧
  Source_higher_source examples.db_sources 2 = Some 1%Z ∧
  ascend examples.db_sources 2 1 = Some 1%Z.
Proof.
  split.
  - destruct (save _ _ _) as [x|e] eqn:H; [by exists x|].
    exfalso. revert H. by_computation.
  - repeat split; by_computation.
Qed.

(** * Ordering *)

Lemma value_le_total a b : value_le a b = true ∨ value_le b a = true.
Proof.
  destruct a, b; simpl; auto.
  - apply String.leb_total.
  - rewrite !bool_decide_eq_true. lia.
  - destruct b, b0; auto.
  - rewrite !bool_decide_eq_true. lia.
Qed.

#[global] Instance row_le_total col : Total (row_le col).
Proof. intros r1 r2. apply value_le_total. Qed.

#[global] Instance row_ge_total col : Total (row_ge col).
Proof. intros r1 r2. apply value_le_total. Qed.

Lemma order_by_Permutation spec rows : order_by spec rows ≡ₚ rows.
Proof.
  unfold order_by. destruct spec as [|a col]; [done|].
  destruct (Ascii.eqb a "-"); apply merge_sort_Permutation.
Qed.

(** The parts [Place.__str__] joins are the parts of the place, in
    descending order of sequence number when the sort order is "D" and
    in ascending order for every other sort order. *)
Lemma Place_str_order db self :
  let parts := order_by (if bool_decide (self !! "sort_order" = Some (VStr "D"))
                         then "-sequence_number" else "sequence_number")
                        (placepart_set db self) in
  Place___str__ db self = names_of parts ≫= (λ names, Ok (String.concat ", " names)) ∧
  parts ≡ₚ placepart_set db self ∧
  if bool_decide (self !! "sort_order" = Some (VStr "D"))
  then Sorted (row_ge "sequence_number") parts
  else Sorted (row_le "sequence_number") parts.
Proof.
  simpl. split; [|split].
  - unfold Place___str__. by case_bool_decide.
  - apply order_by_Permutation.
  - case_bool_decide; simpl; apply (Sorted_merge_sort _).
Qed.

(** * The general statements at the sample site *)

Lemma constructors_lose_typecode_witness :
  ∃ o, construct AdministrativeTask [] ∅ = Ok o ∧
       o !! "typecode" = Some (VStr EmptyString).
Proof.
  destruct (construct AdministrativeTask [] ∅) as [o|e] eqn:H;
    [|exfalso; revert H; by_computation].
  exists o. split; [reflexivity|].
  exact (constructors_lose_typecode AdministrativeTask [] ∅ o
           (or_introl eq_refl) H).
Defined.

Lemma Place_str_county_state_witness :
  table (examples.db8_with "N") "Place" = [examples.place_row "N"] ∧
  table (examples.db8_with "N") "PlacePart"
    = [examples.county_row; examples.state_row] ∧
  Place___str__ (examples.db8_with "N") (examples.place_row "N")
    = Ok "State, County".
Proof.
  split; [by_computation|]. split; [by_computation|].
  rewrite (Place_str_county_state (examples.db8_with "N")
             (examples.place_row "N") examples.county_row examples.state_row);
    [reflexivity|by_computation|reflexivity..].
Defined.

Lemma no_source_is_reachable_witness :
  table examples.db8 "Source" = [] ∧ pks examples.db8 "Place" = [1%Z].
Proof.
  split; [|by_computation].
  exact (no_source_is_reachable examples.db8 db8_reachable).
Defined.


Lemma delete_removes_witness :
  ∃ db', delete examples.db8 Place 1 = Ok db' ∧ 1%Z ∉ pks db' "Place".
Proof.
  destruct (delete_returns examples.db8 Place 1) as [db' H].
  exists db'. split; [exact H|].
  apply (delete_removes examples.db8 Place 1 db'); [by_computation|exact H].
Defined.

(** * Fetching a stored object *)

(** With as many positional arguments as the class has fields, the
    first loop of [Model.__init__] assigns every field and leaves
    nothing to the second. *)
Lemma init_positional_all fs (g : string * Field → value) self kw :
  init_positional fs (map g fs) self kw =
  (foldl (λ s nf, setattr s (attname nf.1 nf.2) (g nf)) self fs,
   foldl (λ k nf, base.delete (attname nf.1 nf.2) (base.delete nf.1 k)) kw fs, []).
Proof.
  revert self kw. induction fs as [|[n f] fs IH]; intros self kw; simpl;
    [done|]. apply IH.
Qed.

Lemma foldl_delete_empty (fs : list (string * Field)) :
  foldl (λ (k : dict) nf, base.delete (attname nf.1 nf.2) (base.delete nf.1 k)) ∅ fs = ∅.
Proof. induction fs as [|nf fs IH]; simpl; [done|]. by rewrite !delete_empty. Qed.

Lemma foldl_setattr_other fs (g : string * Field → value) self a :
  a ∉ (λ nf, attname nf.1 nf.2) <$> fs →
  foldl (λ s nf, setattr s (attname nf.1 nf.2) (g nf)) self fs !! a = self !! a.
Proof.
  revert self. induction fs as [|nf fs IH]; intros self Ha; simpl; [done|].
  rewrite fmap_cons in Ha. apply not_elem_of_cons in Ha as [Hne Ha].
  rewrite IH by done. unfold setattr. by rewrite lookup_insert_ne.
Qed.

Lemma foldl_setattr_lookup fs (g : string * Field → value) self nf :
  NoDup ((λ nf, attname nf.1 nf.2) <$> fs) → nf ∈ fs →
  foldl (λ s nf, setattr s (attname nf.1 nf.2) (g nf)) self fs
    !! attname nf.1 nf.2 = Some (g nf).
Proof.
  revert self. induction fs as [|nf' fs IH]; intros self Hnd Hin;
    [by apply elem_of_nil in Hin|].
  rewrite fmap_cons in Hnd. apply NoDup_cons in Hnd as [Hnotin Hnd].
  simpl. apply elem_of_cons in Hin as [->|Hin].
  - rewrite foldl_setattr_other by done. unfold setattr.
    by rewrite lookup_insert_eq.
  - by apply IH.
Qed.

(** The schema: no two fields of a class keep their value under the
    same attribute. *)
Lemma attnames_NoDup c :
  c ∈ app_models → NoDup ((λ nf, attname nf.1 nf.2) <$> fields c).
Proof.
  revert c. apply Forall_forall. apply (bool_decide_unpack _). by vm_compute.
Qed.

Lemma typecode_is_field c :
  c = AdministrativeTask ∨ c = Search →
  "typecode" ∈ (λ nf, attname nf.1 nf.2) <$> fields c.
Proof. intros [->| ->]; apply (bool_decide_unpack _); by vm_compute. Qed.

Lemma Model_init_all c self (g : string * Field → value) :
  Model___init__ c self (map g (fields c)) ∅ =
  Ok (foldl (λ s nf, setattr s (attname nf.1 nf.2) (g nf)) self (fields c)).
Proof.
  unfold Model___init__. rewrite length_map.
  rewrite bool_decide_eq_false_2 by lia.
  rewrite init_positional_all, foldl_delete_empty. simpl.
  rewrite lookup_empty, delete_empty. by rewrite bool_decide_eq_true_2.
Qed.

(** A class called with one value for each of its fields, in order:
    the instance holds each value under its field's attribute, and
    nothing else. *)
Lemma construct_all c (g : string * Field → value) :
  c ∈ app_models →
  ∃ inst, construct c (map g (fields c)) ∅ = Ok inst ∧
    (∀ nf, nf ∈ fields c → inst !! attname nf.1 nf.2 = Some (g nf)) ∧
    (∀ a, a ∉ (λ nf, attname nf.1 nf.2) <$> fields c → inst !! a = None).
Proof.
  intros Hc. pose proof (attnames_NoDup c Hc) as Hnd.
  assert (∀ self,
    (∀ a, a ∉ (λ nf, attname nf.1 nf.2) <$> fields c → self !! a = None) →
    ∃ inst, Model___init__ c self (map g (fields c)) ∅ = Ok inst ∧
      (∀ nf, nf ∈ fields c → inst !! attname nf.1 nf.2 = Some (g nf)) ∧
      (∀ a, a ∉ (λ nf, attname nf.1 nf.2) <$> fields c → inst !! a = None))
    as Hgen.
  { intros self Hself. eexists. split; [apply Model_init_all|]. split.
    - intros nf Hnf. by apply foldl_setattr_lookup.
    - intros a Ha. rewrite foldl_setattr_other by done. by apply Hself. }
  assert (∀ c', c' = AdministrativeTask ∨ c' = Search → c = c' →
    ∀ v a, a ∉ (λ nf, attname nf.1 nf.2) <$> fields c →
           setattr (∅ : dict) "typecode" v !! a = None) as Hpre.
  { intros c' Hc' -> v a Ha. unfold setattr. rewrite lookup_insert_ne.
    - apply lookup_empty.
    - intros <-. by apply Ha, typecode_is_field. }
  unfold construct. repeat case_bool_decide.
  - assert (c = AdministrativeTask) as Heq
      by (apply app_model_by_name; [done|by_computation|done]).
    unfold AdministrativeTask___init__. rewrite <- Heq. apply Hgen.
    apply (Hpre AdministrativeTask); auto.
  - assert (c = Search) as Heq
      by (apply app_model_by_name; [done|by_computation|done]).
    unfold Search___init__. rewrite <- Heq. apply Hgen.
    apply (Hpre Search); auto.
  - apply Hgen. intros a _. apply lookup_empty.
Qed.

Lemma get_joined db c k r :
  c ∈ app_models → joined_row db c k = Some r →
  ∃ inst, get db c k = Ok inst ∧
    (∀ nf, nf ∈ fields c →
       inst !! attname nf.1 nf.2 = Some (column (attname nf.1 nf.2) r)) ∧
    (∀ a, a ∉ (λ nf, attname nf.1 nf.2) <$> fields c → inst !! a = None).
Proof.
  intros Hc Hr. unfold get. rewrite Hr.
  apply (construct_all c (λ nf, from_option id VNone (r !! attname nf.1 nf.2)) Hc).
Qed.

Lemma get_Ok db c k inst :
  get db c k = Ok inst → ∃ r, joined_row db c k = Some r.
Proof. unfold get. destruct (joined_row db c k); [eauto|discriminate]. Qed.

Lemma find_row_None db name k :
  k ∉ pks db name → find_row db name k = None.
Proof.
  intros Hk. destruct (find_row db name k) as [r|] eqn:Hr; [|done].
  apply find_row_Some in Hr as [Hr Hpk]. exfalso. apply Hk.
  apply elem_of_pks. eauto.
Qed.

Lemma find_row_is_Some db name k :
  k ∈ pks db name → is_Some (find_row db name k).
Proof.
  intros (r & Hr & Hk)%elem_of_pks. unfold find_row.
  destruct (filter _ _) as [|x l] eqn:Hf; [|by eexists].
  assert (r ∈ filter (λ r, row_pk name r = Some k) (table db name)) as Hin
    by by apply list_elem_of_filter.
  rewrite Hf in Hin. by apply elem_of_nil in Hin.
Qed.

Lemma joined_row_Some db c k r :
  joined_row db c k = Some r → k ∈ pks db (cls_name c).
Proof.
  unfold joined_row. destruct (find_row db (cls_name c) k) as [x|] eqn:Hx;
    [|discriminate]. intros _. apply find_row_Some in Hx as [? ?].
  apply elem_of_pks. eauto.
Qed.

(** In a state with referential integrity the row of a subclass finds
    its parent row. *)
Lemma joined_row_is_Some db c k :
  c ∈ app_models → referential_integrity db →
  k ∈ pks db (cls_name c) → is_Some (joined_row db c k).
Proof.
  intros Hc Hri Hk. unfold joined_row.
  destruct (find_row_is_Some _ _ _ Hk) as [r Hr]. rewrite Hr. simpl.
  destruct (parent c) as [p|] eqn:Hp; [|by eexists].
  destruct (subclasses_declare_link c p Hc Hp) as (ln & lf & Hl & Hpk & Hto).
  rewrite Hl. apply find_row_Some in Hr as [Hr _].
  assert ((ln, lf) ∈ local_fields c) as Hlf.
  { unfold parent_link_of in Hl. apply head_Some_elem_of in Hl.
    by apply list_elem_of_filter in Hl as [_ ?]. }
  assert (is_relation lf = true ∧ field_null lf = false) as [Hrel Hnull].
  { clear -Hc Hl. revert c Hc ln lf Hl.
    cut (Forall (λ c, from_option (λ nf, is_relation nf.2 && negb (field_null nf.2))
                        true (parent_link_of c) = true) app_models).
    { intros H c Hc ln lf Hl. rewrite Forall_forall in H.
      specialize (H c Hc). rewrite Hl in H. simpl in H.
      apply andb_true_iff in H as [? ?%negb_true_iff]. done. }
    apply (bool_decide_unpack _). by vm_compute. }
  destruct (Hri c ln lf r Hc Hlf Hrel Hr) as [[Hn _]|(j & Hj & Hin)];
    [congruence|].
  rewrite Hto in Hin. simpl in Hin. rewrite Hj. simpl.
  destruct (find_row_is_Some _ _ _ Hin) as [pr ->]. by eexists.
Qed.

(** * What a form leaves on the instance *)

Lemma clean_form_fields db c data fs cleaned :
  clean_form db c data fs = Ok cleaned → cleaned.*1 = fs.
Proof.
  revert cleaned. induction fs as [|nf fs IH]; intros cleaned H; simpl in H.
  - by injection H as <-.
  - inv_bind H. subst cleaned. simpl. f_equal. by apply IH.
Qed.

Lemma string_app_length (s1 s2 : string) :
  String.length (s1 +:+ s2) = (String.length s1 + String.length s2)%nat.
Proof. induction s1 as [|a s1 IH]; simpl; [done|]. by rewrite IH. Qed.

Lemma cache_is_not_attname n n' f : attname n f ≠ "_" +:+ n' +:+ "_cache" ∨ n ≠ n'.
Proof.
  destruct (decide (n = n')) as [<-|]; [left|by right].
  intros Heq. apply (f_equal String.length) in Heq. unfold attname in Heq.
  destruct (is_relation f); rewrite ?string_app_length in Heq;
    simpl in Heq; rewrite ?string_app_length in Heq; simpl in Heq; lia.
Qed.

Lemma related_set_lookup c n f self v self' :
  is_relation f = true → related_set c n f self v = Ok self' →
  self' !! attname n f = Some (form_value f v).
Proof.
  intros Hrel.
  destruct (cache_is_not_attname n n f) as [Hne|]; [|done].
  unfold related_set, setattr, form_value in *. rewrite Hrel.
  intros H. repeat case_match; simplify_eq; rewrite lookup_insert_ne by done;
    by rewrite lookup_insert_eq.
Qed.

(** The attribute of a cleaned field after [construct_instance], when
    no later field of the form assigns to it. *)
Lemma construct_instance_at c inst pre n f v post inst' :
  Forall (λ x, attname n f ≠ x.1.1 ∧ attname n f ≠ attname x.1.1 x.1.2 ∧
               attname n f ≠ "_" +:+ x.1.1 +:+ "_cache") post →
  construct_instance c inst (pre ++ (n, f, v) :: post) = Ok inst' →
  inst' !! attname n f = Some (form_value f v).
Proof.
  intros Hpost. revert inst.
  induction pre as [|[[n0 f0] v0] pre IH]; intros inst; simpl.
  - intros H. inv_bind H.
    rewrite (construct_instance_frame _ _ _ _ _ Hpost H).
    destruct (is_relation f) eqn:Hrel.
    + by eapply related_set_lookup.
    + injection Ha as <-. unfold setattr, attname, form_value.
      rewrite Hrel. by rewrite lookup_insert_eq.
  - intros H. inv_bind H. by eapply IH.
Qed.

(** The schema: on every form, a field's attribute is assigned by that
    field alone. *)
Lemma formfields_separate c :
  c ∈ app_models →
  NoDup ((λ nf, attname nf.1 nf.2) <$> formfields c) ∧
  Forall (λ nf, Forall (λ x,
            attname nf.1 nf.2 ≠ "_" +:+ x.1 +:+ "_cache" ∧
            (is_relation x.2 = true → attname nf.1 nf.2 ≠ x.1))
          (formfields c)) (formfields c).
Proof.
  revert c. apply Forall_forall. apply (bool_decide_unpack _). by vm_compute.
Qed.

Lemma submit_instance db c data cleaned inst inst' n f :
  c ∈ app_models →
  clean_form db c data (formfields c) = Ok cleaned →
  construct_instance c inst cleaned = Ok inst' →
  (n, f) ∈ formfields c →
  ∃ v, formfield_clean db c (n, f) (column n data) = Ok v ∧
       inst' !! attname n f = Some (form_value f v).
Proof.
  intros Hc Hcl Hci Hin.
  destruct (clean_form_elem _ _ _ _ _ _ Hcl Hin) as (v & Hv & Hel).
  exists v. split; [done|].
  apply list_elem_of_split in Hel as (pre & post & ->).
  apply clean_form_fields in Hcl. rewrite fmap_app, fmap_cons in Hcl.
  simpl in Hcl.
  destruct (formfields_separate c Hc) as [Hnd Hsep].
  rewrite <-Hcl in Hnd, Hsep.
  rewrite fmap_app, fmap_cons in Hnd. apply NoDup_app in Hnd as (_ & _ & Hnd).
  apply NoDup_cons in Hnd as [Hnotin _]. simpl in Hnotin.
  rewrite Forall_app, Forall_cons in Hsep. destruct Hsep as (_ & Hsep & _).
  simpl in Hsep. rewrite Forall_app, Forall_cons in Hsep.
  destruct Hsep as (_ & _ & Hsep).
  eapply construct_instance_at; [|exact Hci].
  apply Forall_forall. intros [[n1 f1] v1] Hx. simpl.
  assert ((n1, f1) ∈ post.*1) as Hx1.
  { apply list_elem_of_fmap. by exists (n1, f1, v1). }
  rewrite Forall_forall in Hsep. destruct (Hsep _ Hx1) as [Hcache Hname].
  simpl in *.
  assert (attname n f ≠ attname n1 f1) as Hatt.
  { intros Heq. apply Hnotin. apply list_elem_of_fmap.
    by exists (n1, f1). }
  split; [|done]. destruct (is_relation f1) eqn:Hr1; [by apply Hname|].
  unfold attname in Hatt at 2. by rewrite Hr1 in Hatt.
Qed.

(** * Keys that are and are not stored *)

Lemma joined_row_inv db c k r :
  joined_row db c k = Some r →
  ∃ row, find_row db (cls_name c) k = Some row ∧
    (r = row ∨
     ∃ p ln lf j pr, parent c = Some p ∧ parent_link_of c = Some (ln, lf) ∧
       row !! attname ln lf = Some (VInt j) ∧
       find_row db (cls_name p) j = Some pr ∧ r = row ∪ pr).
Proof.
  unfold joined_row.
  destruct (find_row db (cls_name c) k) as [row|]; [simpl|discriminate].
  intros H. exists row. split; [done|].
  destruct (parent c) as [p|]; [|left; by injection H].
  destruct (parent_link_of c) as [[ln lf]|]; [|left; by injection H].
  destruct (row !! attname ln lf) as [[| |j| | |]|] eqn:Hj; try discriminate.
  simpl in H. destruct (find_row db (cls_name p) j) as [pr|] eqn:Hpr;
    [|discriminate]. injection H as <-. right. by exists p, ln, lf, j, pr.
Qed.

Lemma row_pk_lookup c row k :
  c ∈ app_models → row_pk (cls_name c) row = Some k →
  row !! pk_attname c = Some (VInt k).
Proof.
  intros Hc. unfold row_pk. rewrite pk_column_app by done.
  destruct (row !! pk_attname c) as [[| |j| | |]|]; simpl; try discriminate.
  by intros [= ->].
Qed.

Lemma joined_row_pk db c k r :
  c ∈ app_models → joined_row db c k = Some r →
  r !! pk_attname c = Some (VInt k).
Proof.
  intros Hc (row & Hrow & Hr)%joined_row_inv.
  apply find_row_Some in Hrow as [_ Hpk].
  apply (row_pk_lookup c row k Hc) in Hpk.
  destruct Hr as [->|(p & ln & lf & j & pr & _ & _ & _ & _ & ->)]; [done|].
  by apply lookup_union_Some_l.
Qed.

(** The schema: the key of a class is one of its fields. *)
Lemma pk_is_field c :
  c ∈ app_models →
  ∃ nf, nf ∈ fields c ∧ attname nf.1 nf.2 = pk_attname c.
Proof.
  revert c. apply Forall_forall.
  cut (Forall (λ c, Exists (λ nf, attname nf.1 nf.2 = pk_attname c) (fields c))
              app_models).
  { intros H. eapply Forall_impl; [exact H|].
    intros c (nf & ? & ?)%Exists_exists. eauto. }
  apply (bool_decide_unpack _). by vm_compute.
Qed.

(** A key that is not in the table: [get] raises [DoesNotExist], and
    the change and the delete view answer [Http404] whatever the form
    holds. *)
Lemma absent_key_is_not_found db c k data :
  k ∉ pks db (cls_name c) →
  get db c k = Raise DoesNotExist ∧
  change_view db c k data = Raise Http404 ∧
  delete_view db c k = Raise Http404.
Proof.
  intros Hk.
  assert (get db c k = Raise DoesNotExist) as Hget.
  { unfold get, joined_row. by rewrite find_row_None. }
  unfold change_view, delete_view, get_object. by rewrite Hget.
Qed.

(** * Tables that stay empty *)

(** A form with a relational field that is not nullable cannot be
    saved while the field's target has no rows. *)
Lemma submit_raises_no_target db c inst data n f :
  (n, f) ∈ formfields c → is_relation f = true → field_null f = false →
  table db (from_option id EmptyString (rel_to c f)) = [] →
  raises (submit db c inst data).
Proof.
  intros Hin Hrel Hnull Hempty.
  destruct (empty_values (column n data)) eqn:He.
  - destruct (field_blank f) eqn:Hb.
    + by eapply submit_raises_blank_not_null.
    + by eapply submit_raises_required.
  - apply (submit_raises_clean _ _ _ _ (n, f)); [done|].
    apply formfield_clean_dangling; [done..|].
    intros k _. unfold exists_pk, pks. by rewrite Hempty.
Qed.

(** The schema: each class of the list below has a required reference
    to a class of the list, and none of them is a parent. *)
Lemma needs_one_of_them c :
  c ∈ app_models →
  cls_name c ∈ ["Source"; "Representation"; "CitationPart"; "Assertion";
                "AssertionAssertion"; "RepositorySource"; "Search"] →
  ∃ n f, (n, f) ∈ formfields c ∧ is_relation f = true ∧
         field_null f = false ∧
         from_option id EmptyString (rel_to c f)
           ∈ ["Source"; "Representation"; "CitationPart"; "Assertion";
              "AssertionAssertion"; "RepositorySource"; "Search"].
Proof.
  revert c. refine (proj1 (Forall_forall _ _) _).
  cut (Forall (λ c,
         cls_name c ∈ ["Source"; "Representation"; "CitationPart"; "Assertion";
                       "AssertionAssertion"; "RepositorySource"; "Search"] →
         Exists (λ nf, is_relation nf.2 = true ∧ field_null nf.2 = false ∧
                       from_option id EmptyString (rel_to c nf.2)
                         ∈ ["Source"; "Representation"; "CitationPart";
                            "Assertion"; "AssertionAssertion";
                            "RepositorySource"; "Search"])
                (formfields c)) app_models).
  { intros H0. eapply Forall_impl; [exact H0|]. intros c H Hin.
    specialize (H Hin). apply Exists_exists in H as ([n f] & ? & ? & ? & ?).
    eauto 10. }
  apply (bool_decide_unpack _). by vm_compute.
Qed.

Lemma none_of_them_is_a_base c :
  c ∈ app_models →
  cls_base c ∉ ["Source"; "Representation"; "CitationPart"; "Assertion";
                "AssertionAssertion"; "RepositorySource"; "Search"].
Proof.
  revert c. apply Forall_forall. apply (bool_decide_unpack _). by vm_compute.
Qed.

Lemma they_are_models T :
  T ∈ ["Source"; "Representation"; "CitationPart"; "Assertion";
       "AssertionAssertion"; "RepositorySource"; "Search"] →
  ∃ c, c ∈ app_models ∧ cls_name c = T.
Proof.
  revert T. apply Forall_forall.
  cut (Forall (λ T, is_Some (get_model T))
         ["Source"; "Representation"; "CitationPart"; "Assertion";
          "AssertionAssertion"; "RepositorySource"; "Search"]).
  { intros H. eapply Forall_impl; [exact H|].
    intros T [c Hc]. apply get_model_Some in Hc. eauto. }
  apply (bool_decide_unpack _). by vm_compute.
Qed.

Lemma submit_keeps_them_empty db c inst data db' :
  c ∈ app_models → submit db c inst data = Ok db' →
  (∀ T, T ∈ ["Source"; "Representation"; "CitationPart"; "Assertion";
             "AssertionAssertion"; "RepositorySource"; "Search"] →
        table db T = []) →
  ∀ T, T ∈ ["Source"; "Representation"; "CitationPart"; "Assertion";
            "AssertionAssertion"; "RepositorySource"; "Search"] →
       table db' T = [].
Proof.
  intros Hc H Hempty T HT.
  destruct (decide (cls_name c ∈
    ["Source"; "Representation"; "CitationPart"; "Assertion";
     "AssertionAssertion"; "RepositorySource"; "Search"])) as [Hin|Hout].
  - exfalso. destruct (needs_one_of_them c Hc Hin)
      as (n & f & Hf & Hrel & Hnull & Htgt).
    apply (raises_not_Ok (submit db c inst data) db'); [|done].
    eapply submit_raises_no_target; [done..|]. by apply Hempty.
  - apply submit_Ok in H as (cleaned & inst' & inst'' & _ & _ & _ & Hsave).
    destruct (they_are_models T HT) as (c0 & Hc0 & <-).
    apply elem_of_nil_inv. intros r Hr.
    destruct (save_rows _ _ _ _ _ _ _ Hc Hc0 Hsave Hr) as [Hold|[[->|Hp] _]].
    + rewrite (Hempty _ HT) in Hold. by apply elem_of_nil in Hold.
    + done.
    + apply (none_of_them_is_a_base c Hc).
      unfold parent in Hp. apply get_model_Some in Hp as [_ Hname].
      by rewrite <-Hname.
Qed.

Lemma reachable_keeps_them_empty db T :
  reachable db →
  T ∈ ["Source"; "Representation"; "CitationPart"; "Assertion";
       "AssertionAssertion"; "RepositorySource"; "Search"] →
  table db T = [].
Proof.
  intros Hreach. revert T.
  induction Hreach as [db H|db c data db' _ IH Hc H|db c k data db' _ IH Hc H
                      |db c k db' _ IH Hc H].
  - intros T HT. destruct (they_are_models T HT) as (c & Hc & <-). by apply H.
  - apply add_view_Ok in H as (inst & _ & H).
    by eapply submit_keeps_them_empty.
  - apply change_view_Ok in H as (inst & _ & H).
    by eapply submit_keeps_them_empty.
  - apply delete_view_Ok in H as [_ ->].
    intros T HT. by rewrite table_remove_rows, IH.
Qed.

(** In every state stored through the admin views seven tables are
    empty: a source needs a higher source, a representation, a
    citation part and an assertion need a source, a link between
    assertions needs assertions, and a search and the entry of a source
    in a repository need each other. *)
Lemma dependent_tables_stay_empty db :
  reachable db →
  Forall (λ T, table db T = [])
         ["Source"; "Representation"; "CitationPart"; "Assertion";
          "AssertionAssertion"; "RepositorySource"; "Search"].
Proof.
  intros Hreach. apply Forall_forall. intros T.
  by apply reachable_keeps_them_empty.
Qed.

(** * Forms that are refused *)









(** * [blank=True] without [null=True] *)

Lemma subclass_fields c p :
  parent c = Some p → fields c = local_fields p ++ local_fields c.
Proof. unfold fields. by intros ->. Qed.

Lemma root_fields c : parent c = None → fields c = local_fields c.
Proof. unfold fields. by intros ->. Qed.

(** [Model.save] on an instance that holds [None] for a field that is
    not nullable raises. *)
Lemma save_raises_null db c inst n f :
  c ∈ app_models → (n, f) ∈ fields c → field_null f = false →
  attname n f ∉ key_attrs c → column (attname n f) inst = VNone →
  raises (save db c inst).
Proof.
  intros Hc Hin Hnull Hkey Hcol. unfold save.
  destruct (parent c) as [p|] eqn:Hp.
  - destruct (subclasses_declare_link c p Hc Hp) as (ln & lf & Hl & _ & _).
    rewrite Hl. unfold key_attrs in Hkey. rewrite Hp, Hl in Hkey.
    rewrite !not_elem_of_cons in Hkey. destruct Hkey as (Hk1 & Hk2 & Hk3 & _).
    set (inst0 := match inst !! pk_attname p with
                  | Some VNone | None =>
                      match inst !! attname ln lf with
                      | Some (VInt k0) => setattr inst (pk_attname p) (VInt k0)
                      | _ => inst
                      end
                  | _ => inst
                  end).
    assert (H0 : column (attname n f) inst0 = VNone).
    { rewrite <-Hcol. subst inst0. repeat case_match; try done;
        by apply column_setattr_ne. }
    clearbody inst0.
    rewrite (subclass_fields c p Hp) in Hin.
    apply elem_of_app in Hin as [Hin|Hin].
    + apply raises_bind_l. by eapply save_table_raises_null.
    + apply raises_bind_r. intros [db1 k] _. apply raises_bind_l.
      eapply save_table_raises_null; [done..|].
      by rewrite !column_setattr_ne.
  - rewrite (root_fields c Hp) in Hin.
    assert (raises (save_table db c inst)) as Hr.
    { eapply save_table_raises_null; [done..| |done].
      unfold key_attrs in Hkey. by apply not_elem_of_cons in Hkey as [? _]. }
    destruct (parent_link_of c) as [[??]|]; by apply raises_bind_l.
Qed.

(** The schema: the attribute of a form field is none of those that
    saving assigns. *)
Lemma formfields_plain c nf :
  c ∈ app_models → nf ∈ formfields c →
  (attname nf.1 nf.2 ∉ key_attrs c) ∧ nf ∈ fields c.
Proof.
  intros Hc Hin. split.
  - revert nf Hin. apply Forall_forall. revert c Hc. apply Forall_forall.
    apply (bool_decide_unpack _). by vm_compute.
  - unfold formfields in Hin. by apply list_elem_of_filter in Hin as [_ ?].
Qed.

(** A field declared [blank=True] and not [null=True] that is neither a
    text nor a boolean field: the form accepts the empty value, and the
    object is never saved; both views raise. *)
Lemma blank_without_null_is_refused db c data n f :
  c ∈ app_models → (n, f) ∈ formfields c →
  field_blank f = true → field_null f = false → empty_value f = VNone →
  empty_values (column n data) = true →
  formfield_clean db c (n, f) (column n data) = Ok VNone ∧
  raises (add_view db c data) ∧ ∀ k, raises (change_view db c k data).
Proof.
  intros Hc Hin Hb Hnull Hev He.
  assert (formfield_clean db c (n, f) (column n data) = Ok VNone) as Hclean.
  { unfold formfield_clean. by rewrite He, Hb, Hev. }
  split; [done|]. apply view_raises. intros inst.
  destruct (is_relation f) eqn:Hrel;
    [by eapply submit_raises_blank_not_null|].
  unfold submit.
  destruct (clean_form _ _ _ _) as [cleaned|e] eqn:Hcl;
    [|apply raises_bind_r; intros _ _; apply Raise_raises].
  apply raises_bind_r. intros inst' Hci.
  apply raises_bind_r. intros _ _. apply raises_bind_l.
  destruct (submit_instance db c data cleaned inst inst' n f Hc Hcl Hci Hin)
    as (v & Hv & Hattr).
  rewrite Hclean in Hv. injection Hv as <-.
  destruct (formfields_plain c (n, f) Hc Hin) as [Hkey Hf].
  eapply save_raises_null; [done..|].
  unfold column. rewrite Hattr. unfold form_value. by rewrite Hrel.
Qed.

(** * Keywords that name no field *)

Lemma init_positional_kwargs fs args self kw self' kw' rest :
  init_positional fs args self kw = (self', kw', rest) →
  (∀ a, kw !! a = None → kw' !! a = None) ∧
  (∀ a, Forall (λ nf, a ≠ nf.1 ∧ a ≠ attname nf.1 nf.2) fs →
        kw' !! a = kw !! a) ∧
  ∃ pre, fs = pre ++ rest.
Proof.
  revert args self kw. induction fs as [|[n f] fs IH]; intros args self kw.
  - destruct args; intros [= <- <- <-]; (split; [done|]);
      (split; [done|by exists []]).
  - destruct args as [|v args]; simpl.
    + intros [= <- <- <-]. split; [done|]. split; [done|by exists []].
    + intros H. apply IH in H as (Hnone & Hsame & pre & ->).
      split; [|split].
      * intros a Ha. apply Hnone.
        rewrite lookup_delete_None. right.
        rewrite lookup_delete_None. by right.
      * intros a Ha. apply Forall_cons in Ha as [[Hn Hat] Ha]. simpl in *.
        rewrite Hsame by done. by rewrite !lookup_delete_ne.
      * by exists ((n, f) :: pre).
Qed.

(** Without a keyword that names a relational field, the second loop
    of [Model.__init__] raises nothing. *)
Lemma init_remaining_returns c fs self kw :
  Forall (λ nf, is_relation nf.2 = true → kw !! nf.1 = None) fs →
  returns (init_remaining c fs self kw).
Proof.
  revert self kw. induction fs as [|[n f] fs IH]; intros self kw Hkw; simpl.
  - by eexists.
  - apply Forall_cons in Hkw as [Hn Hkw]. simpl in Hn.
    assert (∀ a, Forall (λ nf, is_relation nf.2 = true →
                               base.delete a kw !! nf.1 = None) fs) as Hdel.
    { intros a. eapply Forall_impl; [exact Hkw|]. intros nf H Hrel.
      rewrite lookup_delete_None. right. auto. }
    destruct (is_relation f) eqn:Hrel; [rewrite Hn by done|]; by apply IH.
Qed.

(** A keyword that names neither a field, nor the attribute of a field,
    nor [pk]: the constructor raises, and when nothing else is wrong
    with the call it raises [TypeError]. *)
Lemma unknown_keyword_raises c args kwargs k v :
  c ∈ app_models → kwargs !! k = Some v → k ≠ "pk" →
  Forall (λ nf, k ≠ nf.1 ∧ k ≠ attname nf.1 nf.2) (fields c) →
  raises (construct c args kwargs) ∧
  ((length args ≤ length (fields c))%nat →
   Forall (λ nf, is_relation nf.2 = true → kwargs !! nf.1 = None) (fields c) →
   construct c args kwargs = Raise TypeError).
Proof.
  intros Hc Hk Hpk Hfs.
  assert (∀ self,
    raises (Model___init__ c self args kwargs) ∧
    ((length args ≤ length (fields c))%nat →
     Forall (λ nf, is_relation nf.2 = true → kwargs !! nf.1 = None) (fields c) →
     Model___init__ c self args kwargs = Raise TypeError)) as Hgen.
  { intros self. unfold Model___init__.
    case_bool_decide as Hlen; [split; [apply Raise_raises|lia]|].
    destruct (init_positional (fields c) args self kwargs)
      as [[s1 k1] rest] eqn:Hpos.
    apply init_positional_kwargs in Hpos as (Hnone & Hsame & pre & Hsplit).
    assert (Forall (λ nf, k ≠ nf.1 ∧ k ≠ attname nf.1 nf.2) rest) as Hrest.
    { rewrite Hsplit in Hfs. by apply Forall_app in Hfs as [_ ?]. }
    assert (∀ s2 k2, init_remaining c rest s1 k1 = Ok (s2, k2) →
              bool_decide (base.delete "pk" k2 = ∅) = false) as Hleft.
    { intros s2 k2 H2. apply bool_decide_eq_false_2. intros Hempty.
      assert (base.delete "pk" k2 !! k = Some v) as Hv.
      { rewrite lookup_delete_ne by done.
        rewrite (init_remaining_kwargs _ _ _ _ _ _ k Hrest H2).
        by rewrite Hsame. }
      rewrite Hempty in Hv. by rewrite lookup_empty in Hv. }
    split.
    - destruct (init_remaining c rest s1 k1) as [[s2 k2]|e] eqn:H2; simpl;
        [|apply Raise_raises].
      rewrite (Hleft s2 k2) by done. apply Raise_raises.
    - intros _ Hrel.
      destruct (init_remaining_returns c rest s1 k1) as [[s2 k2] H2].
      { rewrite Hsplit in Hrel. apply Forall_app in Hrel as [_ Hrel].
        eapply Forall_impl; [exact Hrel|]. intros nf H Hr. auto. }
      rewrite H2. simpl. by rewrite (Hleft s2 k2). }
  unfold construct, AdministrativeTask___init__, Search___init__.
  repeat case_bool_decide.
  - assert (c = AdministrativeTask) as Heq
      by (apply app_model_by_name; [done|by_computation|done]).
    rewrite <-Heq. apply Hgen.
  - assert (c = Search) as Heq
      by (apply app_model_by_name; [done|by_computation|done]).
    rewrite <-Heq. apply Hgen.
  - apply Hgen.
Qed.

(** * Unique columns *)

Lemma unique_ok_Forall others r fs :
  unique_ok others r fs = Ok () →
  Forall (λ nf, field_unique nf.2 = true →
                ∀ o, o ∈ others →
                  ¬ (o !! attname nf.1 nf.2 = r !! attname nf.1 nf.2 ∧
                     r !! attname nf.1 nf.2 ≠ Some VNone)) fs.
Proof.
  induction fs as [|nf fs IH]; simpl; [constructor|]. intros H.
  destruct (field_unique nf.2 && _) eqn:E; [discriminate|].
  constructor; [|auto]. intros Hu o Ho Hboth. rewrite Hu in E. simpl in E.
  apply bool_decide_eq_false in E. apply E, Exists_exists. eauto.
Qed.

Lemma column_ok_not_null r nf :
  field_null nf.2 = false → column_ok r nf = Ok () →
  ∃ v, r !! attname nf.1 nf.2 = Some v ∧ v ≠ VNone.
Proof.
  intros Hnull. unfold column_ok. rewrite Hnull.
  destruct (r !! attname nf.1 nf.2) as [[| | | | |]|]; try discriminate;
    intros _; eexists; (split; [done|discriminate]).
Qed.

(** The schema: a unique column is never nullable. *)
Lemma unique_not_null c nf :
  c ∈ app_models → nf ∈ local_fields c → field_unique nf.2 = true →
  field_null nf.2 = false.
Proof.
  intros Hc. revert nf. refine (proj1 (Forall_forall _ _) _). revert c Hc.
  apply Forall_forall. apply (bool_decide_unpack _). by vm_compute.
Qed.

(** The schema: the key of a class is a unique column of its table. *)
Lemma pk_is_unique c :
  c ∈ app_models →
  ∃ nf, nf ∈ local_fields c ∧ attname nf.1 nf.2 = pk_attname c ∧
        field_unique nf.2 = true.
Proof.
  revert c. apply Forall_forall.
  cut (Forall (λ c, Exists (λ nf, attname nf.1 nf.2 = pk_attname c ∧
                                  field_unique nf.2 = true) (local_fields c))
              app_models).
  { intros H. eapply Forall_impl; [exact H|].
    intros c (nf & ? & ? & ?)%Exists_exists. eauto. }
  apply (bool_decide_unpack _). by vm_compute.
Qed.

Lemma NoDup_fmap_replace {A B} (g : A → B) (P : A → Prop)
    `{∀ x, Decision (P x)} (r : A) (l : list A) :
  NoDup (g <$> l) →
  (∀ x y, x ∈ l → y ∈ l → P x → P y → g x = g y) →
  (∀ o, o ∈ l → ¬ P o → g o ≠ g r) →
  NoDup (g <$> ((λ o, if bool_decide (P o) then r else o) <$> l)).
Proof.
  induction l as [|a l IH]; intros Hnd Hone Hr; [constructor|].
  rewrite fmap_cons in Hnd. apply NoDup_cons in Hnd as [Ha Hnd].
  rewrite !fmap_cons. apply NoDup_cons. split.
  - intros Hin. apply list_elem_of_fmap in Hin as (x & Hx & Hin).
    apply list_elem_of_fmap in Hin as (o & -> & Ho).
    case_bool_decide as Hpa; case_bool_decide as Hpo.
    + apply Ha. apply list_elem_of_fmap. exists o. split; [|done].
      apply Hone; [left|by right|done..].
    + apply (Hr o); [by right|done|done].
    + apply (Hr a); [left|done|done].
    + apply Ha. apply list_elem_of_fmap. by exists o.
  - apply IH; [done| |].
    + intros x y Hx Hy. apply Hone; by right.
    + intros o Ho. apply Hr. by right.
Qed.

Lemma columns_differ (o r : dict) a :
  column a o ≠ VNone →
  (∃ v, r !! a = Some v ∧ v ≠ VNone) →
  ¬ (o !! a = r !! a ∧ r !! a ≠ Some VNone) →
  column a o ≠ column a r.
Proof.
  unfold column. intros Ho (v & Hv & Hne) Hdiff Heq. apply Hdiff.
  rewrite Hv in *. simpl in Heq. split; [|congruence].
  destruct (o !! a) as [x|]; simpl in *; [by subst|done].
Qed.

Lemma save_table_unique db c inst db' k :
  c ∈ app_models → save_table db c inst = Ok (db', k) →
  unique_columns db → unique_columns db'.
Proof.
  intros Hc H Hinv c0 n f Hc0 Hf Hu.
  destruct (decide (cls_name c0 = cls_name c)) as [Heq|Hne].
  2:{ apply save_table_spec in H as (Hframe & _); [|done].
      rewrite Hframe by done. by apply Hinv. }
  assert (c0 = c) as -> by by apply app_model_by_name. clear Heq.
  destruct (Hinv c n f Hc Hf Hu) as [Hnd Hnn].
  set (r := <[pk_attname c := VInt k]> (row_of (local_fields c) inst)).
  assert (∀ others,
    unique_ok others r (local_fields c) = Ok () →
    columns_ok r (local_fields c) = Ok () →
    (∃ v, r !! attname n f = Some v ∧ v ≠ VNone) ∧
    ∀ o, o ∈ others → column (attname n f) o ≠ VNone →
         column (attname n f) o ≠ column (attname n f) r) as Hnew.
  { intros others Huniq Hcols.
    apply columns_ok_Forall in Hcols. rewrite Forall_forall in Hcols.
    pose proof (column_ok_not_null r (n, f)
                  (unique_not_null c (n, f) Hc Hf Hu) (Hcols _ Hf)) as Hv.
    split; [done|]. intros o Ho Hon.
    apply unique_ok_Forall in Huniq. rewrite Forall_forall in Huniq.
    apply columns_differ; [done..|]. by apply (Huniq (n, f) Hf Hu). }
  assert ((∃ u, unique_ok (table db (cls_name c)) r (local_fields c) = Ok u ∧
                db' = <[cls_name c := table db (cls_name c) ++ [r]]> db ∧
                columns_ok r (local_fields c) = Ok ()) ∨
          (∃ u, unique_ok (filter (λ o, row_pk (cls_name c) o ≠ Some k)
                                  (table db (cls_name c))) r (local_fields c)
                = Ok u ∧
                db' = <[cls_name c :=
                         (λ o, if bool_decide (row_pk (cls_name c) o = Some k)
                               then r else o) <$> table db (cls_name c)]> db ∧
                columns_ok r (local_fields c) = Ok ()))
    as [(u & Huniq & -> & Hcols)|(u & Huniq & -> & Hcols)].
  { unfold save_table in H.
    assert (db_insert db c inst = Ok (db', k) ∨
            ∃ j, db_update db c j inst = Ok (db', k)) as [Hi|[j Hu']]
      by (repeat case_match; eauto).
    - left. unfold db_insert in Hi. inv_bind Hi. simplify_eq.
      destruct a1. eauto.
    - right. unfold db_update in Hu'. inv_bind Hu'. simplify_eq.
      destruct a0. eauto. }
  - destruct u. destruct (Hnew _ Huniq Hcols) as [Hv Hdiff].
    rewrite table_insert. split.
    + rewrite fmap_app. apply NoDup_app. split; [done|]. split.
      * intros x (o & -> & Ho)%list_elem_of_fmap Hin.
        apply list_elem_of_singleton in Hin.
        rewrite Forall_forall in Hnn. by apply (Hdiff o Ho (Hnn o Ho)).
      * apply NoDup_singleton.
    + apply Forall_app. split; [done|]. apply Forall_singleton.
      destruct Hv as (v & Hv & Hne). unfold column. by rewrite Hv.
  - destruct u. destruct (Hnew _ Huniq Hcols) as [Hv Hdiff].
    rewrite table_insert. rewrite Forall_forall in Hnn. split.
    + apply NoDup_fmap_replace; [done| |].
      * intros x y Hx Hy Hpx Hpy.
        destruct (pk_is_unique c Hc) as ([n0 f0] & Hf0 & Hatt & Hu0).
        destruct (Hinv c n0 f0 Hc Hf0 Hu0) as [Hnd0 _].
        apply (row_pk_lookup c x k Hc) in Hpx.
        apply (row_pk_lookup c y k Hc) in Hpy.
        assert (x = y) as ->; [|done].
        eapply (NoDup_fmap_1 (column (attname n0 f0))) in Hnd0 as Hndl.
        destruct (list_elem_of_lookup_1 _ _ Hx) as [i Hi].
        destruct (list_elem_of_lookup_1 _ _ Hy) as [j Hj].
        assert (i = j) as ->; [|congruence].
        eapply (NoDup_lookup _ _ _ _ Hnd0); rewrite list_lookup_fmap;
          [rewrite Hi|rewrite Hj]; simpl; [reflexivity|].
        f_equal. simpl in Hatt. unfold column. by rewrite Hatt, Hpx, Hpy.
      * intros o Ho Hpo. apply Hdiff; [|by apply Hnn].
        by apply list_elem_of_filter.
    + apply Forall_fmap, Forall_forall. intros o Ho. simpl.
      case_bool_decide; [|by apply Hnn].
      destruct Hv as (v & Hv & Hne). unfold column. by rewrite Hv.
Qed.

Lemma save_unique db c inst db' inst' :
  c ∈ app_models → save db c inst = Ok (db', inst') →
  unique_columns db → unique_columns db'.
Proof.
  intros Hc H Hinv.
  apply (save_cases _ _ _ _ _ Hc) in H
    as [[k H]|(p & i0 & i1 & db1 & k & k' & Hp & H1 & H2)].
  - by eapply save_table_unique.
  - eapply save_table_unique; [done..|].
    eapply save_table_unique; [|done..]. by eapply parent_app.
Qed.

Lemma remove_rows_unique db dead :
  unique_columns db → unique_columns (remove_rows db dead).
Proof.
  intros Hinv c n f Hc Hf Hu.
  destruct (Hinv c n f Hc Hf Hu) as [Hnd Hnn].
  rewrite table_remove_rows. split.
  - eapply sublist_NoDup; [exact Hnd|]. apply fmap_sublist, sublist_filter.
  - rewrite Forall_forall in Hnn |- *.
    intros r [_ Hr]%list_elem_of_filter. by apply Hnn.
Qed.

Lemma reachable_unique db : reachable db → unique_columns db.
Proof.
  induction 1 as [db H|db c data db' _ IH Hc H|db c k data db' _ IH Hc H
                 |db c k db' _ IH Hc H].
  - intros c n f Hc _ _. rewrite H by done. split; constructor.
  - apply add_view_Ok in H as (inst & _ & H).
    apply submit_Ok in H as (? & ? & ? & _ & _ & _ & H).
    by eapply save_unique.
  - apply change_view_Ok in H as (inst & _ & H).
    apply submit_Ok in H as (? & ? & ? & _ & _ & _ & H).
    by eapply save_unique.
  - apply delete_view_Ok in H as [_ ->]. by apply remove_rows_unique.
Qed.

Lemma pks_of_columns db c :
  c ∈ app_models → rows_have_columns db →
  column (pk_attname c) <$> table db (cls_name c)
  = VInt <$> pks db (cls_name c).
Proof.
  intros Hc Hcols. unfold pks.
  assert (Forall (λ r, is_Some (row_pk (cls_name c) r)) (table db (cls_name c)))
    as Hall.
  { apply Forall_forall. intros r Hr. by apply (Hcols c r Hc Hr). }
  revert Hall. generalize (table db (cls_name c)). intros rows Hall.
  induction Hall as [|r rows [k Hk] _ IH]; [done|].
  rewrite fmap_cons. simpl. rewrite Hk. rewrite fmap_cons, IH. f_equal.
  unfold column. by rewrite (row_pk_lookup c r k Hc Hk).
Qed.

(** In every state stored through the admin views, no two rows of a
    table have the same key, no two rows hold the same value in a
    one-to-one column (no two researchers are the same user), and
    [get] finds the one row that has the key. *)
Lemma keys_are_unique db :
  reachable db →
  unique_columns db ∧
  (∀ c, c ∈ app_models → NoDup (pks db (cls_name c))) ∧
  (∀ c k r, c ∈ app_models → r ∈ table db (cls_name c) →
            row_pk (cls_name c) r = Some k →
            find_row db (cls_name c) k = Some r).
Proof.
  intros Hreach. pose proof (reachable_unique db Hreach) as Hu.
  pose proof (reachable_columns db Hreach) as Hcols.
  assert (∀ c, c ∈ app_models → NoDup (pks db (cls_name c))) as Hpks.
  { intros c Hc.
    destruct (pk_is_unique c Hc) as ([n0 f0] & Hf0 & Hatt & Hu0).
    destruct (Hu c n0 f0 Hc Hf0 Hu0) as [Hnd _]. simpl in Hatt.
    rewrite Hatt, pks_of_columns in Hnd by done.
    by apply NoDup_fmap_1 in Hnd. }
  split; [done|]. split; [done|].
  intros c k r Hc Hr Hk.
  destruct (find_row_is_Some db (cls_name c) k) as [r' Hr'].
  { apply elem_of_pks. eauto. }
  rewrite Hr'. f_equal. apply find_row_Some in Hr' as [Hin' Hk'].
  destruct (pk_is_unique c Hc) as ([n0 f0] & Hf0 & Hatt & Hu0).
  destruct (Hu c n0 f0 Hc Hf0 Hu0) as [Hnd _]. simpl in Hatt.
  destruct (list_elem_of_lookup_1 _ _ Hr) as [i Hi].
  destruct (list_elem_of_lookup_1 _ _ Hin') as [j Hj].
  assert (j = i) as ->; [|congruence].
  eapply (NoDup_lookup _ _ _ _ Hnd); rewrite list_lookup_fmap;
    [rewrite Hj|rewrite Hi]; simpl; [reflexivity|].
  f_equal. unfold column. rewrite Hatt.
  by rewrite (row_pk_lookup c r k Hc Hk), (row_pk_lookup c r' k Hc Hk').
Qed.

(** * Every column holds a value of its field's kind *)

Lemma too_long_empty f : too_long f EmptyString = false.
Proof.
  unfold too_long. destruct (field_max_length f); [|done].
  apply bool_decide_eq_false_2. simpl. lia.
Qed.

(** What a form field accepts is a value of the field's kind, or the
    empty value [None]. *)
Lemma formfield_clean_typed db c n f x v :
  formfield_clean db c (n, f) x = Ok v →
  well_typed f (form_value f v) = true ∨ form_value f v = VNone.
Proof.
  unfold formfield_clean, form_value.
  destruct (empty_values x) eqn:He.
  - destruct (field_blank f); [|discriminate]. intros [= <-].
    destruct f; simpl; auto; left; by rewrite too_long_empty.
  - destruct (is_relation f) eqn:Hrel.
    + destruct x; try discriminate.
      destruct (exists_pk _ _ _); [|discriminate]. intros [= <-]. left.
      by destruct f.
    + destruct (is_text f) eqn:Htext.
      * destruct x; try discriminate.
        case_bool_decide; [discriminate|].
        destruct (too_long f s) eqn:Hlong; [discriminate|].
        intros [= <-]. left. simpl. by rewrite Htext, Hlong.
      * destruct f, x; try discriminate; try (intros [= <-]; by left).
        case_bool_decide as Hneg; [discriminate|]. intros [= <-]. left.
        simpl. apply bool_decide_eq_true_2. lia.
Qed.

(** The schema: the key column of a table belongs to an automatic or a
    one-to-one field. *)
Lemma pk_field_kind c nf k :
  c ∈ app_models → nf ∈ local_fields c →
  attname nf.1 nf.2 = pk_attname c → well_typed nf.2 (VInt k) = true.
Proof.
  intros Hc Hnf Hpk.
  assert (well_typed nf.2 (VInt (-1)) = true) as H.
  { revert nf Hnf Hpk. refine (proj1 (Forall_forall _ _) _). revert c Hc.
    apply Forall_forall. apply (bool_decide_unpack _). by vm_compute. }
  destruct nf as [n []]; simpl in *; try done.
Qed.

Lemma save_table_typed db c inst db' k :
  c ∈ app_models → save_table db c inst = Ok (db', k) →
  typed_rows db →
  (∀ n f, (n, f) ∈ local_fields c → attname n f ≠ pk_attname c →
     well_typed f (column (attname n f) inst) = true ∨
     column (attname n f) inst = VNone) →
  typed_rows db'.
Proof.
  intros Hc H Hinv Hinst c0 n f r Hc0 Hf Hr.
  destruct (save_table_rows _ _ _ _ _ _ _ Hc Hc0 H Hr) as [Hold|[-> ->]];
    [by apply (Hinv c0 n f r)|].
  apply save_table_spec in H as (_ & _ & _ & Hok); [|done].
  destruct (decide (attname n f = pk_attname c)) as [Hpk|Hne].
  - unfold column. rewrite Hpk, lookup_insert_eq. simpl.
    by apply (pk_field_kind c (n, f)).
  - assert (attname n f ∈ columns c) as Hcol.
    { apply list_elem_of_fmap. by exists (n, f). }
    unfold column at 1. rewrite stored_row_lookup by done. simpl.
    destruct (Hinst n f Hf Hne) as [?|Hnone]; [done|].
    rewrite Hnone. simpl.
    apply columns_ok_Forall in Hok. rewrite Forall_forall in Hok.
    specialize (Hok _ Hf). unfold column_ok in Hok. simpl in Hok.
    rewrite stored_row_lookup, Hnone in Hok by done.
    by destruct (field_null f).
Qed.

(** The schema: of the attributes that saving assigns, a table has its
    own key only; and the columns of a subclass and of its base are
    different ones. *)
Lemma key_columns c c0 a :
  c ∈ app_models → c0 ∈ app_models → c0 = c ∨ parent c = Some c0 →
  a ∈ columns c0 → a ∈ key_attrs c → a = pk_attname c0.
Proof.
  intros Hc Hc0 Hrel. revert a. refine (proj1 (Forall_forall _ _) _).
  revert Hrel. revert c0 Hc0. refine (proj1 (Forall_forall _ _) _).
  revert c Hc. apply Forall_forall.
  apply (bool_decide_unpack _). by vm_compute.
Qed.

Lemma base_columns_apart c p a :
  c ∈ app_models → parent c = Some p → a ∈ columns p → a ∉ columns c.
Proof.
  intros Hc Hp.
  assert (columns p = from_option columns [] (parent c)) as -> by by rewrite Hp.
  clear Hp. revert a. apply Forall_forall. revert c Hc. apply Forall_forall.
  apply (bool_decide_unpack _). by vm_compute.
Qed.

Lemma local_in_fields c nf : nf ∈ local_fields c → nf ∈ fields c.
Proof.
  intros H. unfold fields. destruct (parent c); [|done].
  apply elem_of_app. by right.
Qed.

Lemma attname_in_columns c n f : (n, f) ∈ local_fields c → attname n f ∈ columns c.
Proof. intros H. apply list_elem_of_fmap. by exists (n, f). Qed.

Lemma save_typed db c inst db' inst' :
  c ∈ app_models → save db c inst = Ok (db', inst') →
  typed_rows db →
  (∀ n f, (n, f) ∈ fields c → attname n f ∉ key_attrs c →
     well_typed f (column (attname n f) inst) = true ∨
     column (attname n f) inst = VNone) →
  typed_rows db'.
Proof.
  intros Hc H Hinv Hinst.
  assert (∀ c0 n f, c0 ∈ app_models → c0 = c ∨ parent c = Some c0 →
            (n, f) ∈ local_fields c0 → attname n f ≠ pk_attname c0 →
            attname n f ∉ key_attrs c) as Hplain.
  { intros c0 n f Hc0 Hrel Hf Hne Hkey. apply Hne.
    apply (key_columns c c0); [done..|by apply attname_in_columns|done]. }
  destruct (parent c) as [p|] eqn:Hp.
  - destruct (subclasses_declare_link c p Hc Hp) as (ln & lf & Hl & _ & _).
    apply save_steps in H
      as [[k H]|(p' & ln' & lf' & i0 & db1 & k & k' & Hp' & Hl' & H0 & H1 & H2)].
    + eapply (save_table_typed db c); [exact Hc|exact H|done|].
      intros n f Hf Hne.
      apply Hinst; [by apply local_in_fields|].
      apply (Hplain c); auto.
    + assert (p' = p) as -> by congruence.
      assert (ln' = ln ∧ lf' = lf) as [-> ->]
        by (split; congruence).
      pose proof (parent_app _ _ Hp) as Hpa.
      assert (key_attrs c = [pk_attname c; pk_attname p; attname ln lf])
        as Hkeys by (unfold key_attrs; by rewrite Hp, Hl).
      eapply (save_table_typed db1 c); [exact Hc|exact H2| |].
      * eapply (save_table_typed db p); [exact Hpa|exact H1|done|].
        intros n f Hf Hne. rewrite H0 by done.
        apply Hinst; [|by apply (Hplain p); auto].
        rewrite (subclass_fields c p Hp). apply elem_of_app. by left.
      * intros n f Hf Hne.
        pose proof (Hplain c n f Hc (or_introl eq_refl) Hf Hne) as Hk.
        rewrite Hkeys in Hk. rewrite !not_elem_of_cons in Hk.
        destruct Hk as (_ & Hk2 & Hk3 & _).
        rewrite !column_setattr_ne by done. rewrite H0 by done.
        apply Hinst; [by apply local_in_fields|].
        apply (Hplain c); auto.
  - apply save_steps in H as [[k H]|(p' & ? & ? & ? & ? & ? & ? & Hp' & _)];
      [|congruence].
    eapply (save_table_typed db c); [exact Hc|exact H|done|].
    intros n f Hf Hne.
    apply Hinst; [by apply local_in_fields|]. apply (Hplain c); auto.
Qed.

(** The schema: an attribute of a field that is not on the form is not
    touched by the form. *)
Lemma off_form_is_framed c nf :
  c ∈ app_models → nf ∈ fields c → nf ∉ formfields c →
  Forall (λ x, attname nf.1 nf.2 ≠ x.1 ∧
               attname nf.1 nf.2 ≠ attname x.1 x.2 ∧
               attname nf.1 nf.2 ≠ "_" +:+ x.1 +:+ "_cache") (formfields c).
Proof.
  intros Hc. revert nf. refine (proj1 (Forall_forall _ _) _).
  revert c Hc. apply Forall_forall.
  apply (bool_decide_unpack _). by vm_compute.
Qed.

Lemma submit_typed db c inst data db' :
  c ∈ app_models → submit db c inst data = Ok db' →
  typed_rows db →
  (∀ n f, (n, f) ∈ fields c → (n, f) ∉ formfields c →
     attname n f ∉ key_attrs c →
     well_typed f (column (attname n f) inst) = true ∨
     column (attname n f) inst = VNone) →
  typed_rows db'.
Proof.
  intros Hc H Hinv Hinst.
  apply submit_Ok in H as (cleaned & inst' & inst'' & Hcl & Hci & _ & Hsave).
  eapply save_typed; [done..|]. intros n f Hf Hkey.
  destruct (decide ((n, f) ∈ formfields c)) as [Hform|Hoff].
  - destruct (submit_instance db c data cleaned inst inst' n f Hc Hcl Hci Hform)
      as (v & Hv & Hattr).
    unfold column. rewrite Hattr. simpl. by eapply formfield_clean_typed.
  - assert (inst' !! attname n f = inst !! attname n f) as Heq.
    { eapply construct_instance_frame; [|exact Hci].
      pose proof (off_form_is_framed c (n, f) Hc Hf Hoff) as Hsep.
      rewrite <-(clean_form_fields _ _ _ _ _ Hcl) in Hsep.
      apply Forall_fmap in Hsep. eapply Forall_impl; [exact Hsep|].
      by intros [[??] ?]. }
    unfold column. rewrite Heq. by apply Hinst.
Qed.

(** The schema: on a fresh instance, the fields that are not on the
    form hold values of their kind. *)
Lemma defaults_typed c inst n f :
  c ∈ app_models → construct c [] ∅ = Ok inst →
  (n, f) ∈ fields c → (n, f) ∉ formfields c → attname n f ∉ key_attrs c →
  well_typed f (column (attname n f) inst) = true ∨
  column (attname n f) inst = VNone.
Proof.
  intros Hc Hinst Hf Hoff Hkey.
  assert ((construct c [] ∅ ≫= λ inst, Ok (bool_decide (
            Forall (λ nf, nf ∈ formfields c ∨ attname nf.1 nf.2 ∈ key_attrs c ∨
                          well_typed nf.2 (column (attname nf.1 nf.2) inst) = true)
                   (fields c)))) = Ok true) as H.
  { clear -Hc. revert c Hc. apply Forall_forall.
    apply (bool_decide_unpack _). by vm_compute. }
  rewrite Hinst in H. simpl in H. injection H as H.
  apply bool_decide_eq_true in H. rewrite Forall_forall in H.
  destruct (H (n, f) Hf) as [?|[?|?]]; [done|done|by left].
Qed.

(** What [get] returns holds, for every field, the value of the
    column. *)
Lemma joined_row_cases db c k r :
  c ∈ app_models → joined_row db c k = Some r →
  ∃ row, row ∈ table db (cls_name c) ∧ row_pk (cls_name c) row = Some k ∧
    ((parent c = None ∧ r = row) ∨
     ∃ p pr, parent c = Some p ∧ pr ∈ table db (cls_name p) ∧ r = row ∪ pr).
Proof.
  intros Hc. unfold joined_row.
  destruct (find_row db (cls_name c) k) as [row|] eqn:Hrow;
    [simpl|discriminate].
  apply find_row_Some in Hrow as [Hin Hpk]. intros H. exists row.
  split; [done|]. split; [done|].
  destruct (parent c) as [p|] eqn:Hp; [|left; split; [done|by injection H]].
  destruct (subclasses_declare_link c p Hc Hp) as (ln & lf & Hl & _ & _).
  rewrite Hl in H.
  destruct (row !! attname ln lf) as [[| |j| | |]|] eqn:Hj; try discriminate.
  simpl in H. destruct (find_row db (cls_name p) j) as [pr|] eqn:Hpr;
    [|discriminate]. injection H as <-. right.
  apply find_row_Some in Hpr as [? _]. eauto.
Qed.

Lemma get_typed db c k inst :
  c ∈ app_models → rows_have_columns db → typed_rows db →
  get db c k = Ok inst →
  ∀ n f, (n, f) ∈ fields c →
    well_typed f (column (attname n f) inst) = true.
Proof.
  intros Hc Hcols Hinv Hget n f Hf.
  destruct (get_Ok _ _ _ _ Hget) as [r Hr].
  destruct (get_joined db c k r Hc Hr) as (inst' & Hget' & Hfields & _).
  assert (inst' = inst) as -> by congruence.
  pose proof (Hfields (n, f) Hf) as Hattr. simpl in Hattr.
  unfold column at 1. rewrite Hattr. simpl.
  destruct (joined_row_cases db c k r Hc Hr)
    as (row & Hrow & _ & [[Hp ->]|(p & pr & Hp & Hpr & ->)]).
  - rewrite (root_fields c Hp) in Hf. by apply (Hinv c n f row).
  - rewrite (subclass_fields c p Hp) in Hf.
    pose proof (parent_app _ _ Hp) as Hpa.
    apply elem_of_app in Hf as [Hf|Hf].
    + assert (row !! attname n f = None) as Hnone.
      { apply not_elem_of_dom. rewrite (proj1 (Hcols c row Hc Hrow)).
        rewrite elem_of_list_to_set.
        apply (base_columns_apart c p); [done..|by apply attname_in_columns]. }
      unfold column. rewrite lookup_union_r by done.
      by apply (Hinv p n f pr).
    + assert (is_Some (row !! attname n f)) as [v Hv].
      { apply elem_of_dom. rewrite (proj1 (Hcols c row Hc Hrow)).
        rewrite elem_of_list_to_set. by apply attname_in_columns. }
      unfold column. rewrite (lookup_union_Some_l _ _ _ _ Hv).
      pose proof (Hinv c n f row Hc Hf Hrow) as Ht. unfold column in Ht.
      by rewrite Hv in Ht.
Qed.

Lemma remove_rows_typed db dead :
  typed_rows db → typed_rows (remove_rows db dead).
Proof.
  intros Hinv c n f r Hc Hf.
  rewrite table_remove_rows, list_elem_of_filter. intros [_ Hr].
  by apply (Hinv c n f r).
Qed.

Lemma reachable_typed db : reachable db → typed_rows db.
Proof.
  induction 1 as [db H|db c data db' Hr IH Hc H|db c k data db' Hr IH Hc H
                 |db c k db' Hr IH Hc H].
  - intros c n f r Hc _. rewrite H by done. by intros ?%elem_of_nil.
  - apply add_view_Ok in H as (inst & Hinst & H).
    eapply (submit_typed db c); [done..|]. intros n f Hf Hoff Hkey.
    by apply (defaults_typed c).
  - apply change_view_Ok in H as (inst & Hget & H).
    eapply (submit_typed db c); [done..|]. intros n f Hf _ _. left.
    apply (get_typed db c k); [done|by apply reachable_columns|done..].
  - apply delete_view_Ok in H as [_ ->]. by apply remove_rows_typed.
Qed.

(** In every state stored through the admin views, each column holds a
    value of the kind of its field: a key in an automatic or relational
    column, a string of no more characters than [max_length] in a text
    column, a
    non-negative integer in a [PositiveSmallIntegerField] column, a
    boolean, a date; and [NULL] only in a nullable column. *)
Lemma stored_values_are_typed db c n f r :
  reachable db → c ∈ app_models → (n, f) ∈ local_fields c →
  r ∈ table db (cls_name c) →
  ∃ v, r !! attname n f = Some v ∧ well_typed f v = true ∧
       (v = VNone → field_null f = true) ∧
       (∀ s m, v = VStr s → field_max_length f = Some m →
               (len s ≤ m)%nat) ∧
       (∀ m, v = VInt m → (∃ kw, f = PositiveSmallIntegerField kw) →
             (0 ≤ m)%Z).
Proof.
  intros Hreach Hc Hf Hr.
  pose proof (reachable_typed db Hreach c n f r Hc Hf Hr) as Ht.
  assert (is_Some (r !! attname n f)) as [v Hv].
  { apply elem_of_dom.
    rewrite (proj1 (reachable_columns db Hreach c r Hc Hr)).
    rewrite elem_of_list_to_set. by apply attname_in_columns. }
  exists v. split; [done|]. unfold column in Ht. rewrite Hv in Ht.
  simpl in Ht. split; [done|]. split; [|split].
  - by intros ->.
  - intros s m -> Hm. simpl in Ht. apply andb_true_iff in Ht as [_ Ht].
    apply negb_true_iff in Ht. unfold too_long in Ht. rewrite Hm in Ht.
    apply bool_decide_eq_false in Ht. lia.
  - intros m -> [kw ->]. simpl in Ht. by apply bool_decide_eq_true in Ht.
Qed.

(** * Required fields are filled in *)

Lemma formfield_clean_filled db c n f x v :
  formfield_clean db c (n, f) x = Ok v → field_blank f = false →
  empty_values (form_value f v) = false.
Proof.
  unfold formfield_clean, form_value. intros H Hb. rewrite Hb in H.
  destruct (empty_values x) eqn:He; [discriminate|].
  destruct (is_relation f) eqn:Hrel.
  - destruct x; try discriminate.
    destruct (exists_pk _ _ _); [|discriminate]. by injection H as <-.
  - destruct (is_text f).
    + destruct x; try discriminate. case_bool_decide; [discriminate|].
      destruct (too_long f s); [discriminate|]. by injection H as <-.
    + destruct f, x; try discriminate; try (by injection H as <-).
      case_bool_decide; [discriminate|]. by injection H as <-.
Qed.

(** The schema: an editable field that is not the automatic key is on
    the form of its class and of its subclasses, and is none of the
    attributes that saving assigns. *)
Lemma editable_fields_plain c c0 n f :
  c ∈ app_models → c0 ∈ app_models → c0 = c ∨ parent c = Some c0 →
  (n, f) ∈ local_fields c0 → field_editable f = true → is_auto f = false →
  (attname n f ∉ key_attrs c) ∧ (n, f) ∈ formfields c.
Proof.
  intros Hc Hc0 Hrel Hf He Ha.
  cut ((attname n f ∉ key_attrs c) ∧ (n, f) ∈ fields c).
  { intros [? ?]. split; [done|]. by apply list_elem_of_filter. }
  revert He Ha. revert n f Hf. revert c0 Hc0 Hrel. revert c Hc.
  cut (Forall (λ c, Forall (λ c0, c0 = c ∨ parent c = Some c0 →
         Forall (λ nf, field_editable nf.2 = true → is_auto nf.2 = false →
                       (attname nf.1 nf.2 ∉ key_attrs c) ∧ nf ∈ fields c)
                (local_fields c0)) app_models) app_models).
  { intros H c Hc c0 Hc0 Hrel n f Hf.
    rewrite Forall_forall in H. specialize (H c Hc).
    rewrite Forall_forall in H. specialize (H c0 Hc0 Hrel).
    rewrite Forall_forall in H. apply (H (n, f) Hf). }
  apply (bool_decide_unpack _). by vm_compute.
Qed.

Lemma submit_filled db c inst data db' :
  c ∈ app_models → submit db c inst data = Ok db' →
  required_filled db → required_filled db'.
Proof.
  intros Hc H Hinv c0 n f r Hc0 Hf He Ha Hb Hr.
  apply submit_Ok in H as (cleaned & inst' & inst'' & Hcl & Hci & _ & Hsave).
  destruct (save_rows _ _ _ _ _ _ _ Hc Hc0 Hsave Hr) as [Hr0|[Hrel Hval]];
    [by apply (Hinv c0 n f r)|].
  destruct (editable_fields_plain c c0 n f) as [Hkey Hform]; [done..|].
  unfold column.
  rewrite Hval; [|by apply attname_in_columns|done]. simpl.
  destruct (submit_instance db c data cleaned inst inst' n f Hc Hcl Hci Hform)
    as (v & Hv & Hattr).
  unfold column. rewrite Hattr. simpl. by eapply formfield_clean_filled.
Qed.

Lemma reachable_filled db : reachable db → required_filled db.
Proof.
  induction 1 as [db H|db c data db' Hr IH Hc H|db c k data db' Hr IH Hc H
                 |db c k db' Hr IH Hc H].
  - intros c n f r Hc _ _ _ _. rewrite H by done. by intros ?%elem_of_nil.
  - apply add_view_Ok in H as (inst & _ & H). by eapply submit_filled.
  - apply change_view_Ok in H as (inst & _ & H). by eapply submit_filled.
  - apply delete_view_Ok in H as [_ ->].
    intros c1 n f r ? ? ? ? ?.
    rewrite table_remove_rows, list_elem_of_filter. intros [_ ?].
    by apply (IH c1 n f r).
Qed.

(** In every state stored through the admin views, a column whose
    field is on the forms and is not declared [blank=True] holds
    neither [NULL] nor the empty string. *)
Lemma required_fields_are_filled db c n f r :
  reachable db → c ∈ app_models → (n, f) ∈ local_fields c →
  field_editable f = true → is_auto f = false → field_blank f = false →
  r ∈ table db (cls_name c) →
  ∃ v, r !! attname n f = Some v ∧ v ≠ VNone ∧ v ≠ VStr EmptyString.
Proof.
  intros Hreach Hc Hf He Ha Hb Hr.
  pose proof (reachable_filled db Hreach c n f r Hc Hf He Ha Hb Hr) as Hfill.
  assert (is_Some (r !! attname n f)) as [v Hv].
  { apply elem_of_dom.
    rewrite (proj1 (reachable_columns db Hreach c r Hc Hr)).
    rewrite elem_of_list_to_set. by apply attname_in_columns. }
  exists v. split; [done|]. unfold column in Hfill. rewrite Hv in Hfill.
  simpl in Hfill. split; by intros ->.
Qed.

(** * Display strings *)

(** Each attribute of a fetched instance is the column of a stored row:
    of the row of the class or of the row of its base. *)
Lemma get_columns db c k inst n f :
  c ∈ app_models → rows_have_columns db → get db c k = Ok inst →
  (n, f) ∈ fields c →
  ∃ c0 row, c0 ∈ app_models ∧ (c0 = c ∨ parent c = Some c0) ∧
    (n, f) ∈ local_fields c0 ∧ row ∈ table db (cls_name c0) ∧
    inst !! attname n f = Some (column (attname n f) row).
Proof.
  intros Hc Hcols Hget Hf.
  destruct (get_Ok _ _ _ _ Hget) as [r Hr].
  destruct (get_joined db c k r Hc Hr) as (inst' & Hget' & Hfields & _).
  assert (inst' = inst) as -> by congruence.
  pose proof (Hfields (n, f) Hf) as Hattr. simpl in Hattr. rewrite Hattr.
  destruct (joined_row_cases db c k r Hc Hr)
    as (row & Hrow & _ & [[Hp ->]|(p & pr & Hp & Hpr & ->)]).
  - rewrite (root_fields c Hp) in Hf. exists c, row. auto 10.
  - rewrite (subclass_fields c p Hp) in Hf.
    pose proof (parent_app _ _ Hp) as Hpa.
    apply elem_of_app in Hf as [Hf|Hf].
    + exists p, pr. repeat split; [done|by right|done..|].
      assert (row !! attname n f = None) as Hnone.
      { apply not_elem_of_dom. rewrite (proj1 (Hcols c row Hc Hrow)).
        rewrite elem_of_list_to_set.
        apply (base_columns_apart c p); [done..|by apply attname_in_columns]. }
      unfold column. by rewrite lookup_union_r.
    + exists c, row. repeat split; [done|by left|done..|].
      assert (is_Some (row !! attname n f)) as [v Hv].
      { apply elem_of_dom. rewrite (proj1 (Hcols c row Hc Hrow)).
        rewrite elem_of_list_to_set. by apply attname_in_columns. }
      unfold column. by rewrite (lookup_union_Some_l _ _ _ _ Hv), Hv.
Qed.

(** A stored text column that is required holds a string that is not
    empty. *)
Lemma stored_text db c n f r :
  reachable db → c ∈ app_models → (n, f) ∈ local_fields c →
  is_text f = true → field_editable f = true → field_blank f = false →
  r ∈ table db (cls_name c) →
  ∃ s, column (attname n f) r = VStr s ∧ s ≠ EmptyString.
Proof.
  intros Hreach Hc Hf Ht He Hb Hr.
  assert (is_auto f = false) as Ha by (by destruct f).
  pose proof (reachable_typed db Hreach c n f r Hc Hf Hr) as Hty.
  pose proof (reachable_filled db Hreach c n f r Hc Hf He Ha Hb Hr) as Hfill.
  destruct (column (attname n f) r) as [|s| | | |]; try done;
    try (by destruct f).
  exists s. split; [done|]. by intros ->.
Qed.

(** The schema: the attribute that a [__str__] method returns is a
    required text field of the class that defines the method. *)
Lemma str_methods_listed c d :
  c ∈ app_models → d ∈ app_models → defining_class c "__str__" = Some d →
  cls_name d ≠ "Place" →
  ∃ a f, snd <$> head (filter (λ ca, ca.1 = cls_name d) STR_RETURNS) = Some a ∧
         (a, f) ∈ fields c ∧ (a, f) ∈ local_fields d ∧ attname a f = a ∧
         is_text f = true ∧ field_editable f = true ∧ field_blank f = false.
Proof.
  intros Hc Hd. revert d Hd. refine (proj1 (Forall_forall _ _) _).
  revert c Hc. apply Forall_forall.
  cut (Forall (λ c, Forall (λ d,
         defining_class c "__str__" = Some d → cls_name d ≠ "Place" →
         Exists (λ af,
           snd <$> head (filter (λ ca, ca.1 = cls_name d) STR_RETURNS)
             = Some af.1 ∧
           af ∈ local_fields d ∧ attname af.1 af.2 = af.1 ∧
           is_text af.2 = true ∧ field_editable af.2 = true ∧
           field_blank af.2 = false) (fields c)) app_models) app_models).
  { intros H. eapply Forall_impl; [exact H|]. intros c H1.
    eapply Forall_impl; [exact H1|]. intros d H2 Hdef Hne.
    specialize (H2 Hdef Hne).
    apply Exists_exists in H2 as ([a f] & ? & ? & ? & ? & ? & ? & ?).
    exists a, f. auto 10. }
  apply (bool_decide_unpack _). by vm_compute.
Qed.

Lemma defining_class_cases c m d :
  c ∈ app_models → defining_class c m = Some d →
  d ∈ app_models ∧ (d = c ∨ parent c = Some d).
Proof.
  intros Hc. unfold defining_class. case_bool_decide.
  - intros [= <-]. auto.
  - destruct (parent c) as [p|] eqn:Hp; [|discriminate].
    case_bool_decide; [|discriminate]. intros [= <-].
    split; [by eapply parent_app|by right].
Qed.

Lemma names_of_returns parts :
  Forall (λ p, ∃ s, p !! "name" = Some (VStr s)) parts →
  returns (names_of parts).
Proof.
  induction 1 as [|p parts [s Hs] _ [l IH]]; simpl; [by eexists|].
  rewrite Hs, IH. by eexists.
Qed.

(** The display string of a place with stored parts. *)
Lemma Place_str_returns db self :
  reachable db → returns (Place___str__ db self).
Proof.
  intros Hreach. unfold Place___str__.
  set (spec := if bool_decide _ then _ else _).
  destruct (names_of_returns (order_by spec (placepart_set db self)))
    as [names Hn]; [|rewrite Hn; by eexists].
  apply Forall_forall. intros p Hp.
  rewrite order_by_Permutation in Hp. unfold placepart_set in Hp.
  unfold related_manager in Hp. apply list_elem_of_filter in Hp as [_ Hp].
  destruct (stored_text db PlacePart "name"
              (CharField [verbose_name "place name"; max_length 128]) p)
    as (s & Hs & _); [done|by_computation|by_computation|done..|].
  assert (is_Some (p !! "name")) as [v Hv].
  { apply elem_of_dom.
    rewrite (proj1 (reachable_columns db Hreach PlacePart p
                      ltac:(by_computation) Hp)).
    by_computation. }
  exists s. unfold column in Hs. change (attname "name" _) with "name" in Hs.
  rewrite Hv in Hs. simpl in Hs. by rewrite Hv, Hs.
Qed.

(** In every state stored through the admin views, [str] returns a
    string for every stored object: for a place the string that
    [Place.__str__] joins, for the instances of a class that has no
    [__str__] the class name followed by "object", and for every other
    instance the attribute that the class's [__str__] returns, which is
    a string and is not empty. *)
Lemma stored_objects_display db c k inst :
  reachable db → c ∈ app_models → get db c k = Ok inst →
  ∃ s, str db c inst = Str s ∧
    (c = Place → Place___str__ db inst = Ok s) ∧
    (defining_class c "__str__" = None → s = cls_name c +:+ " object") ∧
    (∀ d, defining_class c "__str__" = Some d → d ≠ Place →
       s ≠ EmptyString ∧
       ∃ a, (cls_name d, a) ∈ STR_RETURNS ∧ inst !! a = Some (VStr s)).
Proof.
  intros Hreach Hc Hget. unfold str.
  destruct (defining_class c "__str__") as [d|] eqn:Hdef.
  2:{ eexists. split; [done|]. split; [|split; [done|discriminate]].
      intros ->. exfalso. revert Hdef. by_computation. }
  destruct (defining_class_cases c _ d Hc Hdef) as [Hd Hrel].
  case_bool_decide as Hplace.
  - assert (d = Place) as ->
      by (apply app_model_by_name; [done|by_computation|done]).
    destruct (Place_str_returns db inst Hreach) as [s Hs]. rewrite Hs.
    exists s. split; [done|]. split; [done|]. split; [discriminate|].
    by intros d [= <-] ?.
  - destruct (str_methods_listed c d Hc Hd Hdef Hplace)
      as (a & f & Hlist & Hf & Hfd & Hatt & Ht & He & Hb).
    rewrite Hlist.
    destruct (get_columns db c k inst a f Hc (reachable_columns db Hreach)
                Hget Hf) as (c0 & row & Hc0 & _ & Hf0 & Hrow & Hattr).
    rewrite Hatt in Hattr.
    destruct (stored_text db c0 a f row Hreach Hc0 Hf0 Ht He Hb Hrow)
      as (s & Hs & Hne).
    rewrite Hatt in Hs. rewrite Hattr, Hs.
    exists s. split; [done|]. split.
    { intros ->. exfalso. revert Hdef. clear -Hplace. intros Hdef.
      apply Hplace. revert Hdef. unfold defining_class.
      case_bool_decide as H1; [by intros [= <-]|].
      exfalso. apply H1. by_computation. }
    split; [discriminate|]. intros d' [= <-] _. split; [done|].
    exists a. split; [|by rewrite Hattr, Hs].
    destruct (head (filter _ STR_RETURNS)) as [[n0 a0]|] eqn:Hh;
      [|discriminate].
    injection Hlist as ->. apply head_Some_elem_of in Hh.
    apply list_elem_of_filter in Hh as [Hn Hin]. simpl in Hn. by subst.
Qed.

(** * What a delete removes *)





(** * Saving and fetching back *)

Lemma as_key_row_of c inst :
  c ∈ app_models →
  as_key (row_of (local_fields c) inst !! pk_attname c)
  = as_key (inst !! pk_attname c).
Proof.
  intros Hc. rewrite row_of_lookup.
  rewrite bool_decide_eq_true_2 by by apply pk_is_column.
  unfold column. by destruct (inst !! pk_attname c).
Qed.

Lemma db_insert_key db c inst db' k :
  c ∈ app_models → db_insert db c inst = Ok (db', k) →
  match as_key (inst !! pk_attname c) with
  | Some k0 => k = k0
  | None => k = next_id db (cls_name c)
  end.
Proof.
  intros Hc. unfold db_insert. rewrite as_key_row_of by done.
  intros H. inv_bind H. simplify_eq.
  destruct (as_key (inst !! pk_attname c)); [by injection Ha|].
  case_bool_decide; [by injection Ha|discriminate].
Qed.

(** The two ways [save_table] writes a row: appended under a key that
    no row of the table has, or in the place of the rows that have the
    key. *)
Lemma save_table_shape db c inst db' k :
  c ∈ app_models → save_table db c inst = Ok (db', k) →
  let r := <[pk_attname c := VInt k]> (row_of (local_fields c) inst) in
  ((k ∉ pks db (cls_name c)) ∧
   db' = <[cls_name c := table db (cls_name c) ++ [r]]> db ∧
   match as_key (inst !! pk_attname c) with
   | Some k0 => k = k0
   | None => k = next_id db (cls_name c)
   end) ∨
  (k ∈ pks db (cls_name c) ∧ as_key (inst !! pk_attname c) = Some k ∧
   db' = <[cls_name c :=
            (λ o, if bool_decide (row_pk (cls_name c) o = Some k)
                  then r else o) <$> table db (cls_name c)]> db).
Proof.
  intros Hc H r.
  assert (∀ x, db_insert db c inst = Ok (db', x) → x = k →
    (k ∉ pks db (cls_name c)) ∧
    db' = <[cls_name c := table db (cls_name c) ++ [r]]> db ∧
    match as_key (inst !! pk_attname c) with
    | Some k0 => k = k0
    | None => k = next_id db (cls_name c)
    end) as Hins.
  { intros x Hi ->. pose proof (db_insert_key _ _ _ _ _ Hc Hi) as Hk.
    unfold db_insert in Hi. inv_bind Hi. simplify_eq. destruct a0.
    split; [|done]. intros (o & Ho & Hpk)%elem_of_pks.
    apply unique_ok_Forall in Ha0. rewrite Forall_forall in Ha0.
    destruct (pk_is_unique c Hc) as ([n0 f0] & Hf0 & Hatt & Hu0).
    apply (Ha0 (n0, f0) Hf0 Hu0 o Ho). simpl in *. rewrite Hatt.
    rewrite lookup_insert_eq. split; [|done].
    by apply row_pk_lookup. }
  unfold save_table in H.
  destruct (as_key (inst !! pk_attname c)) as [k0|] eqn:Hk0.
  - destruct (exists_pk db (cls_name c) k0) eqn:Hex.
    + right. apply db_update_spec in H as (-> & -> & _).
      split; [by apply exists_pk_true|done].
    + left. by apply (Hins k).
  - left. by apply (Hins k).
Qed.

Lemma find_row_table db db' name k :
  table db' name = table db name → find_row db' name k = find_row db name k.
Proof. unfold find_row. by intros ->. Qed.

Lemma save_table_find db c inst db' k :
  c ∈ app_models → save_table db c inst = Ok (db', k) →
  find_row db' (cls_name c) k
  = Some (<[pk_attname c := VInt k]> (row_of (local_fields c) inst)).
Proof.
  intros Hc H.
  pose proof (stored_row_pk c k inst Hc) as Hr.
  destruct (save_table_shape _ _ _ _ _ Hc H)
    as [(Hnew & -> & _)|(Hold & _ & ->)]; unfold find_row;
    rewrite table_insert.
  - rewrite filter_app.
    assert (filter (λ r, row_pk (cls_name c) r = Some k)
                   (table db (cls_name c)) = []) as ->.
    { apply elem_of_nil_inv. intros o [Hk Ho]%list_elem_of_filter.
      apply Hnew, elem_of_pks. eauto. }
    rewrite filter_cons_True by done. done.
  - apply elem_of_pks in Hold as (o & Ho & Hk).
    revert Ho. generalize (table db (cls_name c)). intros rows Ho.
    induction rows as [|x rows IH]; [by apply elem_of_nil in Ho|].
    rewrite fmap_cons. case_bool_decide as Hx.
    + by rewrite filter_cons_True.
    + rewrite filter_cons_False by done.
      apply elem_of_cons in Ho as [Heq|Ho]; [congruence|]. by apply IH.
Qed.

(** The schema: the parent link of a subclass is its key. *)
Lemma link_is_pk c ln lf :
  c ∈ app_models → parent_link_of c = Some (ln, lf) →
  pk_attname c = attname ln lf.
Proof.
  intros Hc Hl.
  assert (from_option (λ l, attname l.1 l.2) (pk_attname c) (parent_link_of c)
          = pk_attname c) as H.
  { clear Hl. revert c Hc. apply Forall_forall.
    apply (bool_decide_unpack _). by vm_compute. }
  by rewrite Hl in H.
Qed.

Lemma subclass_name_differs c p :
  c ∈ app_models → parent c = Some p → cls_name p ≠ cls_name c.
Proof.
  intros Hc Hp Heq.
  assert (p = c) as -> by (apply app_model_by_name;
                           [by eapply parent_app|done..]).
  by rewrite (parents_are_roots c c Hc Hp) in Hp.
Qed.

Lemma save_then_get db c inst db' inst' :
  c ∈ app_models → save db c inst = Ok (db', inst') →
  ∃ k o, inst' !! pk_attname c = Some (VInt k) ∧
         k ∈ pks db' (cls_name c) ∧
         get db' c k = Ok o ∧
         o !! pk_attname c = Some (VInt k) ∧
         ∀ n f, (n, f) ∈ fields c → attname n f ∉ key_attrs c →
                o !! attname n f = Some (column (attname n f) inst).
Proof.
  intros Hc H.
  assert (∀ k r,
    joined_row db' c k = Some r → inst' !! pk_attname c = Some (VInt k) →
    (∀ n f, (n, f) ∈ fields c → attname n f ∉ key_attrs c →
            column (attname n f) r = column (attname n f) inst) →
    ∃ k o, inst' !! pk_attname c = Some (VInt k) ∧
           k ∈ pks db' (cls_name c) ∧ get db' c k = Ok o ∧
           o !! pk_attname c = Some (VInt k) ∧
           ∀ n f, (n, f) ∈ fields c → attname n f ∉ key_attrs c →
                  o !! attname n f = Some (column (attname n f) inst))
    as Hfin.
  { intros k r Hr Hk Hcols.
    destruct (get_joined db' c k r Hc Hr) as (o & Hget & Hfields & _).
    exists k, o. split; [done|]. split; [by eapply joined_row_Some|].
    split; [done|]. split.
    - destruct (pk_is_field c Hc) as (nf & Hnf & Hpk).
      rewrite <-Hpk, (Hfields nf Hnf), Hpk. unfold column.
      by rewrite (joined_row_pk db' c k r Hc Hr).
    - intros n f Hf Hkey. pose proof (Hfields (n, f) Hf) as Ho.
      simpl in Ho. rewrite Ho. f_equal. by apply Hcols. }
  destruct (parent c) as [p|] eqn:Hp.
  - destruct (subclasses_declare_link c p Hc Hp) as (ln & lf & Hl & _ & _).
    pose proof (parent_app _ _ Hp) as Hpa.
    pose proof (link_is_pk c ln lf Hc Hl) as Hpk.
    assert (key_attrs c = [pk_attname c; pk_attname p; attname ln lf])
      as Hkeys by (unfold key_attrs; by rewrite Hp, Hl).
    unfold save in H. rewrite Hp, Hl in H.
    set (inst0 := match inst !! pk_attname p with
                  | Some VNone | None =>
                      match inst !! attname ln lf with
                      | Some (VInt k0) => setattr inst (pk_attname p) (VInt k0)
                      | _ => inst
                      end
                  | _ => inst
                  end) in H.
    assert (H0 : ∀ x, x ≠ pk_attname p → column x inst0 = column x inst).
    { intros x Hx. subst inst0. repeat case_match; try done;
        by apply column_setattr_ne. }
    clearbody inst0.
    destruct (save_table db p inst0) as [[db1 k]|] eqn:H1; [simpl in H|done].
    set (inst1 := setattr (setattr inst0 (pk_attname p) (VInt k))
                          (attname ln lf) (VInt k)) in H.
    destruct (save_table db1 c inst1) as [[db2 k']|] eqn:H2; [simpl in H|done].
    injection H as <- <-.
    assert (inst1 !! pk_attname c = Some (VInt k)) as Hk1.
    { rewrite Hpk. unfold inst1, setattr. by rewrite lookup_insert_eq. }
    assert (k' = k) as ->.
    { destruct (save_table_shape _ _ _ _ _ Hc H2)
        as [(_ & _ & Hk)|(_ & Hk & _)]; rewrite Hk1 in Hk; simpl in Hk;
        congruence. }
    pose proof (save_table_find _ _ _ _ _ Hc H2) as Hfc.
    pose proof (save_table_find _ _ _ _ _ Hpa H1) as Hfp.
    assert (find_row db2 (cls_name p) k = find_row db1 (cls_name p) k) as Hfp2.
    { apply find_row_table.
      apply save_table_spec in H2 as (Hframe & _); [|done].
      apply Hframe. by apply subclass_name_differs. }
    rewrite Hfp in Hfp2.
    eapply (Hfin k); [|done|].
    + unfold joined_row. rewrite Hfc. simpl. rewrite Hp, Hl.
      rewrite <-Hpk, lookup_insert_eq. simpl. rewrite Hfp2. done.
    + intros n f Hf Hkey. rewrite Hkeys in Hkey.
      rewrite !not_elem_of_cons in Hkey. destruct Hkey as (Hk1' & Hk2 & Hk3 & _).
      rewrite (subclass_fields c p Hp) in Hf.
      apply elem_of_app in Hf as [Hf|Hf].
      * pose proof (attname_in_columns p n f Hf) as Hcol.
        unfold column at 1. rewrite lookup_union_r.
        -- rewrite stored_row_lookup by done. simpl. by apply H0.
        -- apply not_elem_of_dom. rewrite stored_row_dom by done.
           rewrite elem_of_list_to_set. by apply (base_columns_apart c p).
      * pose proof (attname_in_columns c n f Hf) as Hcol.
        unfold column at 1.
        erewrite lookup_union_Some_l; [|by apply stored_row_lookup].
        simpl. unfold inst1. rewrite !column_setattr_ne by done.
        by apply H0.
  - assert (key_attrs c = [pk_attname c]) as Hkeys
      by (unfold key_attrs; by rewrite Hp).
    unfold save in H. rewrite Hp in H.
    destruct (save_table db c inst) as [[db1 k]|] eqn:H1; [simpl in H|done].
    injection H as <- <-.
    pose proof (save_table_find _ _ _ _ _ Hc H1) as Hfc.
    eapply (Hfin k).
    + unfold joined_row. rewrite Hfc. simpl. by rewrite Hp.
    + unfold setattr. by rewrite lookup_insert_eq.
    + intros n f Hf Hkey. rewrite Hkeys in Hkey.
      apply not_elem_of_cons in Hkey as [Hne _].
      rewrite (root_fields c Hp) in Hf.
      unfold column at 1. rewrite stored_row_lookup; [done| |done].
      by apply attname_in_columns.
Qed.


(** * Referential integrity *)

(** Nothing that is written checks a foreign key: the engine does not,
    and [Model.save] does not.  What keeps the relational columns of the
    stored states pointing at rows is the forms, which offer the rows
    of the target as the choices of a relational field, and the
    cascade of a delete. *)

(** ** The schema *)

(** A parent link belongs to a subclass and points at its base. *)
Lemma parent_links c n f :
  c ∈ app_models → (n, f) ∈ local_fields c → field_parent_link f = true →
  parent_link_of c = Some (n, f) ∧
  ∃ p, parent c = Some p ∧ rel_to c f = Some (cls_name p).
Proof.
  intros Hc. revert n f.
  cut (Forall (λ nf, field_parent_link nf.2 = true →
         parent_link_of c = Some nf ∧ is_Some (parent c) ∧
         cls_name <$> parent c = rel_to c nf.2)
         (local_fields c)).
  { intros H n f Hf Hl. rewrite Forall_forall in H.
    destruct (H (n, f) Hf Hl) as (? & [p Hp] & Hto). split; [done|].
    exists p. rewrite Hp in Hto. by split. }
  revert c Hc. apply Forall_forall. by_computation.
Qed.

(** A relational column that [save] fills in itself is the parent link
    of the class. *)
Lemma relation_key_is_link c c0 n f :
  c ∈ app_models → c0 ∈ app_models → c0 = c ∨ parent c = Some c0 →
  (n, f) ∈ local_fields c0 → is_relation f = true →
  attname n f ∈ key_attrs c →
  c0 = c ∧ field_parent_link f = true.
Proof.
  intros Hc Hc0 Hrel. revert n f.
  cut (Forall (λ nf, is_relation nf.2 = true →
         attname nf.1 nf.2 ∈ key_attrs c →
         c0 = c ∧ field_parent_link nf.2 = true) (local_fields c0)).
  { intros H n f Hf. rewrite Forall_forall in H. apply (H (n, f) Hf). }
  revert Hrel. revert c0 Hc0. refine (proj1 (Forall_forall _ _) _).
  revert c Hc. apply Forall_forall. by_computation.
Qed.

(** Every other relational column is filled in from the form. *)
Lemma relation_on_form c c0 n f :
  c ∈ app_models → c0 ∈ app_models → c0 = c ∨ parent c = Some c0 →
  (n, f) ∈ local_fields c0 → is_relation f = true →
  attname n f ∉ key_attrs c → (n, f) ∈ formfields c.
Proof.
  intros Hc Hc0 Hrel. revert n f.
  cut (Forall (λ nf, is_relation nf.2 = true →
         attname nf.1 nf.2 ∉ key_attrs c → nf ∈ formfields c)
         (local_fields c0)).
  { intros H n f Hf. rewrite Forall_forall in H. apply (H (n, f) Hf). }
  revert Hrel. revert c0 Hc0. refine (proj1 (Forall_forall _ _) _).
  revert c Hc. apply Forall_forall. by_computation.
Qed.

(** The target of an inherited relational field is the same for the
    subclass: no field of a base points at ['self']. *)
Lemma rel_to_inherited c c0 n f :
  c ∈ app_models → c0 ∈ app_models → c0 = c ∨ parent c = Some c0 →
  (n, f) ∈ local_fields c0 → rel_to c f = rel_to c0 f.
Proof.
  intros Hc Hc0 Hrel. revert n f.
  cut (Forall (λ nf, rel_to c nf.2 = rel_to c0 nf.2) (local_fields c0)).
  { intros H n f Hf. rewrite Forall_forall in H. apply (H (n, f) Hf). }
  revert Hrel. revert c0 Hc0. refine (proj1 (Forall_forall _ _) _).
  revert c Hc. apply Forall_forall. by_computation.
Qed.

(** Two subclasses of one base: the one pair is [AdministrativeTask]
    and [Search]. *)
Lemma subclasses_of_one_base c1 c2 p :
  c1 ∈ app_models → c2 ∈ app_models →
  parent c1 = Some p → parent c2 = Some p →
  c1 = c2 ∨ cls_name c1 = "Search" ∨ cls_name c2 = "Search".
Proof.
  intros Hc1 Hc2 Hp1 Hp2.
  cut (Forall (λ c1, Forall (λ c2,
         parent c1 ≠ None → parent c1 = parent c2 →
         c1 = c2 ∨ cls_name c1 = "Search" ∨ cls_name c2 = "Search")
         app_models) app_models).
  { intros H. rewrite Forall_forall in H. specialize (H c1 Hc1).
    rewrite Forall_forall in H. apply (H c2 Hc2); by rewrite Hp1. }
  by_computation.
Qed.

(** ** What a form leaves in a relational column *)

Lemma formfield_clean_relation db c n f x v :
  is_relation f = true → formfield_clean db c (n, f) x = Ok v →
  (empty_values x = true ∧ v = VNone) ∨
  (∃ k, x = VInt k ∧ k ∈ pks db (from_option id EmptyString (rel_to c f)) ∧
        v = VObj (from_option id EmptyString (rel_to c f)) (Some k)).
Proof.
  intros Hrel. unfold formfield_clean. rewrite Hrel.
  destruct (empty_values x) eqn:He.
  - destruct (field_blank f); [|discriminate]. intros [= <-].
    left. split; [done|]. by destruct f.
  - destruct x; try discriminate.
    destruct (exists_pk _ _ _) eqn:Hex; [|discriminate]. intros [= <-].
    right. eexists. split; [done|]. split; [by apply exists_pk_true|done].
Qed.

(** [None] is assigned to a relational field that is nullable only. *)
Lemma construct_instance_null c inst cleaned inst' n f :
  construct_instance c inst cleaned = Ok inst' →
  (n, f, VNone) ∈ cleaned → is_relation f = true → field_null f = true.
Proof.
  intros Hci Hin Hrel. destruct (field_null f) eqn:Hnull; [done|exfalso].
  apply (raises_not_Ok (construct_instance c inst cleaned) inst'); [|done].
  apply (construct_instance_raises _ _ _ n f VNone); [done..|].
  intros i. unfold related_set. rewrite Hnull. apply Raise_raises.
Qed.

Lemma save_pks_mono db c inst db' inst' T j :
  c ∈ app_models → save db c inst = Ok (db', inst') →
  j ∈ pks db T → j ∈ pks db' T.
Proof.
  intros Hc H.
  apply (save_cases _ _ _ _ _ Hc) in H
    as [[k H]|(p & i0 & i1 & db1 & k & k' & Hp & H1 & H2)].
  - apply save_table_spec in H as (_ & _ & Hm & _); [|done]. apply Hm.
  - apply save_table_spec in H1 as (_ & _ & Hm1 & _); [|by eapply parent_app].
    apply save_table_spec in H2 as (_ & _ & Hm2 & _); [|done].
    intros Hj. by apply Hm2, Hm1.
Qed.

(** The row that [save] writes for a subclass holds in its parent link
    the key of the parent row written just before. *)
Lemma save_link db c inst db' inst' p ln lf r :
  c ∈ app_models → parent c = Some p → parent_link_of c = Some (ln, lf) →
  save db c inst = Ok (db', inst') → r ∈ table db' (cls_name c) →
  r ∈ table db (cls_name c) ∨
  ∃ k, r !! attname ln lf = Some (VInt k) ∧ k ∈ pks db' (cls_name p).
Proof.
  intros Hc Hp Hl H Hr.
  pose proof (parent_app _ _ Hp) as Hpa.
  pose proof (link_is_pk c ln lf Hc Hl) as Hpk.
  unfold save in H. rewrite Hp, Hl in H.
  destruct (save_table db p _) as [[db1 k]|] eqn:H1; [simpl in H|done].
  set (inst1 := setattr (setattr _ (pk_attname p) (VInt k))
                        (attname ln lf) (VInt k)) in H.
  destruct (save_table db1 c inst1) as [[db2 k']|] eqn:H2; [simpl in H|done].
  injection H as <- <-.
  destruct (save_table_rows _ _ _ _ _ _ _ Hc Hc H2 Hr) as [Hold|[_ ->]].
  - left. apply save_table_spec in H1 as (Hframe & _); [|done].
    rewrite <-Hframe; [done|]. intros Heq.
    by apply (subclass_name_differs c p Hc Hp).
  - right.
    assert (inst1 !! pk_attname c = Some (VInt k)) as Hk1.
    { rewrite Hpk. unfold inst1, setattr. by rewrite lookup_insert_eq. }
    assert (k' = k) as ->.
    { destruct (save_table_shape _ _ _ _ _ Hc H2)
        as [(_ & _ & Hk)|(_ & Hk & _)]; rewrite Hk1 in Hk; simpl in Hk;
        congruence. }
    exists k. split; [by rewrite <-Hpk, lookup_insert_eq|].
    apply save_table_spec in H2 as (_ & _ & Hm & _); [|done]. apply Hm.
    apply save_table_find in H1; [|done].
    apply find_row_Some in H1 as [? ?]. apply elem_of_pks. eauto.
Qed.

(** A saved form leaves a state of referential integrity as one: a key
    that the form accepted for a relational field is the key of a row,
    and so is the key that [save] puts into a parent link. *)
Lemma submit_referential db c inst data db' :
  c ∈ app_models → submit db c inst data = Ok db' →
  referential_integrity db → referential_integrity db'.
Proof.
  intros Hc H Hinv c0 n f r Hc0 Hf Hrel Hr.
  apply submit_Ok in H as (cleaned & inst' & inst'' & Hcl & Hci & _ & Hsave).
  assert (∀ T j, j ∈ pks db T → j ∈ pks db' T) as Hmono.
  { intros T j. exact (save_pks_mono db c inst' db' inst'' T j Hc Hsave). }
  destruct (save_rows _ _ _ _ _ _ _ Hc Hc0 Hsave Hr) as [Hold|[Hc0rel Hvals]].
  { eapply refers_mono; [done|]. by eapply Hinv. }
  destruct (decide (attname n f ∈ key_attrs c)) as [Hkey|Hkey].
  - destruct (relation_key_is_link c c0 n f Hc Hc0 Hc0rel Hf Hrel Hkey)
      as [-> Hlink].
    destruct (parent_links c n f Hc Hf Hlink) as (Hl & p & Hp & Hto).
    rewrite Hto. simpl.
    destruct (save_link _ _ _ _ _ p n f r Hc Hp Hl Hsave Hr) as [Hold|Hnew].
    + eapply refers_mono; [done|]. specialize (Hinv c n f r Hc Hf Hrel Hold).
      by rewrite Hto in Hinv.
    + right. done.
  - pose proof (relation_on_form c c0 n f Hc Hc0 Hc0rel Hf Hrel Hkey) as Hform.
    rewrite Hvals; [|by apply list_elem_of_fmap; exists (n, f)|done].
    destruct (submit_instance db c data cleaned inst inst' n f Hc Hcl Hci Hform)
      as (v & Hv & Hattr).
    unfold column. rewrite Hattr. simpl.
    destruct (clean_form_elem _ _ _ _ _ _ Hcl Hform) as (v' & Hv' & Hel).
    change ((n, f).1) with n in Hv'. rewrite Hv in Hv'. injection Hv' as <-.
    destruct (formfield_clean_relation _ _ _ _ _ _ Hrel Hv)
      as [[_ ->]|(k & _ & Hk & ->)].
    + left. split; [|by unfold form_value; rewrite Hrel].
      by eapply construct_instance_null.
    + right. exists k. split; [by unfold form_value; rewrite Hrel|].
      rewrite <-(rel_to_inherited c c0 n f) by done. by apply Hmono.
Qed.

(** ** What a delete leaves *)

Lemma reachable_one_child db : reachable db → one_child db.
Proof.
  intros Hreach c1 c2 p r1 r2 Hc1 Hc2 Hp1 Hp2 Hr1 Hr2 _.
  assert (table db "Search" = []) as Hempty.
  { apply reachable_keeps_them_empty; [done|]. set_solver. }
  destruct (subclasses_of_one_base c1 c2 p Hc1 Hc2 Hp1 Hp2) as [?|[Hs|Hs]];
    [done|exfalso..].
  - rewrite Hs, Hempty in Hr1. by apply elem_of_nil in Hr1.
  - rewrite Hs, Hempty in Hr2. by apply elem_of_nil in Hr2.
Qed.

(** Where no row of a base has rows of two subclasses on it, whatever
    refers to a collected row is collected: to a row that was collected
    with what is related to it, because it is related to it; to a
    parent row, because it is the row of the subclass or is related to
    that row through the base. *)
Lemma collected_referrers db c k tgt j c0 n f r jr :
  rows_have_columns db → one_child db →
  (tgt, j) ∈ collected db c k →
  c0 ∈ app_models → (n, f) ∈ local_fields c0 → is_relation f = true →
  rel_to c0 f = Some tgt → r ∈ table db (cls_name c0) →
  r !! attname n f = Some (VInt j) → row_pk (cls_name c0) r = Some jr →
  (cls_name c0, jr) ∈ collected db c k.
Proof.
  intros Hcols Hone Hdead Hc0 Hf Hrel Hto Hr Hj Hjr.
  unfold collected, with_parents in *.
  apply elem_of_app. left.
  apply elem_of_app in Hdead as [Hfull|Hpar].
  - apply (collected_closed db c k (tgt, j)); [done|].
    unfold related_objects. apply elem_of_app. left. simpl.
    by eapply elem_of_referrers.
  - apply list_elem_of_bind in Hpar as ([name' k'] & Hpar & Hfull).
    unfold parent_ref in Hpar. simpl in Hpar.
    destruct (get_model name') as [cc|] eqn:Hcc; [|by apply elem_of_nil in Hpar].
    apply get_model_Some in Hcc as [Hcc <-].
    destruct (parent cc) as [p|] eqn:Hp; [|by apply elem_of_nil in Hpar].
    destruct (parent_link_of cc) as [[ln lf]|] eqn:Hl;
      [|by apply elem_of_nil in Hpar].
    destruct (find_row db (cls_name cc) k') as [row|] eqn:Hrow;
      [|by apply elem_of_nil in Hpar].
    apply find_row_Some in Hrow as [Hrow Hk'].
    pose proof (row_pk_lookup cc row k' Hcc Hk') as Hpkrow.
    rewrite (link_is_pk cc ln lf Hcc Hl) in Hpkrow.
    rewrite Hpkrow in Hpar. simpl in Hpar.
    apply list_elem_of_singleton in Hpar. injection Hpar as Htgt Hjk.
    subst tgt j.
    destruct (field_parent_link f) eqn:Hlink.
    + destruct (parent_links c0 n f Hc0 Hf Hlink) as (Hl0 & p0 & Hp0 & Hto0).
      assert (p0 = p) as ->.
      { apply app_model_by_name; [by eapply parent_app..|]. congruence. }
      pose proof (row_pk_lookup c0 r jr Hc0 Hjr) as Hpkr.
      rewrite (link_is_pk c0 n f Hc0 Hl0), Hj in Hpkr.
      injection Hpkr as Hpkr. subst jr.
      assert (c0 = cc) as ->.
      { apply (Hone c0 cc p r row); try done. congruence. }
      done.
    + apply (collected_closed db c k (cls_name cc, k')); [done|].
      unfold related_objects. apply elem_of_app. right. simpl.
      rewrite (get_model_app cc Hcc). simpl. rewrite Hp.
      eapply elem_of_referrers_through; eauto.
Qed.

Lemma collected_names db c k o :
  c ∈ app_models → o ∈ collected db c k → ∃ c', c' ∈ app_models ∧ cls_name c' = o.1.
Proof.
  intros Hc. unfold collected, with_parents.
  assert (∀ x, x ∈ collect (S (length (all_refs db))) db [(cls_name c, k)] →
               ∃ c', c' ∈ app_models ∧ cls_name c' = x.1) as Hfull.
  { cut (∀ fuel seen,
           Forall (λ x, ∃ c', c' ∈ app_models ∧ cls_name c' = x.1) seen →
           Forall (λ x, ∃ c', c' ∈ app_models ∧ cls_name c' = x.1)
                  (collect fuel db seen)).
    { intros H x. revert x. apply Forall_forall, H, Forall_singleton.
      by exists c. }
    induction fuel as [|fuel IH]; intros seen Hseen; simpl; [done|].
    destruct (remove_dups _) as [|y new] eqn:Hnew; [done|].
    apply IH, Forall_app. split; [done|]. rewrite <-Hnew.
    apply Forall_forall. intros x Hx.
    apply elem_of_remove_dups, list_elem_of_filter in Hx as [_ Hx].
    apply list_elem_of_bind in Hx as (o' & Hx & _).
    apply related_objects_all_refs in Hx. unfold all_refs in Hx.
    apply list_elem_of_bind in Hx as (c' & Hx & Hc').
    apply list_elem_of_bind in Hx as (r & Hx & _).
    destruct (row_pk (cls_name c') r); [|by apply elem_of_nil in Hx].
    apply list_elem_of_singleton in Hx as ->. by exists c'. }
  intros [Ho|Ho]%elem_of_app; [by apply Hfull|].
  apply list_elem_of_bind in Ho as ([name' k'] & Ho & _).
  unfold parent_ref in Ho. simpl in Ho.
  destruct (get_model name') as [cc|]; [|by apply elem_of_nil in Ho].
  destruct (parent cc) as [p|] eqn:Hp; [|by apply elem_of_nil in Ho].
  destruct (parent_link_of cc) as [[ln lf]|]; [|by apply elem_of_nil in Ho].
  destruct (find_row db _ k') as [row|]; [|by apply elem_of_nil in Ho].
  destruct (as_key _); [|by apply elem_of_nil in Ho].
  apply list_elem_of_singleton in Ho as ->. exists p.
  split; [by eapply parent_app|done].
Qed.

(** The cascade leaves a state of referential integrity as one. *)
Lemma remove_rows_referential db c k :
  c ∈ app_models → rows_have_columns db → one_child db →
  referential_integrity db →
  referential_integrity (remove_rows db (collected db c k)).
Proof.
  intros Hc Hcols Hone Hinv c0 n f r Hc0 Hf Hrel Hr.
  rewrite table_remove_rows, list_elem_of_filter in Hr.
  destruct Hr as [Hlive Hr].
  destruct (Hinv c0 n f r Hc0 Hf Hrel Hr) as [?|(j & Hj & Hex)]; [by left|].
  right. exists j. split; [done|].
  destruct (rel_to_relation c0 f Hrel) as [tgt Htgt]. rewrite Htgt in *.
  simpl in *.
  apply elem_of_pks in Hex as (t & Ht & Htj). apply elem_of_pks.
  exists t. split; [|done].
  rewrite table_remove_rows, list_elem_of_filter. split; [|done].
  destruct (is_dead (collected db c k) tgt t) eqn:Hdead; [exfalso|done].
  unfold is_dead in Hdead. rewrite Htj in Hdead.
  apply bool_decide_eq_true in Hdead.
  destruct (Hcols c0 r Hc0 Hr) as [_ [jr Hjr]].
  unfold is_dead in Hlive. rewrite Hjr in Hlive.
  apply bool_decide_eq_false in Hlive. apply Hlive.
  by eapply collected_referrers.
Qed.

Lemma reachable_referential db : reachable db → referential_integrity db.
Proof.
  induction 1 as [db H|db c data db' Hr IH Hc H|db c k data db' Hr IH Hc H
                 |db c k db' Hr IH Hc H].
  - by apply empty_referential.
  - apply add_view_Ok in H as (inst & _ & H). by eapply submit_referential.
  - apply change_view_Ok in H as (inst & _ & H). by eapply submit_referential.
  - apply delete_view_Ok in H as [_ ->].
    apply remove_rows_referential; [done| | |done].
    + by apply reachable_columns.
    + by apply reachable_one_child.
Qed.



(** C5 (as stated) fails: [Model.save] stores a row whose foreign key
    names no researcher, and the state it leaves has a relational
    column that refers to no row. *)
Lemma save_stores_a_dangling_key :
  (7%Z ∉ pks examples.db8 "Researcher") ∧
  fst <$> save examples.db8 ResearcherProject examples.dangling_link
    = Ok examples.db_dangling ∧
  examples.dangling_row ∈ table examples.db_dangling "ResearcherProject" ∧
  examples.dangling_row !! "researcher_id" = Some (VInt 7) ∧
  ¬ referential_integrity examples.db_dangling.
Proof.
  split; [by_computation|]. split; [by_computation|].
  assert (examples.dangling_row ∈ table examples.db_dangling "ResearcherProject")
    as Hrow by by_computation.
  split; [done|]. split; [reflexivity|].
  intros Hinv.
  destruct (Hinv ResearcherProject "researcher" (ForeignKey "Researcher" [])
              examples.dangling_row) as [[Hn _]|(k & Hk & Hin)].
  - by_computation.
  - by_computation.
  - reflexivity.
  - exact Hrow.
  - discriminate.
  - change (examples.dangling_row !! attname "researcher"
              (ForeignKey "Researcher" [])) with (Some (VInt 7)) in Hk.
    injection Hk as <-. revert Hin. by_computation.
Qed.

(** * Keys that are stored are fetched *)

(** In a state stored through the admin views every key of a table is
    fetched: [get] returns an instance that holds the key and an
    attribute for each field of the class, and nothing else. *)
Lemma stored_objects_are_fetched db c k :
  reachable db → c ∈ app_models → k ∈ pks db (cls_name c) →
  ∃ inst, get db c k = Ok inst ∧
          inst !! pk_attname c = Some (VInt k) ∧
          dom inst = list_to_set ((λ nf, attname nf.1 nf.2) <$> fields c).
Proof.
  intros Hreach Hc Hk.
  destruct (joined_row_is_Some db c k Hc (reachable_referential db Hreach) Hk)
    as [r Hr].
  destruct (get_joined db c k r Hc Hr) as (inst & Hget & Hfields & Hother).
  exists inst. split; [done|]. split.
  - destruct (pk_is_field c Hc) as (nf & Hnf & Hpk).
    rewrite <-Hpk, (Hfields nf Hnf), Hpk. unfold column.
    by rewrite (joined_row_pk db c k r Hc Hr).
  - apply set_eq. intros a. rewrite elem_of_dom, elem_of_list_to_set.
    split.
    + intros [v Hv].
      destruct (decide (a ∈ (λ nf, attname nf.1 nf.2) <$> fields c)) as [|Hn];
        [done|]. rewrite (Hother a Hn) in Hv. discriminate.
    + intros ([n f] & -> & Hnf)%list_elem_of_fmap.
      rewrite (Hfields _ Hnf). by eexists.
Qed.

(** * What the add and the change view write *)

(** The schema: no form field assigns to an attribute that holds a
    key. *)
Lemma key_attrs_framed c a :
  c ∈ app_models → a ∈ key_attrs c →
  Forall (λ x, a ≠ x.1 ∧ a ≠ attname x.1 x.2 ∧ a ≠ "_" +:+ x.1 +:+ "_cache")
         (formfields c).
Proof.
  intros Hc. revert a. apply Forall_forall. revert c Hc. apply Forall_forall.
  apply (bool_decide_unpack _). by vm_compute.
Qed.

Lemma form_keeps_keys db c data cleaned inst inst' a :
  c ∈ app_models → a ∈ key_attrs c →
  clean_form db c data (formfields c) = Ok cleaned →
  construct_instance c inst cleaned = Ok inst' →
  inst' !! a = inst !! a.
Proof.
  intros Hc Ha Hcl Hci. eapply construct_instance_frame; [|exact Hci].
  pose proof (key_attrs_framed c a Hc Ha) as Hsep.
  rewrite <-(clean_form_fields _ _ _ _ _ Hcl) in Hsep.
  apply Forall_fmap in Hsep. eapply Forall_impl; [exact Hsep|].
  by intros [[??] ?].
Qed.

Lemma key_attrs_subclass c p ln lf :
  parent c = Some p → parent_link_of c = Some (ln, lf) →
  key_attrs c = [pk_attname c; pk_attname p; attname ln lf].
Proof. intros Hp Hl. unfold key_attrs. by rewrite Hp, Hl. Qed.

Lemma pk_in_key_attrs c : pk_attname c ∈ key_attrs c.
Proof. unfold key_attrs. left. Qed.



Lemma next_id_fresh db name : next_id db name ∉ pks db name.
Proof.
  unfold next_id. generalize (pks db name). intros l Hin.
  assert (∀ j, j ∈ l → (j ≤ foldr Z.max 0 l)%Z) as Hmax.
  { clear. induction l as [|x l IH]; intros j Hj;
      [by apply elem_of_nil in Hj|].
    simpl. apply elem_of_cons in Hj as [->|Hj]; [lia|].
    specialize (IH j Hj). lia. }
  specialize (Hmax _ Hin). lia.
Qed.



(** * The change view *)


Lemma joined_row_sub db c k r p ln lf :
  parent c = Some p → parent_link_of c = Some (ln, lf) →
  joined_row db c k = Some r →
  ∃ row j pr, find_row db (cls_name c) k = Some row ∧
    row !! attname ln lf = Some (VInt j) ∧
    find_row db (cls_name p) j = Some pr ∧ r = row ∪ pr.
Proof.
  intros Hp Hl. unfold joined_row. rewrite Hp, Hl.
  destruct (find_row db (cls_name c) k) as [row|]; [simpl|discriminate].
  destruct (row !! attname ln lf) as [[| |j| | |]|] eqn:Hj; try discriminate.
  simpl. destruct (find_row db (cls_name p) j) as [pr|] eqn:Hpr;
    [|discriminate]. intros [= <-]. by exists row, j, pr.
Qed.

(** What [get] returns holds the key under the key attribute of the
    class, and for a subclass under that of its base as well. *)
Lemma get_keys db c k inst a :
  c ∈ app_models → rows_have_columns db → get db c k = Ok inst →
  a ∈ key_attrs c → inst !! a = Some (VInt k).
Proof.
  intros Hc Hcols Hget Ha.
  destruct (get_Ok _ _ _ _ Hget) as [r Hr].
  destruct (get_joined db c k r Hc Hr) as (inst' & Hget' & Hfields & _).
  assert (inst' = inst) as -> by congruence.
  pose proof (joined_row_pk db c k r Hc Hr) as Hpkr.
  assert (inst !! pk_attname c = Some (VInt k)) as Hown.
  { destruct (pk_is_field c Hc) as (nf & Hnf & Hpk).
    rewrite <-Hpk, (Hfields nf Hnf), Hpk. unfold column. by rewrite Hpkr. }
  destruct (parent c) as [p|] eqn:Hp.
  - destruct (subclasses_declare_link c p Hc Hp) as (ln & lf & Hl & _ & _).
    pose proof (link_is_pk c ln lf Hc Hl) as Hpk.
    pose proof (parent_app _ _ Hp) as Hpa.
    rewrite (key_attrs_subclass c p ln lf Hp Hl) in Ha.
    rewrite !elem_of_cons in Ha.
    destruct Ha as [->|[->|[->|Ha]]]; [done| |by rewrite <-Hpk|
                                       by apply elem_of_nil in Ha].
    clear Hpkr.
    destruct (joined_row_sub db c k r p ln lf Hp Hl Hr)
      as (row & j & pr & Hrow & Hj & Hpr & ->).
    apply find_row_Some in Hrow as [Hrow Hk].
    apply (row_pk_lookup c row k Hc) in Hk. rewrite Hpk, Hj in Hk.
    injection Hk as ->.
    apply find_row_Some in Hpr as [Hpr Hkp].
    apply (row_pk_lookup p pr k Hpa) in Hkp.
    destruct (pk_is_unique p Hpa) as ([n0 f0] & Hf0 & Hatt & _).
    simpl in Hatt.
    assert ((n0, f0) ∈ fields c) as Hf.
    { rewrite (subclass_fields c p Hp). apply elem_of_app. by left. }
    pose proof (Hfields (n0, f0) Hf) as Hval. simpl in Hval.
    rewrite Hatt in Hval. rewrite Hval. f_equal. unfold column.
    rewrite lookup_union_r; [by rewrite Hkp|].
    apply not_elem_of_dom. rewrite (proj1 (Hcols c row Hc Hrow)).
    rewrite elem_of_list_to_set. apply (base_columns_apart c p); [done..|].
    rewrite <-Hatt. by apply attname_in_columns.
  - unfold key_attrs in Ha. rewrite Hp in Ha.
    by apply list_elem_of_singleton in Ha as ->.
Qed.




(** * What is entered is what is fetched *)

(** What a form field makes of a submitted value, as the attribute
    holds it: the value itself, or the field's empty value. *)
Lemma formfield_clean_value db c n f x v :
  formfield_clean db c (n, f) x = Ok v →
  form_value f v = if empty_values x then form_value f (empty_value f) else x.
Proof.
  unfold formfield_clean, form_value.
  destruct (empty_values x) eqn:He.
  - destruct (field_blank f); [|discriminate]. by intros [= <-].
  - destruct (is_relation f) eqn:Hrel.
    + destruct x; try discriminate.
      destruct (exists_pk _ _ _); [|discriminate]. by intros [= <-].
    + destruct (is_text f).
      * destruct x; try discriminate. case_bool_decide; [discriminate|].
        destruct (too_long f s); [discriminate|]. by intros [= <-].
      * destruct f, x; try discriminate; try (by intros [= <-]).
        case_bool_decide; [discriminate|]. by intros [= <-].
Qed.

Lemma form_value_empty f : form_value f (empty_value f) = empty_value f.
Proof. unfold form_value. by destruct f. Qed.

Lemma save_key db c inst db' inst' k :
  c ∈ app_models → save db c inst = Ok (db', inst') →
  (∀ a, a ∈ key_attrs c → inst !! a = Some (VInt k)) →
  inst' !! pk_attname c = Some (VInt k).
Proof.
  intros Hc H Hkeys. pose proof (Hkeys _ (pk_in_key_attrs c)) as Hk.
  unfold save in H. destruct (parent c) as [p|] eqn:Hp.
  - destruct (subclasses_declare_link c p Hc Hp) as (ln & lf & Hl & _ & _).
    pose proof (link_is_pk c ln lf Hc Hl) as Hpk.
    pose proof (parent_app _ _ Hp) as Hpa.
    assert (inst !! pk_attname p = Some (VInt k)) as Hkp.
    { apply Hkeys. rewrite (key_attrs_subclass c p ln lf Hp Hl). right. left. }
    rewrite Hl, Hkp in H.
    destruct (save_table db p inst) as [[db1 k1]|] eqn:H1; [simpl in H|done].
    destruct (save_table db1 c _) as [[db2 k2]|] eqn:H2; [simpl in H|done].
    injection H as <- <-.
    assert (k1 = k) as ->.
    { destruct (save_table_shape _ _ _ _ _ Hpa H1)
        as [(_ & _ & Hx)|(_ & Hx & _)]; rewrite Hkp in Hx; simpl in Hx;
        congruence. }
    rewrite Hpk. unfold setattr. by rewrite lookup_insert_eq.
  - destruct (save_table db c inst) as [[db1 k1]|] eqn:H1; [simpl in H|done].
    assert (inst' = setattr inst (pk_attname c) (VInt k1)) as ->.
    { destruct (parent_link_of c) as [[??]|]; by injection H. }
    assert (k1 = k) as ->.
    { destruct (save_table_shape _ _ _ _ _ Hc H1)
        as [(_ & _ & Hx)|(_ & Hx & _)]; rewrite Hk in Hx; simpl in Hx;
        congruence. }
    unfold setattr. by rewrite lookup_insert_eq.
Qed.

(** What a saved form leaves to fetch: under the key that [save]
    returned, an instance that holds for every field of the form the
    submitted value, or the field's empty value where nothing was
    submitted. *)
Lemma submit_then_get db c inst data db' :
  c ∈ app_models → submit db c inst data = Ok db' →
  ∃ k o, k ∈ pks db' (cls_name c) ∧ get db' c k = Ok o ∧
    (∀ k0, (∀ a, a ∈ key_attrs c → inst !! a = Some (VInt k0)) → k = k0) ∧
    ∀ n f, (n, f) ∈ formfields c →
      o !! attname n f =
      Some (if empty_values (column n data) then empty_value f
            else column n data).
Proof.
  intros Hc H.
  apply submit_Ok in H as (cleaned & inst' & inst'' & Hcl & Hci & _ & Hsave).
  destruct (save_then_get db c inst' db' inst'' Hc Hsave)
    as (k & o & Hk & Hin & Hget & _ & Hvals).
  exists k, o. split; [done|]. split; [done|]. split.
  - intros k0 Hkeys.
    assert (inst'' !! pk_attname c = Some (VInt k0)) as Hk0.
    { apply (save_key db c inst' db'); [done..|]. intros a Ha.
      rewrite (form_keeps_keys db c data cleaned inst inst' a) by done.
      by apply Hkeys. }
    congruence.
  - intros n f Hf.
    destruct (formfields_plain c (n, f) Hc Hf) as [Hkey Hfs].
    rewrite (Hvals n f Hfs Hkey).
    destruct (submit_instance db c data cleaned inst inst' n f Hc Hcl Hci Hf)
      as (v & Hv & Hattr).
    unfold column at 1. rewrite Hattr. simpl. f_equal.
    rewrite (formfield_clean_value _ _ _ _ _ _ Hv).
    by rewrite form_value_empty.
Qed.

(** The add view: what was entered on the form is fetched from the
    stored object. *)
Lemma add_view_stores_the_form db c data db' :
  c ∈ app_models → add_view db c data = Ok db' →
  ∃ k o, k ∈ pks db' (cls_name c) ∧ get db' c k = Ok o ∧
    ∀ n f, (n, f) ∈ formfields c →
      o !! attname n f =
      Some (if empty_values (column n data) then empty_value f
            else column n data).
Proof.
  intros Hc H. apply add_view_Ok in H as (inst & _ & H).
  destruct (submit_then_get db c inst data db' Hc H)
    as (k & o & ? & ? & _ & ?). eauto.
Qed.

(** The change view: the object is fetched under the same key, with
    what was entered on the form. *)
Lemma change_view_stores_the_form db c k data db' :
  reachable db → c ∈ app_models → change_view db c k data = Ok db' →
  ∃ o, get db' c k = Ok o ∧
    ∀ n f, (n, f) ∈ formfields c →
      o !! attname n f =
      Some (if empty_values (column n data) then empty_value f
            else column n data).
Proof.
  intros Hreach Hc H. apply change_view_Ok in H as (inst & Hget & H).
  destruct (submit_then_get db c inst data db' Hc H)
    as (k' & o & _ & Hget' & Hkey & Hvals).
  assert (k' = k) as ->.
  { apply Hkey. intros a Ha.
    apply (get_keys db c k); [done|by apply reachable_columns|done..]. }
  eauto.
Qed.

(** * The inlines of the admin site *)

(** Every inline of every registered admin class finds its foreign key
    to the model the admin class is registered for;
    [AssertionAssertionInline] finds it because it names it, the model
    having two foreign keys to [Assertion]; and [filter_horizontal]
    names many-to-many fields only. *)
Lemma inlines_find_their_parent :
  Forall (λ ma, Forall (λ i, is_Some (admin.inline_foreign_key ma.1 i))
                       (admin.inlines ma.2)) admin.ADMIN_SITE ∧
  admin.inline_foreign_key Assertion admin.AssertionAssertionInline
    = Some "assertion_high" ∧
  admin.inline_foreign_key Assertion
    {| admin.inline_class := "AssertionAssertionInline";
       admin.model := AssertionAssertion; admin.extra := 0;
       admin.fk_name := None |} = None ∧
  Forall (λ ma, Forall (λ n, Exists (λ nf, nf.1 = n)
                                    (local_many_to_many ma.1))
                       (admin.filter_horizontal ma.2)) admin.ADMIN_SITE.
Proof. repeat split; by_computation. Qed.

(** * The statements above at the sample site *)

Lemma absent_key_is_not_found_witness :
  (7%Z ∉ pks examples.db8 "Place") ∧
  get examples.db8 Place 7 = Raise DoesNotExist ∧
  change_view examples.db8 Place 7 (examples.place_form "D")
    = Raise Http404 ∧
  delete_view examples.db8 Place 7 = Raise Http404.
Proof.
  split; [by_computation|].
  apply (absent_key_is_not_found examples.db8 Place 7).
  by_computation.
Defined.

Lemma stored_objects_are_fetched_witness :
  pks examples.db8 "Researcher" = [1%Z] ∧
  ∃ inst, get examples.db8 Researcher 1 = Ok inst ∧
          inst !! "id" = Some (VInt 1) ∧
          dom inst = list_to_set
            ((λ nf, attname nf.1 nf.2) <$> fields Researcher).
Proof.
  split; [by_computation|].
  apply (stored_objects_are_fetched examples.db8 Researcher 1 db8_reachable);
    by_computation.
Defined.

Lemma dependent_tables_stay_empty_witness :
  Forall (λ T, table examples.db8 T = [])
         ["Source"; "Representation"; "CitationPart"; "Assertion";
          "AssertionAssertion"; "RepositorySource"; "Search"] ∧
  pks examples.db8 "PlacePart" = [1; 2]%Z.
Proof.
  split; [|by_computation].
  exact (dependent_tables_stay_empty examples.db8 db8_reachable).
Defined.


Lemma blank_without_null_is_refused_witness :
  raises (add_view examples.db0 Place
            (examples.row [("sort_order", VStr "A")])) ∧
  add_view examples.db0 Place (examples.row [("sort_order", VStr "A")])
    = Raise (IntegrityError "existence_date_start" "NOT NULL").
Proof.
  split; [|by_computation].
  refine (proj1 (proj2 (blank_without_null_is_refused examples.db0 Place
            (examples.row [("sort_order", VStr "A")])
            "existence_date_start"
            (DateField [verbose_name "date this place was founded";
                        blank true]) _ _ _ _ _ _)));
    [by_computation|by_computation|reflexivity..].
Defined.

Lemma unknown_keyword_raises_witness :
  construct Representation [] {[ "content" := VStr "In the name of God" ]}
    = Raise TypeError.
Proof.
  refine (proj2 (unknown_keyword_raises Representation []
                   {[ "content" := VStr "In the name of God" ]}
                   "content" (VStr "In the name of God") _ _ _ _) _ _);
    [by_computation|reflexivity|by_computation|by_computation|simpl; lia
    |by_computation].
Defined.

Lemma keys_are_unique_witness :
  unique_columns examples.db8 ∧
  NoDup (pks examples.db8 "PlacePart") ∧
  find_row examples.db8 "PlacePart" 2 = Some examples.state_row.
Proof.
  destruct (keys_are_unique examples.db8 db8_reachable) as (Hu & Hnd & Hfind).
  split; [exact Hu|]. split.
  - apply (Hnd PlacePart). by_computation.
  - apply (Hfind PlacePart 2%Z examples.state_row); by_computation.
Defined.

Lemma stored_values_are_typed_witness :
  examples.county_row ∈ table examples.db8 "PlacePart" ∧
  ∃ v, examples.county_row !! "sequence_number" = Some v ∧
       well_typed (PositiveSmallIntegerField
                     [verbose_name "sort order"; default (VInt 0)]) v = true.
Proof.
  split; [by_computation|].
  destruct (stored_values_are_typed examples.db8 PlacePart "sequence_number"
              (PositiveSmallIntegerField
                 [verbose_name "sort order"; default (VInt 0)])
              examples.county_row db8_reachable)
    as (v & Hv & Ht & _); [by_computation..|].
  exists v. split; [exact Hv|exact Ht].
Defined.

Lemma required_fields_are_filled_witness :
  ∃ v, examples.county_row !! "name" = Some v ∧ v ≠ VNone ∧
       v ≠ VStr EmptyString.
Proof.
  apply (required_fields_are_filled examples.db8 PlacePart "name"
           (CharField [verbose_name "place name"; max_length 128])
           examples.county_row db8_reachable);
    [by_computation|by_computation|reflexivity|reflexivity|reflexivity
    |by_computation].
Defined.

Lemma stored_objects_display_witness :
  ∃ inst s, get examples.db8 Researcher 1 = Ok inst ∧
            str examples.db8 Researcher inst = Str s ∧ s ≠ EmptyString.
Proof.
  destruct (get examples.db8 Researcher 1) as [inst|e] eqn:H;
    [|exfalso; revert H; by_computation].
  destruct (stored_objects_display examples.db8 Researcher 1 inst
              db8_reachable ltac:(by_computation) H)
    as (s & Hs & _ & _ & Hd).
  exists inst, s. split; [reflexivity|]. split; [exact Hs|].
  apply (Hd Researcher); [by_computation|discriminate].
Defined.





Lemma add_view_stores_the_form_witness :
  ∃ k o, get examples.db9 AdministrativeTask k = Ok o ∧
         o !! "description" = Some (VStr "order film").
Proof.
  assert (add_view examples.db8 AdministrativeTask examples.task_form
          = Ok examples.db9) as H by by_computation.
  destruct (add_view_stores_the_form examples.db8 AdministrativeTask
              examples.task_form examples.db9 ltac:(by_computation) H)
    as (k & o & _ & Hget & Hvals).
  exists k, o. split; [exact Hget|].
  apply (Hvals "description" (TextField [verbose_name "description"])).
  by_computation.
Defined.

Lemma change_view_stores_the_form_witness :
  ∃ o, get (examples.db8_with "D") Place 1 = Ok o ∧
       o !! "sort_order" = Some (VStr "D").
Proof.
  assert (change_view examples.db8 Place 1 (examples.place_form "D")
          = Ok (examples.db8_with "D")) as H by by_computation.
  destruct (change_view_stores_the_form examples.db8 Place 1
              (examples.place_form "D") (examples.db8_with "D")
              db8_reachable ltac:(by_computation) H) as (o & Hget & Hvals).
  exists o. split; [exact Hget|].
  apply (Hvals "sort_order"
           (CharField [verbose_name "sort direction"; max_length 1;
                       choices SORT_ORDER_CHOICES; default (VStr "A")])).
  by_computation.
Defined.

(** * The type code of a stored activity *)

(** The schema: [typecode] is a column of [Activity] alone, and is not
    on the form of [Activity] or of its subclasses; a fresh instance
    holds the empty string for it. *)
Lemma typecode_field c :
  c ∈ app_models → c = Activity ∨ parent c = Some Activity →
  ∃ f, ("typecode", f) ∈ fields c ∧ (("typecode", f) ∉ formfields c) ∧
       attname "typecode" f = "typecode" ∧
       ("typecode" ∉ key_attrs c) ∧
       (construct c [] ∅ ≫= λ i, Ok (column "typecode" i))
         = Ok (VStr EmptyString).
Proof.
  revert c. refine (proj1 (Forall_forall _ _) _).
  cut (Forall (λ c, c = Activity ∨ parent c = Some Activity →
         Exists (λ nf, nf.1 = "typecode" ∧ (nf ∉ formfields c) ∧
                       attname nf.1 nf.2 = "typecode" ∧
                       ("typecode" ∉ key_attrs c) ∧
                       (construct c [] ∅ ≫= λ i, Ok (column "typecode" i))
                         = Ok (VStr EmptyString)) (fields c)) app_models).
  { intros H. eapply Forall_impl; [exact H|]. intros c Hc Hrel.
    specialize (Hc Hrel).
    apply Exists_exists in Hc as ([n f] & Hin & Hn & ? & ? & ? & ?).
    simpl in Hn. subst n. exists f. auto 10. }
  apply (bool_decide_unpack _). by vm_compute.
Qed.

Lemma typecode_column c0 f :
  c0 ∈ app_models → ("typecode", f) ∈ local_fields c0 → c0 = Activity.
Proof.
  intros Hc0. revert c0 Hc0. refine (proj1 (Forall_forall _ _) _).
  cut (Forall (λ c0, Forall (λ nf, nf.1 = "typecode" → c0 = Activity)
                            (local_fields c0)) app_models).
  { intros H. eapply Forall_impl; [exact H|]. intros c0 Hc0 Hin.
    rewrite Forall_forall in Hc0. by apply (Hc0 _ Hin). }
  apply (bool_decide_unpack _). by vm_compute.
Qed.

Lemma submit_typecode db c inst data db' :
  c ∈ app_models → submit db c inst data = Ok db' →
  (c = Activity ∨ parent c = Some Activity →
   column "typecode" inst = VStr EmptyString) →
  (∀ r, r ∈ table db "Activity" → column "typecode" r = VStr EmptyString) →
  ∀ r, r ∈ table db' "Activity" → column "typecode" r = VStr EmptyString.
Proof.
  intros Hc H Hinst Hinv r Hr.
  apply submit_Ok in H as (cleaned & inst' & inst'' & Hcl & Hci & _ & Hsave).
  assert (Activity ∈ app_models) as Ha by by_computation.
  destruct (save_rows db c inst' db' inst'' Activity r Hc Ha Hsave Hr)
    as [Hold|[Hrel Hval]]; [by apply Hinv|].
  assert (c = Activity ∨ parent c = Some Activity) as Hrel'
    by (destruct Hrel; auto).
  destruct (typecode_field c Hc Hrel') as (f & Hf & Hoff & Hatt & Hkey & _).
  unfold column. rewrite Hval; [simpl|by_computation|done].
  rewrite <-(Hinst Hrel'). unfold column. f_equal.
  rewrite <-Hatt. eapply construct_instance_frame; [|exact Hci].
  pose proof (off_form_is_framed c ("typecode", f) Hc Hf Hoff) as Hsep.
  rewrite <-(clean_form_fields _ _ _ _ _ Hcl) in Hsep.
  apply Forall_fmap in Hsep. eapply Forall_impl; [exact Hsep|].
  by intros [[??] ?].
Qed.

(** In every state stored through the admin views, the type code of
    every activity is the empty string: neither "A" nor "S" is ever
    stored. *)
Lemma typecode_is_never_stored db r :
  reachable db → r ∈ table db "Activity" →
  r !! "typecode" = Some (VStr EmptyString).
Proof.
  intros Hreach Hr.
  assert (column "typecode" r = VStr EmptyString) as Hcol.
  { revert r Hr.
    induction Hreach as [db H|db c data db' Hre IH Hc H
                        |db c k data db' Hre IH Hc H|db c k db' Hre IH Hc H].
    - intros r Hr. pose proof (H Activity ltac:(by_computation)) as He.
      change (cls_name Activity) with "Activity" in He. rewrite He in Hr.
      by apply elem_of_nil in Hr.
    - apply add_view_Ok in H as (inst & Hinst & H).
      apply (submit_typecode db c inst data db' Hc H); [|done].
      intros Hrel. destruct (typecode_field c Hc Hrel) as (_ & _ & _ & _ & _ & Hd).
      rewrite Hinst in Hd. simpl in Hd. by injection Hd.
    - apply change_view_Ok in H as (inst & Hget & H).
      apply (submit_typecode db c inst data db' Hc H); [|done].
      intros Hrel. destruct (typecode_field c Hc Hrel) as (f & Hf & _ & Hatt & _).
      destruct (get_columns db c k inst "typecode" f Hc
                  (reachable_columns db Hre) Hget Hf)
        as (c0 & row & Hc0 & _ & Hf0 & Hrow & Hattr).
      rewrite (typecode_column c0 f Hc0 Hf0) in Hrow.
      rewrite Hatt in Hattr. unfold column at 1. rewrite Hattr. simpl.
      by apply IH.
    - apply delete_view_Ok in H as [_ ->].
      intros r. rewrite table_remove_rows, list_elem_of_filter.
      intros [_ ?]. by apply IH. }
  assert (is_Some (r !! "typecode")) as [v Hv].
  { apply elem_of_dom.
    rewrite (proj1 (reachable_columns db Hreach Activity r
                      ltac:(by_computation) Hr)).
    by_computation. }
  unfold column in Hcol. rewrite Hv in Hcol. simpl in Hcol. by rewrite Hv, Hcol.
Qed.

(** * A place without parts *)

Lemma names_of_filled parts :
  Forall (λ p, ∃ s, p !! "name" = Some (VStr s) ∧ s ≠ EmptyString) parts →
  ∃ names, names_of parts = Ok names ∧ length names = length parts ∧
           Forall (λ s, s ≠ EmptyString) names.
Proof.
  induction 1 as [|p parts (s & Hs & Hne) _ (l & IH & Hlen & Hall)]; simpl.
  - by exists [].
  - rewrite Hs, IH. simpl. exists (s :: l).
    split; [done|]. split; [simpl; by rewrite Hlen|by constructor].
Qed.

Lemma concat_filled sep names :
  names ≠ [] → Forall (λ s, s ≠ EmptyString) names →
  String.concat sep names ≠ EmptyString.
Proof.
  destruct names as [|s names]; [done|]. intros _ [Hs _]%Forall_cons.
  destruct s as [|a s]; [done|]. simpl. by destruct names.
Qed.

(** In a state stored through the admin views, the display string of a
    place is empty exactly when the place has no parts: every part has
    a name, and no name is empty. *)
Lemma Place_displays_empty_iff_no_parts db self :
  reachable db →
  ∃ s, Place___str__ db self = Ok s ∧
       (s = EmptyString ↔ placepart_set db self = []).
Proof.
  intros Hreach. unfold Place___str__.
  set (spec := if bool_decide _ then _ else _).
  pose proof (order_by_Permutation spec (placepart_set db self)) as Hperm.
  destruct (names_of_filled (order_by spec (placepart_set db self)))
    as (names & Hn & Hlen & Hall).
  { apply Forall_forall. intros p Hp.
    rewrite Hperm in Hp. unfold placepart_set in Hp.
    unfold related_manager in Hp. apply list_elem_of_filter in Hp as [_ Hp].
    destruct (stored_text db PlacePart "name"
                (CharField [verbose_name "place name"; max_length 128]) p)
      as (s & Hs & Hne); [done|by_computation|by_computation|done..|].
    assert (is_Some (p !! "name")) as [v Hv].
    { apply elem_of_dom.
      rewrite (proj1 (reachable_columns db Hreach PlacePart p
                        ltac:(by_computation) Hp)).
      by_computation. }
    exists s. unfold column in Hs. change (attname "name" _) with "name" in Hs.
    rewrite Hv in Hs. simpl in Hs. by rewrite Hv, Hs. }
  rewrite Hn. simpl. eexists. split; [done|].
  apply Permutation_length in Hperm. rewrite <-Hlen in Hperm.
  split.
  - intros Hempty. destruct (placepart_set db self) as [|p ps]; [done|exfalso].
    apply (concat_filled ", " names); [|done..].
    by destruct names.
  - intros Hnone. rewrite Hnone in Hperm. by destruct names.
Qed.

Lemma db9_reachable : reachable examples.db9.
Proof.
  apply (reach_add examples.db8 AdministrativeTask examples.task_form);
    [exact db8_reachable|by_computation..].
Qed.

Lemma typecode_is_never_stored_witness :
  table examples.db9 "Activity" =
  [examples.row
     [("id", VInt 1); ("researcher_id", VInt 1); ("scheduled_date", VDate 3);
      ("completed_date", VDate 4); ("typecode", VStr EmptyString);
      ("status", VStr "open"); ("description", VStr "order film");
      ("priority", VInt 1); ("comments", VStr EmptyString)]] ∧
  (examples.row
     [("id", VInt 1); ("researcher_id", VInt 1); ("scheduled_date", VDate 3);
      ("completed_date", VDate 4); ("typecode", VStr EmptyString);
      ("status", VStr "open"); ("description", VStr "order film");
      ("priority", VInt 1); ("comments", VStr EmptyString)]) !! "typecode" = Some (VStr EmptyString).
Proof.
  assert (table examples.db9 "Activity" = [(examples.row
     [("id", VInt 1); ("researcher_id", VInt 1); ("scheduled_date", VDate 3);
      ("completed_date", VDate 4); ("typecode", VStr EmptyString);
      ("status", VStr "open"); ("description", VStr "order film");
      ("priority", VInt 1); ("comments", VStr EmptyString)])]) as H by by_computation.
  split; [exact H|].
  apply (typecode_is_never_stored examples.db9 _ db9_reachable).
  rewrite H. left.
Defined.

Lemma Place_displays_empty_iff_no_parts_witness :
  Place___str__ examples.db8 (examples.place_row "A") = Ok "State, County" ∧
  ∃ s, Place___str__ examples.db8 (examples.place_row "A") = Ok s ∧
       (s = EmptyString ↔
        placepart_set examples.db8 (examples.place_row "A") = []).
Proof.
  split; [by_computation|].
  exact (Place_displays_empty_iff_no_parts examples.db8
           (examples.place_row "A") db8_reachable).
Defined.

(** * Links that are accepted *)

Local Notation role_field :=
  (CharField [verbose_name "researcher's role on project"; max_length 64;
              blank true]).

Lemma role_clean db role v :
  formfield_clean db ResearcherProject ("role", role_field) (VStr role) = Ok v ↔
  (len role ≤ 64)%nat ∧ v = VStr role.
Proof.
  unfold formfield_clean.
  destruct role as [|a role].
  - simpl. split; [intros [= <-]; split; [lia|done]|by intros [_ ->]].
  - simpl.
    change ((if continues a then 0 else 1) + len role)%nat
      with (len (String a role)).
    unfold too_long.
    change (field_max_length _) with (Some 64%nat). cbv iota.
    destruct (bool_decide (64 < len (String a role))%nat) eqn:Hl.
    + apply bool_decide_eq_true in Hl. split; [discriminate|].
      intros [? _]. lia.
    + apply bool_decide_eq_false in Hl.
      split; [intros [= <-]; split; [lia|done]|by intros [_ ->]].
Qed.

Lemma key_clean db n tgt kw k v :
  formfield_clean db ResearcherProject (n, ForeignKey tgt kw) (VInt k) = Ok v ↔
  k ∈ pks db (from_option id EmptyString (rel_to ResearcherProject (ForeignKey tgt kw))) ∧
  v = VObj (from_option id EmptyString (rel_to ResearcherProject (ForeignKey tgt kw))) (Some k).
Proof.
  unfold formfield_clean. simpl.
  destruct (exists_pk _ _ _) eqn:He.
  - apply exists_pk_true in He. split; [by intros [= <-]|by intros [_ ->]].
  - split; [discriminate|]. intros [Hk _]. apply exists_pk_true in Hk. congruence.
Qed.

Lemma Field_validate_key db c n tgt kw k :
  field_editable (ForeignKey tgt kw) = true →
  field_choices (ForeignKey tgt kw) = [] →
  k ∈ pks db (from_option id EmptyString (rel_to c (ForeignKey tgt kw))) →
  Field_validate db c (n, ForeignKey tgt kw) (VInt k) = Ok ().
Proof.
  intros He Hch Hk. apply exists_pk_true in Hk.
  unfold Field_validate. rewrite He, Hch, Hk.
  rewrite (bool_decide_eq_false_2 (VInt k = VNone)) by done.
  by destruct (field_blank _).
Qed.

Lemma unique_ok_fresh others r fs :
  Forall (λ nf, field_unique nf.2 = true →
            Forall (λ o : dict, o !! attname nf.1 nf.2 ≠ r !! attname nf.1 nf.2)
                   others) fs →
  unique_ok others r fs = Ok ().
Proof.
  induction 1 as [|nf fs Hnf _ IH]; simpl; [done|].
  destruct (field_unique nf.2) eqn:Hu; simpl; [|done].
  rewrite bool_decide_eq_false_2; [done|].
  intros (o & Ho & Heq & _)%Exists_exists.
  specialize (Hnf eq_refl). rewrite Forall_forall in Hnf. by apply (Hnf o).
Qed.

Lemma columns_ok_filled r fs :
  Forall (λ nf, field_null nf.2 = true ∨
                ∃ v, r !! attname nf.1 nf.2 = Some v ∧ v ≠ VNone) fs →
  columns_ok r fs = Ok ().
Proof.
  induction 1 as [|nf fs Hnf _ IH]; simpl; [done|].
  assert (column_ok r nf = Ok ()) as ->; [|done].
  unfold column_ok. destruct Hnf as [->|(v & -> & Hv)].
  - by destruct (r !! attname nf.1 nf.2) as [[]|].
  - by destruct v.
Qed.

Lemma add_link_returns db a b role :
  a ∈ pks db "Researcher" → b ∈ pks db "Project" → (len role ≤ 64)%nat →
  returns (add_view db ResearcherProject (ResearcherProject_form a b role)).
Proof.
  intros Ha Hb Hlen. unfold add_view.
  destruct (construct ResearcherProject [] ∅) as [inst0|e] eqn:Hc;
    [|exfalso; revert Hc; by_computation].
  assert (inst0 !! "id" = Some VNone) as Hid0.
  { assert ((construct ResearcherProject [] ∅ ≫= λ i, Ok (i !! "id"))
            = Ok (Some VNone)) as Hx by by_computation.
    rewrite Hc in Hx. by injection Hx. }
  simpl. unfold submit.
  change (formfields ResearcherProject) with
    [("researcher", ForeignKey "Researcher" []);
     ("project", ForeignKey "Project" []);
     ("role", role_field)].
  cbn [clean_form fst].
  assert (column "researcher" (ResearcherProject_form a b role) = VInt a)
    as -> by reflexivity.
  assert (column "project" (ResearcherProject_form a b role) = VInt b)
    as -> by reflexivity.
  assert (column "role" (ResearcherProject_form a b role) = VStr role)
    as -> by reflexivity.
  rewrite (proj2 (key_clean db "researcher" "Researcher" [] a _) (conj Ha eq_refl)).
  rewrite (proj2 (key_clean db "project" "Project" [] b _) (conj Hb eq_refl)).
  rewrite (proj2 (role_clean db role _) (conj Hlen eq_refl)).
  cbn [mbind result_bind].
  set (inst' := setattr (setattr (setattr (setattr (setattr inst0
         "researcher_id" (VInt a)) "_researcher_cache" (VObj "Researcher" (Some a)))
         "project_id" (VInt b)) "_project_cache" (VObj "Project" (Some b)))
         "role" (VStr role)).
  assert (construct_instance ResearcherProject inst0
    [("researcher", ForeignKey "Researcher" [],
      VObj (from_option id EmptyString
              (rel_to ResearcherProject (ForeignKey "Researcher" []))) (Some a));
     ("project", ForeignKey "Project" [],
      VObj (from_option id EmptyString
              (rel_to ResearcherProject (ForeignKey "Project" []))) (Some b));
     ("role", role_field, VStr role)] = Ok inst') as -> by reflexivity.
  cbn [mbind result_bind].
  assert (clean_fields db ResearcherProject inst'
            [("researcher", ForeignKey "Researcher" []);
             ("project", ForeignKey "Project" []); ("role", role_field)]
          = Ok ()) as ->.
  { cbn [clean_fields fst snd].
    assert (column (attname "researcher" (ForeignKey "Researcher" [])) inst' = VInt a)
      as -> by (unfold column, inst', setattr;
                by rewrite !lookup_insert_ne, lookup_insert_eq by done).
    assert (column (attname "project" (ForeignKey "Project" [])) inst' = VInt b)
      as -> by (unfold column, inst', setattr;
                by rewrite !lookup_insert_ne, lookup_insert_eq by done).
    assert (column (attname "role" role_field) inst' = VStr role)
      as -> by (unfold column, inst', setattr; by rewrite lookup_insert_eq).
    rewrite (Field_validate_key db ResearcherProject "researcher" "Researcher" [] a)
      by done.
    rewrite (Field_validate_key db ResearcherProject "project" "Project" [] b)
      by done.
    by destruct role. }
  cbn [mbind result_bind].
  assert (inst' !! "id" = Some VNone) as Hid.
  { unfold inst', setattr. by rewrite !lookup_insert_ne by done. }
  change (save db ResearcherProject inst') with
    (save_table db ResearcherProject inst' ≫= λ '(db1, k),
       Ok (db1, setattr inst' (pk_attname ResearcherProject) (VInt k))).
  unfold save_table. change (pk_attname ResearcherProject) with "id".
  rewrite Hid. cbn [as_key].
  unfold db_insert. cbv zeta. change (pk_attname ResearcherProject) with "id".
  rewrite row_of_lookup. rewrite bool_decide_eq_true_2 by by_computation.
  unfold column at 1. rewrite Hid. cbn [from_option as_key id].
  rewrite bool_decide_eq_true_2 by by_computation.
  cbn [mbind result_bind].
  set (r := <["id" := VInt (next_id db (cls_name ResearcherProject))]>
              (row_of (local_fields ResearcherProject) inst')).
  rewrite (unique_ok_fresh _ r).
  2:{ change (local_fields ResearcherProject) with
        [("id", AutoField [verbose_name "ID"; primary_key true]);
         ("researcher", ForeignKey "Researcher" []);
         ("project", ForeignKey "Project" []); ("role", role_field)].
      apply Forall_cons; split;
        [|repeat (apply Forall_cons; split; [discriminate|]); constructor].
      intros _. apply Forall_forall. intros o Ho Heq.
      apply (next_id_fresh db (cls_name ResearcherProject)).
      apply elem_of_pks. exists o. split; [done|].
      unfold row_pk. change (pk_column _) with "id".
      change (attname _ _) with "id" in Heq. rewrite Heq.
      unfold r. by rewrite lookup_insert_eq. }
  rewrite (columns_ok_filled r).
  2:{ change (local_fields ResearcherProject) with
        [("id", AutoField [verbose_name "ID"; primary_key true]);
         ("researcher", ForeignKey "Researcher" []);
         ("project", ForeignKey "Project" []); ("role", role_field)].
      repeat (apply Forall_cons; split); [| | | |constructor];
        right; unfold r; cbn [fst snd].
      - rewrite lookup_insert_eq. by eexists.
      - rewrite lookup_insert_ne, row_of_lookup by done.
        rewrite bool_decide_eq_true_2 by by_computation.
        unfold column, inst', setattr.
        rewrite !lookup_insert_ne, lookup_insert_eq by done. by eexists.
      - rewrite lookup_insert_ne, row_of_lookup by done.
        rewrite bool_decide_eq_true_2 by by_computation.
        unfold column, inst', setattr.
        rewrite !lookup_insert_ne, lookup_insert_eq by done. by eexists.
      - rewrite lookup_insert_ne, row_of_lookup by done.
        rewrite bool_decide_eq_true_2 by by_computation.
        unfold column, inst', setattr.
        rewrite lookup_insert_eq. by eexists. }
  simpl. by eexists.
Qed.

(** Adding links one after the other goes through when each of them
    names a researcher and a project that are stored and a role of at
    most 64 characters, however many they are. *)
Lemma add_links_returns db links :
  Forall (λ l, l.1.1 ∈ pks db "Researcher" ∧ l.1.2 ∈ pks db "Project" ∧
               (len l.2 ≤ 64)%nat) links →
  returns (add_links db links).
Proof.
  revert db. induction links as [|[[a b] role] links IH]; intros db Hall; simpl.
  - by eexists.
  - apply Forall_cons in Hall as [(Ha & Hb & Hlen) Hall]. simpl in *.
    destruct (add_link_returns db a b role Ha Hb Hlen) as [db1 H1].
    rewrite H1. simpl. apply IH.
    apply add_link_spec in H1 as (_ & _ & r & -> & _).
    unfold pks. by rewrite !table_insert_ne by done.
Qed.

Lemma add_link_role db a b role db' :
  add_view db ResearcherProject (ResearcherProject_form a b role) = Ok db' →
  (len role ≤ 64)%nat.
Proof.
  intros H. apply add_view_Ok in H as (inst0 & _ & H).
  apply submit_Ok in H as (cleaned & _ & _ & Hcl & _).
  destruct (clean_form_elem _ _ _ _ _ ("role", role_field) Hcl) as (v & Hv & _);
    [by_computation|].
  change (column _ (ResearcherProject_form a b role)) with (VStr role) in Hv.
  by apply role_clean in Hv as [? _].
Qed.

Lemma add_links_roles db links db' :
  add_links db links = Ok db' → Forall (λ l, (len l.2 ≤ 64)%nat) links.
Proof.
  revert db. induction links as [|[[a b] role] links IH]; intros db; simpl;
    [constructor|].
  intros H. apply bind_Ok in H as (db1 & H1 & H).
  constructor; [by eapply add_link_role|by eapply IH].
Qed.

(** C6: links are added, however many, exactly when each names a stored
    researcher and a stored project (and a role that fits the column);
    and after adding a collection of (researcher, project) links to a
    store whose join table is empty, the researchers listed for a
    project and the projects listed for a researcher are those of the
    added links and no others. *)
Theorem links_round_trip db0 links :
  table db0 "ResearcherProject" = [] →
  (returns (add_links db0 links) ↔
   Forall (λ l, l.1.1 ∈ pks db0 "Researcher" ∧ l.1.2 ∈ pks db0 "Project" ∧
                (len l.2 ≤ 64)%nat) links) ∧
  ∀ db, add_links db0 links = Ok db →
  ∀ a p,
    ((∃ r, r ∈ Project_researchers db p ∧ row_pk "Researcher" r = Some a)
       ↔ (a, p) ∈ links.*1) ∧
    ((∃ r, r ∈ Researcher_project_set db a ∧ row_pk "Project" r = Some p)
       ↔ (a, p) ∈ links.*1).
Proof.
  intros Hempty. split.
  { split; [|apply add_links_returns].
    intros [db H]. pose proof (add_links_roles _ _ _ H) as Hroles.
    apply add_links_spec in H as (Hall & _).
    rewrite Forall_forall in Hall, Hroles |- *. intros l Hl.
    destruct (Hall l Hl). split; [done|]. split; [done|]. by apply Hroles. }
  intros db H a p.
  apply add_links_spec in H as (Hall & HR & HP & rows & Hrows & Hmatch).
  rewrite Hempty in Hrows. simpl in Hrows.
  rewrite Project_researchers_eq, Researcher_project_set_eq.
  assert (∀ t, t ∈ rows → ∃ l, l ∈ links ∧
            t !! "researcher_id" = Some (VInt l.1.1) ∧
            t !! "project_id" = Some (VInt l.1.2)) as Hfrom.
  { intros t (i & Hi)%list_elem_of_lookup.
    destruct (Forall2_lookup_l _ _ _ _ _ Hmatch Hi) as (l & Hl & ? & ?).
    exists l. split; [by eapply list_elem_of_lookup_2|done]. }
  assert (∀ l, l ∈ links → ∃ t, t ∈ rows ∧
            t !! "researcher_id" = Some (VInt l.1.1) ∧
            t !! "project_id" = Some (VInt l.1.2)) as Hto.
  { intros l (i & Hi)%list_elem_of_lookup.
    destruct (Forall2_lookup_r _ _ _ _ _ Hmatch Hi) as (t & Ht & ? & ?).
    exists t. split; [by eapply list_elem_of_lookup_2|done]. }
  rewrite Forall_forall in Hall.
  split; split.
  - intros (r & Hr & Hpk). apply elem_of_through_rows in Hr
      as (t & Ht & Hp & _ & Hlink).
    simpl in Ht. rewrite Hrows in Ht.
    destruct (Hfrom t Ht) as ([[a' p'] role] & Hl & Ha' & Hp'). simpl in *.
    rewrite Hpk, Ha' in Hlink. rewrite Hp' in Hp. simplify_eq/=.
    apply list_elem_of_fmap. eexists. split; [|exact Hl]. done.
  - intros ([[a' p'] role] & [= <- <-] & Hl)%list_elem_of_fmap.
    destruct (Hto _ Hl) as (t & Ht & Ha' & Hp'). simpl in *.
    destruct (Hall _ Hl) as [Hex _]. simpl in Hex.
    apply elem_of_pks in Hex as (r & Hr & Hpk).
    exists r. split; [|done]. apply elem_of_through_rows.
    exists t. simpl. rewrite Hrows, HR, Hpk, Ha'. done.
  - intros (r & Hr & Hpk). apply elem_of_through_rows in Hr
      as (t & Ht & Ha' & _ & Hlink).
    simpl in Ht. rewrite Hrows in Ht.
    destruct (Hfrom t Ht) as ([[a' p'] role] & Hl & Ha'' & Hp'). simpl in *.
    rewrite Hpk, Hp' in Hlink. rewrite Ha'' in Ha'. simplify_eq/=.
    apply list_elem_of_fmap. eexists. split; [|exact Hl]. done.
  - intros ([[a' p'] role] & [= <- <-] & Hl)%list_elem_of_fmap.
    destruct (Hto _ Hl) as (t & Ht & Ha' & Hp'). simpl in *.
    destruct (Hall _ Hl) as [_ Hex]. simpl in Hex.
    apply elem_of_pks in Hex as (r & Hr & Hpk).
    exists r. split; [|done]. apply elem_of_through_rows.
    exists t. simpl. rewrite Hrows, HP, Hpk, Hp'. done.
Qed.


Lemma links_round_trip_witness :
  add_links examples.db_team examples.team_links = Ok examples.db_linked ∧
  length (table examples.db_linked "ResearcherProject") = 4%nat ∧
  (∃ r, r ∈ Project_researchers examples.db_linked 1 ∧
        row_pk "Researcher" r = Some 2%Z) ∧
  ¬ (∃ r, r ∈ Researcher_project_set examples.db_linked 1 ∧
          row_pk "Project" r = Some 2%Z).
Proof.
  assert (table examples.db_team "ResearcherProject" = []) as He
    by by_computation.
  destruct (links_round_trip examples.db_team examples.team_links He)
    as [Hacc Hround].
  destruct (proj2 Hacc) as [db Ha]; [by_computation|].
  assert (db = examples.db_linked) as ->.
  { unfold examples.db_linked. by rewrite Ha. }
  split; [exact Ha|]. split; [by_computation|].
  specialize (Hround _ Ha). split.
  - apply (Hround 2%Z 1%Z). by_computation.
  - intros Hx. apply (Hround 1%Z 2%Z) in Hx. revert Hx. by_computation.
Defined.

